(** * Receipt ("vale") audit pipeline: field validator, retry-wrapped oracle
    caller and processing ledger.

    Shallow embedding of [validation.js] (src/unnamed/part_002), of the
    revision of [gemini.js] that extracts with the oracle and validates with
    [validateExtraction] (src/unnamed/part_000), of [bucket.js] and of
    [audit.js], with the date helpers of [utils.js] (src/unnamed/part_006)
    and the row mapping of [extract.js].

    Conventions of the embedding:
    - a JavaScript Number is an IEEE-754 binary64 value, [spec_float] at
      precision 53 and maximal exponent 1024, with the arithmetic of
      [SpecFloat] (round to nearest, ties to even);
    - a JavaScript string is a [string]; case mapping and white space are
      those of the ASCII range, other code units are left alone;
    - exceptions are explicit ([completion]); asynchronous calls are run in
      source order, the pipeline being sequential. *)

From Stdlib Require Import ZArith List String Ascii Bool Lia.
From Stdlib Require Import Floats.SpecFloat Numbers.DecimalString.
From stdpp Require Import base option list strings sorting gmap.

Local Open Scope string_scope.
Local Open Scope list_scope.
Local Open Scope Z_scope.

(** ** The JavaScript values and built-ins the code relies on *)

Module JS.

Definition number : Type := spec_float.

Definition prec : Z := 53.
Definition emax : Z := 1024.

Definition NaN : number := S754_nan.
Definition ofZ (z : Z) : number := binary_normalize prec emax z 0 false.

Definition lt (a b : number) : bool := SFltb a b.
Definition mul (a b : number) : number := SFmul prec emax a b.
Definition sub (a b : number) : number := SFsub prec emax a b.
Definition abs (a : number) : number := SFabs a.
Definition isNaN (a : number) : bool :=
  match a with S754_nan => true | _ => false end.

(** The Number nearest to [(-1)^neg * m * 10^e10], as the runtime reads a
    decimal literal. *)
Definition ofDecimal (neg : bool) (m : Z) (e10 : Z) : number :=
  match m with
  | Zpos p =>
      if 0 <=? e10 then
        match Z.pow 10 e10 with
        | Zpos q => binary_round prec emax neg (p * q) 0
        | _ => NaN
        end
      else
        let '(q, e, l) :=
          SFdiv_core_binary prec emax (Zpos p) 0 (Z.pow 10 (- e10)) 0 in
        binary_round_aux prec emax neg q e l
  | _ => S754_zero neg
  end.

(** [ToIntegerOrInfinity] on a finite Number; [None] for NaN and the
    infinities (every caller below tests finiteness first). *)
Definition truncate (x : number) : option Z :=
  match x with
  | S754_zero _ => Some 0
  | S754_finite s m e =>
      let a := if 0 <=? e then Zpos m * 2 ^ e else Zpos m / 2 ^ (- e) in
      Some (if s then - a else a)
  | _ => None
  end.

(** *** Values that reach the validator from a reference row *)

Inductive value :=
| VUndefined
| VNull
| VStr (s : string).

Definition truthy (v : value) : bool :=
  match v with
  | VStr s => negb (String.eqb s "")
  | _ => false
  end.

(** [String(v)], also the conversion inside a template literal. *)
Definition toString (v : value) : string :=
  match v with
  | VUndefined => "undefined"
  | VNull => "null"
  | VStr s => s
  end.

(** [a === b] for a string [a]. *)
Definition strictEqStr (a : string) (b : value) : bool :=
  match b with
  | VStr s => String.eqb a s
  | _ => false
  end.

(** *** Error objects and completions *)

Record detail := {
  atType : string;               (* the "@type" member *)
  retryDelay : option string
}.

Record error := {
  name : string;
  message : string;
  status : option Z;
  errorDetails : option (list detail)
}.

Definition mkError (n msg : string) : error :=
  {| name := n; message := msg; status := None; errorDetails := None |}.

Inductive completion (A : Type) :=
| Normal (a : A)
| Throw (e : error).
Arguments Normal {A} a.
Arguments Throw {A} e.

Definition bind {A B} (c : completion A) (k : A -> completion B)
  : completion B :=
  match c with
  | Normal a => k a
  | Throw e => Throw e
  end.

(** *** Strings *)

Definition isWhite (c : ascii) : bool :=
  let n := nat_of_ascii c in
  ((9 <=? n) && (n <=? 13))%nat || (n =? 32)%nat.

Fixpoint trimStart (s : string) : string :=
  match s with
  | String c r => if isWhite c then trimStart r else s
  | EmptyString => EmptyString
  end.

Fixpoint trimEnd (s : string) : string :=
  match s with
  | String c r =>
      match trimEnd r with
      | EmptyString => if isWhite c then EmptyString else String c EmptyString
      | r' => String c r'
      end
  | EmptyString => EmptyString
  end.

Definition trim (s : string) : string := trimEnd (trimStart s).

Definition upperChar (c : ascii) : ascii :=
  let n := nat_of_ascii c in
  if ((97 <=? n) && (n <=? 122))%nat then ascii_of_nat (n - 32) else c.

Fixpoint toUpperCase (s : string) : string :=
  match s with
  | String c r => String (upperChar c) (toUpperCase r)
  | EmptyString => EmptyString
  end.

(** [s.split(sep)] for a one-character separator; the last component is
    accumulated in [cur]. *)
Fixpoint splitAux (sep : ascii) (cur : string) (s : string) : list string :=
  match s with
  | EmptyString => [cur]
  | String c r =>
      if Ascii.eqb c sep then cur :: splitAux sep "" r
      else splitAux sep (cur +:+ String c "") r
  end.

Definition split (sep : ascii) (s : string) : list string :=
  splitAux sep "" s.

Fixpoint join (sep : string) (l : list string) : string :=
  match l with
  | [] => ""
  | [x] => x
  | x :: r => x +:+ sep +:+ join sep r
  end.

Fixpoint dropChars (n : nat) (s : string) : string :=
  match n, s with
  | S k, String _ r => dropChars k r
  | _, _ => s
  end.

Definition endsWith (s suffix : string) : bool :=
  let n := String.length s in
  let k := String.length suffix in
  (k <=? n)%nat && String.eqb (dropChars (n - k) s) suffix.

Definition decimal (z : Z) : string :=
  NilZero.string_of_int (Z.to_int z).

(** *** Reading numeric literals *)

Definition digitVal (c : ascii) : option Z :=
  let n := nat_of_ascii c in
  if ((48 <=? n) && (n <=? 57))%nat then Some (Z.of_nat n - 48) else None.

Fixpoint takeDigits (s : string) : list Z * string :=
  match s with
  | String c r =>
      match digitVal c with
      | Some d => let '(ds, rest) := takeDigits r in (d :: ds, rest)
      | None => ([], s)
      end
  | EmptyString => ([], s)
  end.

Definition digitsValue (base : Z) (ds : list Z) : Z :=
  fold_left (fun acc d => base * acc + d) ds 0.

Definition isE (c : ascii) : bool :=
  Ascii.eqb c "e" || Ascii.eqb c "E".

(** [ExponentPart], when one follows; otherwise nothing is consumed. *)
Definition parseExponent (s : string) : Z * string :=
  match s with
  | String c r =>
      if isE c then
        let '(neg, r1) :=
          match r with
          | String "+" r' => (false, r')
          | String "-" r' => (true, r')
          | _ => (false, r)
          end in
        let '(ds, r2) := takeDigits r1 in
        match ds with
        | [] => (0, s)
        | _ => ((if neg then - digitsValue 10 ds else digitsValue 10 ds), r2)
        end
      else (0, s)
  | EmptyString => (0, s)
  end.

(** Longest prefix of [s] that is a [StrUnsignedDecimalLiteral]. *)
Definition parseUnsigned (neg : bool) (s : string) : option (number * string) :=
  if String.prefix "Infinity" s then Some (S754_infinity neg, dropChars 8 s)
  else
    let '(ip, r1) := takeDigits s in
    let '(fp, r2) :=
      match r1 with
      | String "." r' => takeDigits r'
      | _ => ([], r1)
      end in
    match ip, fp with
    | [], [] => None
    | _, _ =>
        let '(ex, r3) := parseExponent r2 in
        Some (ofDecimal neg (digitsValue 10 (ip ++ fp))
                (ex - Z.of_nat (List.length fp)), r3)
    end.

Definition parseDecimal (s : string) : option (number * string) :=
  match s with
  | String "+" r => parseUnsigned false r
  | String "-" r => parseUnsigned true r
  | _ => parseUnsigned false s
  end.

(** [parseFloat(s)]. *)
Definition parseFloat (s : string) : number :=
  match parseDecimal (trimStart s) with
  | Some (x, _) => x
  | None => NaN
  end.

Definition radixDigit (base : Z) (c : ascii) : option Z :=
  let n := Z.of_nat (nat_of_ascii c) in
  let d :=
    if (48 <=? n) && (n <=? 57) then n - 48
    else if (97 <=? n) && (n <=? 102) then n - 87
    else if (65 <=? n) && (n <=? 70) then n - 55
    else 99 in
  if d <? base then Some d else None.

Fixpoint radixDigits (base : Z) (s : string) : option (list Z) :=
  match s with
  | EmptyString => Some []
  | String c r =>
      match radixDigit base c, radixDigits base r with
      | Some d, Some ds => Some (d :: ds)
      | _, _ => None
      end
  end.

Definition radixLiteral (s : string) : option (Z * string) :=
  match s with
  | String "0" (String c r) =>
      if Ascii.eqb c "x" || Ascii.eqb c "X" then Some (16, r)
      else if Ascii.eqb c "o" || Ascii.eqb c "O" then Some (8, r)
      else if Ascii.eqb c "b" || Ascii.eqb c "B" then Some (2, r)
      else None
  | _ => None
  end.

(** [Number(s)] for a string [s] ([StringToNumber]). *)
Definition Number (s : string) : number :=
  let t := trim s in
  if String.eqb t "" then S754_zero false
  else
    match radixLiteral t with
    | Some (base, r) =>
        match radixDigits base r with
        | Some (d :: ds) => ofZ (digitsValue base (d :: ds))
        | _ => NaN
        end
    | None =>
        match parseDecimal t with
        | Some (x, EmptyString) => x
        | _ => NaN
        end
    end.

(** *** Writing numbers *)

(** Nearest integer to [m * 2^e], a tie going upward. *)
Definition roundHalfUp (m : positive) (e : Z) : Z :=
  if 0 <=? e then Zpos m * 2 ^ e
  else (Zpos m + 2 ^ (- e - 1)) / 2 ^ (- e).

Definition numDigits (z : Z) : Z := Z.of_nat (String.length (decimal z)).

(** [Number::toString] picks the fewest digits [s] (there are [k] of them)
    such that [s * 10^(n-k)] reads back as [x]; [X] is the integer value
    of [x] and has [n] digits. *)
Fixpoint shortest (fuel : nat) (k n X : Z) (x : number) : Z * Z :=
  match fuel with
  | O => (X, n)
  | S f =>
      let p := 10 ^ (n - k) in
      let lo := X / p in
      let hi := lo + 1 in
      let up := if hi =? 10 ^ k then (10 ^ (k - 1), n + 1) else (hi, n) in
      match SFeqb (ofZ (lo * p)) x, SFeqb (ofZ (hi * p)) x with
      | true, true => if X - lo * p <=? hi * p - X then (lo, n) else up
      | true, false => (lo, n)
      | false, true => up
      | false, false => shortest f (k + 1) n X x
      end
  end.

(** [Number::toString] of an integer [X >= 10^21] held by [x]: exponential
    notation. *)
Definition exponential (X : Z) (x : number) : string :=
  let '(s, n) := shortest 17 1 (numDigits X) X x in
  let e := "e+" +:+ decimal (n - 1) in
  match decimal s with
  | String d EmptyString => String d e
  | String d r => String d ("." +:+ r +:+ e)
  | EmptyString => e
  end.

(** [x.toFixed(0)]. *)
Definition toFixed0 (x : number) : string :=
  match x with
  | S754_nan => "NaN"
  | S754_infinity s => if s then "-Infinity" else "Infinity"
  | S754_zero _ => "0"
  | S754_finite s m e =>
      let n := roundHalfUp m e in
      (if s then "-" else "") +:+
      (if 10 ^ 21 <=? n then exponential n (abs x) else decimal n)
  end.

(** *** Dates

    A [Date] is its time value: milliseconds since the epoch, or [None]
    for an invalid date (time value NaN). The process runs in UTC (the
    default of the serverless runtime); any zone without daylight-saving
    shifts gives the same differences between two local midnights. Time
    values are integers below 2^53 in magnitude, on which the Number
    arithmetic of the runtime is exact, so they are held in [Z]. *)

Definition msPerDay : Z := 86400000.

Definition isLeap (y : Z) : bool :=
  (y mod 4 =? 0) && (negb (y mod 100 =? 0) || (y mod 400 =? 0)).

Definition dayFromYear (y : Z) : Z :=
  365 * (y - 1970) + (y - 1969) / 4 - (y - 1901) / 100 + (y - 1601) / 400.

Definition daysBeforeMonth (leap : bool) (mn : Z) : Z :=
  nth (Z.to_nat mn) [0; 31; 59; 90; 120; 151; 181; 212; 243; 273; 304; 334] 0
  + (if leap && (2 <=? mn) then 1 else 0).

(** [MakeDay(year, month, date)]. *)
Definition makeDay (year month date : number) : option Z :=
  match truncate year, truncate month, truncate date with
  | Some y, Some m, Some dt =>
      let ym := y + m / 12 in
      let mn := m mod 12 in
      Some (dayFromYear ym + daysBeforeMonth (isLeap ym) mn + dt - 1)
  | _, _, _ => None
  end.

(** Years 0 to 99 mean 1900 to 1999 in the [Date] constructor. *)
Definition makeFullYear (y : number) : number :=
  match truncate y with
  | Some yi => if (0 <=? yi) && (yi <=? 99) then ofZ (1900 + yi) else y
  | None => y
  end.

Definition timeClip (t : Z) : option Z :=
  if Z.abs t <=? 8640000000000000 then Some t else None.

(** [new Date(year, month, date)]. *)
Definition newDate (year month date : number) : option Z :=
  match makeDay (makeFullYear year) month date with
  | Some day => timeClip (day * msPerDay)
  | None => None
  end.

(** [Math.ceil(n / d)] for integers [n] and [d > 0]. *)
Definition ceilDiv (n d : Z) : Z := - ((- n) / d).

End JS.

(** ** Shapes shared by the modules *)

(** One slot per audited field, in the order the objects are built (which is
    the order [Object.values] and [Object.keys] visit them). *)
Record fields (A : Type) := {
  numeroVale : A;
  placa : A;
  m3 : A;
  fecha : A
}.
Arguments numeroVale {A} f.
Arguments placa {A} f.
Arguments m3 {A} f.
Arguments fecha {A} f.

Definition values {A} (f : fields A) : list A :=
  [numeroVale f; placa f; m3 f; fecha f].

Definition mapFields {A B} (g : A -> B) (f : fields A) : fields B :=
  {| numeroVale := g (numeroVale f); placa := g (placa f);
     m3 := g (m3 f); fecha := g (fecha f) |}.

(** A reference row, as [extract.js] builds it from the table. The table
    connector delivers column values as strings; a missing column is
    [undefined], and [formatAppsheetDate] yields [null] for a missing date. *)
Module Viaje.
Record t := {
  rowId : string;
  numeroVale : JS.value;
  fotoVale : JS.value;
  m3 : JS.value;
  fecha : JS.value;
  placa : JS.value;
  obra : JS.value
}.
End Viaje.

(** ** utils.js *)

Module Utils.
Import JS.

(** An element taken from an array by destructuring or by index:
    [undefined] past the end. *)
Definition element (parts : list string) (i : nat) : value :=
  match nth_error parts i with
  | Some s => VStr s
  | None => VUndefined
  end.

(** From [MM/dd/yyyy] to the [yyyy/MM/dd] under which a day is stored. *)
Definition getDatePath (dateString : string) : string :=
  let parts := split "/" dateString in
  let month := element parts 0 in
  let day := element parts 1 in
  let year := element parts 2 in
  toString year +:+ "/" +:+ toString month +:+ "/" +:+ toString day.

(** The date of a table row, [MM/DD/YYYY] with or without a time of day,
    as [DD/MM/YYYY]; [split] gives at least one piece. *)
Definition formatAppsheetDate (dateStr : value) : value :=
  match dateStr with
  | VStr s =>
      if negb (truthy dateStr) then VNull
      else
        let datePart := hd EmptyString (split " " s) in
        let parts := split "/" datePart in
        let month := element parts 0 in
        let day := element parts 1 in
        let year := element parts 2 in
        if negb (truthy year) || negb (truthy month) || negb (truthy day)
        then VNull
        else VStr (toString day +:+ "/" +:+ toString month +:+ "/"
                   +:+ toString year)
  | _ => VNull
  end.

End Utils.

(** ** extract.js: the rows handed to the audit *)

Module Extract.
Import JS.





End Extract.

(** ** validation.js *)

Module Validation.
Import JS.

Definition quote : string := String (ascii_of_nat 34) EmptyString.

(** What a comparator returns. *)
Record verdict := { coincide : bool; observacion : string }.

(** An entry of [comparaciones]. *)
Record comparison := {
  result : verdict;
  extracted : string;
  expected : value
}.

(** What the oracle reports for one field. *)
Record field := { valor : string; confianza : number }.

Record validation := {
  comparaciones : fields comparison;
  aprobado : bool;
  status : string;
  manualReviewReason : option string
}.

(** [s.split("/").map(Number)] destructured into day, month, year, then
    [new Date(year, month - 1, day)]; a missing component is [undefined],
    which the arithmetic and the constructor read as NaN. *)
Definition parseDate (s : string) : option Z :=
  let parts := map Number (split "/" s) in
  let day := nth 0 parts NaN in
  let month := nth 1 parts NaN in
  let year := nth 2 parts NaN in
  newDate year (sub month (ofZ 1)) day.

(** [Math.ceil(Math.abs(extracted - expected) / (1000 * 60 * 60 * 24))];
    [None] is NaN. *)
Definition diffDays (extracted expected : option Z) : option Z :=
  match extracted, expected with
  | Some a, Some b => Some (ceilDiv (Z.abs (a - b)) (1000 * 60 * 60 * 24))
  | _, _ => None
  end.

Definition showDays (d : option Z) : string :=
  match d with
  | Some n => decimal n
  | None => "NaN"
  end.

(** [d === 0] and [d <= 2] on a day count that may be NaN. *)
Definition isZero (d : option Z) : bool :=
  match d with Some n => n =? 0 | None => false end.
Definition atMost (d : option Z) (k : Z) : bool :=
  match d with Some n => n <=? k | None => false end.

Definition compareDates (extractedDate : string) (expectedDate : value)
  : verdict :=
  if negb (truthy (VStr extractedDate)) || negb (truthy expectedDate) then
    {| coincide := false; observacion := "Fecha vacía o inválida" |}
  else
    match expectedDate with
    | VStr expectedStr =>
        let extracted := parseDate extractedDate in
        let expected := parseDate expectedStr in
        let d := diffDays extracted expected in
        if isZero d then
          {| coincide := true; observacion := "" |}
        else if atMost d 2 then
          {| coincide := true;
             observacion := "Diferencia de " +:+ showDays d
                            +:+ " día(s), dentro de tolerancia" |}
        else
          {| coincide := false;
             observacion := "Diferencia de " +:+ showDays d
               +:+ " días, fuera de tolerancia (máximo 2 días)" |}
    | _ =>
        (* the [catch]: a value that is no string has no [split] *)
        {| coincide := false;
           observacion := "Error al comparar fechas: "
                          +:+ "expectedDate.split is not a function" |}
    end.

Definition comparePlaca (extractedPlaca : string) (expectedPlaca : value)
  : completion verdict :=
  if negb (truthy (VStr extractedPlaca)) then
    Normal {| coincide := false; observacion := "Placa no extraída" |}
  else
    let extracted := toUpperCase (trim extractedPlaca) in
    match expectedPlaca with
    | VStr p =>
        let expected := toUpperCase (trim p) in
        if String.eqb extracted expected then
          Normal {| coincide := true; observacion := "" |}
        else
          Normal {| coincide := false;
                    observacion := "Placa extraída " +:+ quote +:+ extracted
                      +:+ quote +:+ " no coincide con " +:+ quote
                      +:+ expected +:+ quote |}
    | v =>
        Throw (mkError "TypeError"
                 ("Cannot read properties of " +:+ toString v
                  +:+ " (reading 'trim')"))
    end.

Definition CONFIDENCE_THRESHOLD : number :=
  Eval vm_compute in Number "0.7".

Definition percent (c : number) : string :=
  toFixed0 (mul c (ofZ 100)).

Definition isLow (f : field) : bool := lt (confianza f) CONFIDENCE_THRESHOLD.

Definition lowEntry (name : string) (f : field) : list string :=
  if isLow f then [name +:+ " (" +:+ percent (confianza f) +:+ "%)"]
  else [].

Definition lowConfidenceFields (extractionResult : fields field)
  : list string :=
  lowEntry "numeroVale" (numeroVale extractionResult)
  ++ lowEntry "placa" (placa extractionResult)
  ++ lowEntry "m3" (m3 extractionResult)
  ++ lowEntry "fecha" (fecha extractionResult).

(** The literal [0.01] of the quantity comparison. *)
Definition M3_TOLERANCE : number :=
  Eval vm_compute in Number "0.01".

Definition m3Matches (m3Extracted m3Expected : string) : bool :=
  let m3ExtractedNum := parseFloat m3Extracted in
  let m3ExpectedNum := parseFloat m3Expected in
  negb (isNaN m3ExtractedNum) && negb (isNaN m3ExpectedNum)
  && lt (abs (sub m3ExtractedNum m3ExpectedNum))
        M3_TOLERANCE.

Definition validateExtraction (extractionResult : fields field)
    (expectedValues : Viaje.t) (validPlacas : list string)
  : completion validation :=
  let numeroValeExtracted := valor (numeroVale extractionResult) in
  let numeroValeExpected := Viaje.numeroVale expectedValues in
  let cNumeroVale :=
    {| result :=
         {| coincide := strictEqStr numeroValeExtracted numeroValeExpected;
            observacion :=
              if strictEqStr numeroValeExtracted numeroValeExpected then ""
              else "Número extraído " +:+ quote +:+ numeroValeExtracted
                   +:+ quote +:+ " no coincide con " +:+ quote
                   +:+ toString numeroValeExpected +:+ quote |};
       extracted := numeroValeExtracted;
       expected := numeroValeExpected |} in
  bind (comparePlaca (valor (placa extractionResult))
                     (Viaje.placa expectedValues))
    (fun vPlaca =>
  let cPlaca :=
    {| result := vPlaca;
       extracted := valor (placa extractionResult);
       expected := Viaje.placa expectedValues |} in
  let m3Extracted := valor (m3 extractionResult) in
  let m3Expected := toString (Viaje.m3 expectedValues) in
  let m3Match := m3Matches m3Extracted m3Expected in
  let cM3 :=
    {| result :=
         {| coincide := m3Match;
            observacion :=
              if m3Match then ""
              else "Cantidad extraída " +:+ quote +:+ m3Extracted +:+ quote
                   +:+ " no coincide con " +:+ quote +:+ m3Expected
                   +:+ quote |};
       extracted := m3Extracted;
       expected := VStr m3Expected |} in
  let cFecha :=
    {| result := compareDates (valor (fecha extractionResult))
                              (Viaje.fecha expectedValues);
       extracted := valor (fecha extractionResult);
       expected := Viaje.fecha expectedValues |} in
  let comparaciones :=
    {| numeroVale := cNumeroVale; placa := cPlaca;
       m3 := cM3; fecha := cFecha |} in
  let hasEmptyExtraction :=
    negb (truthy (VStr numeroValeExtracted))
    || negb (truthy (VStr (valor (placa extractionResult))))
    || negb (truthy (VStr m3Extracted))
    || negb (truthy (VStr (valor (fecha extractionResult)))) in
  if hasEmptyExtraction then
    Normal {| comparaciones := comparaciones;
              aprobado := false;
              status := "requiere_revision_manual";
              manualReviewReason :=
                Some "Uno o más campos no pudieron ser extraídos" |}
  else
    let low := lowConfidenceFields extractionResult in
    let allMatch :=
      forallb (fun c => coincide (result c)) (values comparaciones) in
    let hasLowConfidence := (0 <? List.length low)%nat in
    if allMatch && negb hasLowConfidence then
      Normal {| comparaciones := comparaciones;
                aprobado := true;
                status := "aprobado";
                manualReviewReason := None |}
    else if allMatch && hasLowConfidence then
      Normal {| comparaciones := comparaciones;
                aprobado := false;
                status := "requiere_revision_manual";
                manualReviewReason :=
                  Some ("Confianza baja en: " +:+ join ", " low) |}
    else if negb allMatch && hasLowConfidence then
      Normal {| comparaciones := comparaciones;
                aprobado := false;
                status := "requiere_revision_manual";
                manualReviewReason :=
                  Some ("Inconsistencias con confianza baja en: "
                        +:+ join ", " low) |}
    else
      Normal {| comparaciones := comparaciones;
                aprobado := false;
                status := "inconsistencias_encontradas";
                manualReviewReason := None |}).

End Validation.

(** ** Documents kept in the blob store *)

(** An entry of [comparaciones] in a stored result: the fixed entry of the
    legibility gate, or one the validator computed. *)
Inductive entry :=
| Illegible
| Compared (c : Validation.comparison).

Definition entryCoincide (e : entry) : bool :=
  match e with
  | Illegible => false
  | Compared c => Validation.coincide (Validation.result c)
  end.

Definition entryObservacion (e : entry) : string :=
  match e with
  | Illegible => "Imagen ilegible - requiere revisión manual"
  | Compared c => Validation.observacion (Validation.result c)
  end.

(** The validator's entries carry no [confianza]: reading it gives
    [undefined]. *)
Definition entryConfianza (e : entry) : option JS.number :=
  match e with
  | Illegible => Some (S754_zero false)
  | Compared _ => None
  end.

Record discrepancy := {
  field : string;
  d_extracted : string;
  d_expected : JS.value;
  confidence : option JS.number;
  reason : string
}.

(** The three objects [auditRecord] builds; a member one of them lacks is
    [None]. *)
Record auditResult := {
  row_id : string;
  timestamp : string;
  aprobado : option bool;
  obra : JS.value;
  image_path : string;
  gemini_extraction : option (fields string);
  appsheet_values : option (fields JS.value);
  comparaciones : option (fields entry);
  discrepancies : list discrepancy;
  status : string;
  qualityScore : option JS.number;
  manualReviewReason : option string;
  error : option string
}.

Record failedRecord := { f_row_id : string; f_error : option string }.

Inductive doc :=
| DIndex (processed_ids : list string) (count : nat) (last_updated : string)
| DAudit (r : auditResult)
| DExtraction (valid_placas : option (list string))
| DFailureSummary (date : string) (stamp : string) (total_failed : nat)
    (failed_records : list failedRecord)
| DOther.
    (* any other object; whether [readJSON] parses it or gives [null] makes
       no difference to the callers, which look for members it lacks *)

(** ** bucket.js *)

Module Bucket.
Import JS.

(** The world the storage calls act on. [bucketOk] says whether
    [getBucket()] yields a bucket or [null]. Each call of the storage
    client consumes the head of [faults]: [true] makes that call reject
    (an empty schedule means no further failure). [now] is the clock. *)
Record world := {
  bucketOk : bool;
  objects : gmap string doc;
  faults : list bool;
  now : string
}.

Definition io (A : Type) : Type := world -> A * world.

Definition ret {A} (a : A) : io A := fun w => (a, w).
Definition seq {A B} (m : io A) (k : A -> io B) : io B :=
  fun w => let '(a, w') := m w in k a w'.

Notation "'let*' x ':=' m 'in' k" := (seq m (fun x => k))
  (at level 10, x pattern, m at level 100, k at level 200).

Definition getBucket : io bool := fun w => (bucketOk w, w).
Definition clock : io string := fun w => (now w, w).

(** One call of the storage client: [None] when it rejects, which the
    wrappers below catch. Calling a method of a [null] bucket throws
    before any request is made. *)
Definition call {A} (f : gmap string doc -> A * gmap string doc)
  : io (option A) :=
  fun w =>
    if negb (bucketOk w) then (None, w)
    else
      match faults w with
      | true :: rest =>
          (None, {| bucketOk := bucketOk w; objects := objects w;
                    faults := rest; now := now w |})
      | _ =>
          let '(a, objs) := f (objects w) in
          (Some a, {| bucketOk := bucketOk w; objects := objs;
                      faults := tail (faults w); now := now w |})
      end.

Definition fileExists (filePath : string) : io bool :=
  let* r := call (fun objs => (bool_decide (is_Some (objs !! filePath)), objs)) in
  ret (default false r).

(** [null] on any failure, a missing object included. *)
Definition readJSON (filePath : string) : io (option doc) :=
  let* r := call (fun objs => (objs !! filePath, objs)) in
  ret (mjoin r).

Definition writeJSON (filePath : string) (data : doc) : io bool :=
  let* r := call (fun objs => (true, <[filePath := data]> objs)) in
  ret (default false r).

(** Object names under a prefix, in the lexicographic order of the
    listing. *)
Definition namesUnder (prefix : string) (objs : gmap string doc)
  : list string :=
  merge_sort String.le
    (filter (fun n => String.prefix prefix n = true) (elements (dom objs))).

Definition listFiles (prefix : string) : io (list string) :=
  let* r := call (fun objs => (namesUnder prefix objs, objs)) in
  ret (default [] r).

(** *** [path.basename(name, ext)] *)

Fixpoint dropTrailingSlashes (s : string) : string :=
  match s with
  | EmptyString => EmptyString
  | String c r =>
      match dropTrailingSlashes r with
      | EmptyString => if Ascii.eqb c "/" then EmptyString
                       else String c EmptyString
      | r' => String c r'
      end
  end.

Fixpoint takeChars (n : nat) (s : string) : string :=
  match n, s with
  | S k, String c r => String c (takeChars k r)
  | _, _ => EmptyString
  end.

Definition basename (path ext : string) : string :=
  if String.eqb path ext then EmptyString
  else
    let base := List.last (split "/" (dropTrailingSlashes path)) EmptyString in
    if endsWith base ext && negb (String.eqb base ext) then
      takeChars (String.length base - String.length ext) base
    else base.

(** *** The ledger *)

Definition indexPath (datePath : string) : string :=
  "audits/" +:+ datePath +:+ "/index.json".

Definition processedPrefix (datePath : string) : string :=
  "audits/" +:+ datePath +:+ "/processed/".

Definition updateProcessedIndex (datePath : string)
    (processedIds : list string) : io bool :=
  let* t := clock in
  let* _ := writeJSON (indexPath datePath)
              (DIndex processedIds (List.length processedIds) t) in
  ret true.

(** [index.processed_ids], when the document read has that member. *)
Definition processedIdsOf (index : option doc) : option (list string) :=
  match index with
  | Some (DIndex ids _ _) => Some ids
  | _ => None
  end.

Definition includes (ids : list string) (id : string) : bool :=
  existsb (String.eqb id) ids.

Definition rebuildFromListing (datePath : string) : io (list string) :=
  let* fileNames := listFiles (processedPrefix datePath) in
  let processedIds := map (fun name => basename name ".json") fileNames in
  let* _ := if (0 <? List.length processedIds)%nat
            then updateProcessedIndex datePath processedIds
            else ret true in
  ret processedIds.

Definition getProcessedRowIds (datePath : string) : io (list string) :=
  let* present := fileExists (indexPath datePath) in
  if present then
    let* index := readJSON (indexPath datePath) in
    match processedIdsOf index with
    | Some ids => ret ids
    | None => rebuildFromListing datePath
    end
  else rebuildFromListing datePath.

Definition addToProcessedIndex (datePath rowId : string) : io bool :=
  let* present := fileExists (indexPath datePath) in
  let* processedIds :=
    if present then
      let* index := readJSON (indexPath datePath) in
      ret (default [] (processedIdsOf index))
    else ret [] in
  if negb (includes processedIds rowId) then
    let* _ := updateProcessedIndex datePath (processedIds ++ [rowId]) in
    ret true
  else ret true.

Definition getValidPlacas (datePath : string) : io (list string) :=
  let extractionPath := "extractions/" +:+ datePath +:+ "/appsheet_data.json" in
  let* present := fileExists extractionPath in
  if present then
    let* extraction := readJSON extractionPath in
    match extraction with
    | Some (DExtraction (Some placas)) => ret placas
    | _ => ret []
    end
  else ret [].

End Bucket.

(** ** gemini.js: the retry-wrapped oracle caller *)

Module Gemini.
Import JS.

(** What the outside world does during one call of [auditWithGemini]. *)

Inductive qualityOutcome :=
| QualityFails
    (* the gate call, or reading its reply, throws: caught and ignored *)
| QualityReport (qualityScore : number) (isReadable : bool) (reason : string).

Inductive response :=
| Rejects (e : error)            (* [generateContent] or [text()] throws *)
| Malformed (parseMessage : string)
    (* [JSON.parse] throws a SyntaxError with this message *)
| Extraction (x : fields Validation.field).

Record oracle := {
  imageError : option error;
    (* what [readFileSync] throws when the download left no file *)
  quality : qualityOutcome;
  respond : nat -> response      (* the reply to the call of each attempt *)
}.

Inductive geminiResult :=
| RequiresManualReview (qualityScore : number) (reason : string)
| Audit (extracciones : fields string) (confianzas : fields number)
    (v : Validation.validation) (qualityScore : option number).

Inductive event :=
| Download
| CheckQuality
| Generate
| Sleep (ms : Z)
| Cleanup.

(** A call returns, or throws a value: an error object, or [undefined]
    ([None]) when [lastError] was never assigned. *)
Inductive outcome :=
| Returned (r : geminiResult)
| Threw (e : option error).

Definition isRetriable (e : error) : bool :=
  match status e with
  | Some s => (s =? 429) || ((500 <=? s) && (s <? 600))
  | None => false
  end.

Definition retryInfoType : string :=
  "type.googleapis.com/google.rpc.RetryInfo".

(** The pattern [(\d+)s] tried at the start of [s]. *)
Definition matchAt (s : string) : option (list Z) :=
  let '(ds, rest) := takeDigits s in
  match ds, rest with
  | _ :: _, String "s" _ => Some ds
  | _, _ => None
  end.

(** [s.match(/(\d+)s/)]: the captured digits of the leftmost match. *)
Fixpoint matchSeconds (s : string) : option (list Z) :=
  match matchAt s with
  | Some ds => Some ds
  | None =>
      match s with
      | String _ r => matchSeconds r
      | EmptyString => None
      end
  end.

(** The delay taken from the error, when the code finds one. *)
Definition suggestedDelay (e : error) : option Z :=
  match status e, errorDetails e with
  | Some 429, Some details =>
      match find (fun d => String.eqb (atType d) retryInfoType) details with
      | Some retryInfo =>
          match retryDelay retryInfo with
          | Some delay =>
              if truthy (VStr delay) then
                match matchSeconds delay with
                | Some digits => Some (digitsValue 10 digits * 1000)
                | None => None
                end
              else None
          | None => None
          end
      | None => None
      end
  | _, _ => None
  end.

Definition baseDelay : Z := 1000.

(** How the [try] block of one iteration ends. *)
Inductive step :=
| Return (r : geminiResult)
| Continue (lastError : error) (delay : Z)
| Raise (e : error).

Definition attemptBody (o : oracle) (record : Viaje.t)
    (validPlacas : list string) (maxRetries attempt : nat)
  : list event * step :=
  let first := (attempt =? 0)%nat in
  let fetched := if first then [Download] else [] in
  match imageError o with
  | Some e => (fetched, Raise e)
  | None =>
      let gate :=
        if first then
          match quality o with
          | QualityReport score readable reason => Some (score, readable, reason)
          | QualityFails => None
          end
        else None in
      let checked := (fetched ++ (if first then [CheckQuality] else []))%list in
      match gate with
      | Some (score, false, reason) =>
          ((checked ++ [Cleanup])%list, Return (RequiresManualReview score reason))
      | _ =>
          let qualityScore := option_map (fun g => fst (fst g)) gate in
          let called := (checked ++ [Generate])%list in
          match respond o attempt with
          | Rejects e => (called, Raise e)
          | Malformed parseMessage =>
              let parseError := mkError "SyntaxError" parseMessage in
              if Z.of_nat attempt <? Z.of_nat maxRetries - 1 then
                (called,
                 Continue
                   (mkError "Error"
                      ("JSON parse error: " +:+ message parseError))
                   (baseDelay * 2 ^ Z.of_nat attempt))
              else (called, Raise parseError)
          | Extraction extractionResult =>
              match Validation.validateExtraction extractionResult record
                      validPlacas with
              | Throw e => (called, Raise e)
              | Normal v =>
                  ((called ++ [Cleanup])%list,
                   Return
                     (Audit (mapFields Validation.valor extractionResult)
                        (mapFields Validation.confianza extractionResult)
                        v qualityScore))
              end
          end
      end
  end.

(** The [for] loop from iteration [attempt] on, [remaining] iterations
    being left ([remaining = maxRetries - attempt]). *)
Fixpoint attempts (o : oracle) (record : Viaje.t) (validPlacas : list string)
    (maxRetries remaining attempt : nat) (lastError : option error)
  : list event * outcome :=
  match remaining with
  | O => ([Cleanup], Threw lastError)
  | S rest =>
      let '(evs, st) := attemptBody o record validPlacas maxRetries attempt in
      match st with
      | Return r => (evs, Returned r)
      | Continue err delay =>
          let '(evs', out) :=
            attempts o record validPlacas maxRetries rest (S attempt)
              (Some err) in
          ((evs ++ Sleep delay :: evs')%list, out)
      | Raise e =>
          if negb (isRetriable e)
             || (Z.of_nat attempt =? Z.of_nat maxRetries - 1) then
            ((evs ++ [Cleanup])%list, Threw (Some e))
          else
            let delay := baseDelay * 2 ^ Z.of_nat attempt in
            let actualDelay := default delay (suggestedDelay e) in
            let '(evs', out) :=
              attempts o record validPlacas maxRetries rest (S attempt)
                (Some e) in
            ((evs ++ Sleep actualDelay :: evs')%list, out)
      end
  end.

(** [maxRetries] is [parseInt(process.env.GEMINI_MAX_RETRIES || "4")]; a
    value that is NaN or below one leaves the loop without an iteration,
    which is the case [0] here. *)
Definition auditWithGemini (bucketOk : bool) (o : oracle) (record : Viaje.t)
    (imagePathInBucket : string) (validPlacas : list string)
    (maxRetries : nat) : list event * outcome :=
  if negb bucketOk then
    ([], Threw (Some (mkError "Error" "Bucket not available")))
  else attempts o record validPlacas maxRetries maxRetries 0 None.

Definition sleeps (evs : list event) : list Z :=
  flat_map (fun ev => match ev with Sleep ms => [ms] | _ => [] end) evs.

Definition calls (evs : list event) : nat :=
  List.length (List.filter
    (fun ev => match ev with Generate => true | _ => false end) evs).

(** *** Cleaning a reply before [JSON.parse] *)

Definition lineFeed : ascii := ascii_of_nat 10.

(** [s.replace(/<pat>\n?/g, the empty string)] for a literal [pat] that is not empty.
    [pending] is [None] while scanning and [Some n] inside a match with [n]
    characters still to drop; when none is left, a line feed that follows
    goes as well. *)
Fixpoint removeAll (pat : string) (pending : option nat) (s : string)
  : string :=
  match s with
  | EmptyString => EmptyString
  | String c r =>
      let scanned :=
        if String.prefix pat s
        then removeAll pat (Some (Nat.pred (String.length pat))) r
        else String c (removeAll pat None r) in
      match pending with
      | Some (S n) => removeAll pat (Some n) r
      | Some O => if Ascii.eqb c lineFeed then removeAll pat None r
                  else scanned
      | None => scanned
      end
  end.

Definition fence : string := "```".
Definition jsonFence : string := "```json".

(** The text handed to [JSON.parse], by [checkImageQuality] and by the
    extraction call alike: the reply without the code fence a model may
    wrap it in. *)
Definition cleanedText (text : string) : string :=
  let trimmed := trim text in
  if String.prefix jsonFence trimmed then
    removeAll fence None (removeAll jsonFence None trimmed)
  else if String.prefix fence trimmed then removeAll fence None trimmed
  else trimmed.

End Gemini.

(** ** audit.js: the orchestrator *)

Module Audit.
Import Bucket Gemini.

(** [v || null]. *)
Definition orNull (v : JS.value) : JS.value := if JS.truthy v then v else JS.VNull.

Definition getUnprocessedRecords (records : list Viaje.t) (datePath : string)
  : io (list Viaje.t) :=
  let* bucket := getBucket in
  if negb bucket then ret records
  else
    let* processedIds := getProcessedRowIds datePath in
    ret (List.filter
           (fun record => negb (includes processedIds (Viaje.rowId record)))
           records).

Definition appsheetValues (record : Viaje.t) : fields JS.value :=
  {| numeroVale := orNull (Viaje.numeroVale record);
     placa := orNull (Viaje.placa record);
     m3 := orNull (Viaje.m3 record);
     fecha := orNull (Viaje.fecha record) |}.

Definition illegibleExtraction : fields string :=
  {| numeroVale := EmptyString; placa := EmptyString;
     m3 := EmptyString; fecha := EmptyString |}.

Definition illegibleComparisons : fields entry :=
  {| numeroVale := Illegible; placa := Illegible;
     m3 := Illegible; fecha := Illegible |}.

Definition comparedEntries (c : fields Validation.comparison) : fields entry :=
  mapFields Compared c.

(** The [forEach] over [Object.keys(comparaciones)]. *)
Definition discrepanciesOf (comparaciones : fields entry)
    (extracciones : fields string) (record : Viaje.t) : list discrepancy :=
  let one (name : string) (comparison : entry) (extracted : string)
          (expected : JS.value) : list discrepancy :=
    if negb (entryCoincide comparison) then
      [{| field := name; d_extracted := extracted; d_expected := expected;
          confidence := entryConfianza comparison;
          reason := entryObservacion comparison |}]
    else [] in
  (one "numeroVale" (numeroVale comparaciones) (numeroVale extracciones)
     (Viaje.numeroVale record)
   ++ one "placa" (placa comparaciones) (placa extracciones)
        (Viaje.placa record)
   ++ one "m3" (m3 comparaciones) (m3 extracciones) (Viaje.m3 record)
   ++ one "fecha" (fecha comparaciones) (fecha extracciones)
        (Viaje.fecha record))%list.

Definition manualReviewPath (datePath rowId : string) : string :=
  "audits/" +:+ datePath +:+ "/manual_review/" +:+ rowId +:+ ".json".
Definition processedPath (datePath rowId : string) : string :=
  "audits/" +:+ datePath +:+ "/processed/" +:+ rowId +:+ ".json".
Definition failedPath (datePath rowId : string) : string :=
  "audits/" +:+ datePath +:+ "/failed/" +:+ rowId +:+ ".json".

(** Save a result and put the row in the index; nothing happens without a
    bucket. The outcome of neither call is looked at. *)
Definition saveAndIndex (auditPath datePath rowId : string)
    (r : auditResult) : io unit :=
  let* bucket := getBucket in
  if bucket then
    let* _ := writeJSON auditPath (DAudit r) in
    let* _ := addToProcessedIndex datePath rowId in
    ret tt
  else ret tt.

(** The object built when the legibility gate stops the record. *)
Definition manualReviewResult (record : Viaje.t) (imagePath now : string)
    (score : JS.number) (why : string) : auditResult :=
  {| row_id := Viaje.rowId record;
     timestamp := now;
     aprobado := Some false;
     obra := orNull (Viaje.obra record);
     image_path := imagePath;
     gemini_extraction := Some illegibleExtraction;
     appsheet_values := Some (appsheetValues record);
     comparaciones := Some illegibleComparisons;
     discrepancies := [];
     status := "requiere_revision_manual";
     qualityScore := Some score;
     manualReviewReason := Some why;
     error := None |}.

(** The object built from a validated extraction. *)
Definition validatedResult (record : Viaje.t) (imagePath now : string)
    (extracciones : fields string) (v : Validation.validation) : auditResult :=
  let comparaciones := comparedEntries (Validation.comparaciones v) in
  {| row_id := Viaje.rowId record;
     timestamp := now;
     aprobado := Some (Validation.aprobado v);
     obra := orNull (Viaje.obra record);
     image_path := imagePath;
     gemini_extraction := Some extracciones;
     appsheet_values := Some (appsheetValues record);
     comparaciones := Some comparaciones;
     discrepancies := discrepanciesOf comparaciones extracciones record;
     status :=
       if JS.truthy (JS.VStr (Validation.status v)) then Validation.status v
       else if Validation.aprobado v then "aprobado"
            else "inconsistencias_encontradas";
     qualityScore := None;
     manualReviewReason :=
       match Validation.manualReviewReason v with
       | Some why => if JS.truthy (JS.VStr why) then Some why else None
       | None => None
       end;
     error := None |}.

(** The object built in the [catch] clause. *)
Definition errorResult (record : Viaje.t) (imagePath now : string)
    (err : JS.error) : auditResult :=
  {| row_id := Viaje.rowId record;
     timestamp := now;
     aprobado := None;
     obra := orNull (Viaje.obra record);
     image_path := imagePath;
     gemini_extraction := None;
     appsheet_values := None;
     comparaciones := None;
     discrepancies := [];
     status := "error";
     qualityScore := None;
     manualReviewReason := None;
     error := Some (JS.message err) |}.

Definition auditRecord (o : oracle) (maxRetries : nat) (record : Viaje.t)
    (imagePath datePath : string) (validPlacas : list string)
  : io (JS.completion auditResult) :=
  let rowId := Viaje.rowId record in
  let* available := getBucket in
  match snd (auditWithGemini available o record imagePath validPlacas
               maxRetries) with
  | Returned (RequiresManualReview score why) =>
      let* t := clock in
      let result := manualReviewResult record imagePath t score why in
      let* _ := saveAndIndex (manualReviewPath datePath rowId) datePath rowId
                  result in
      ret (JS.Normal result)
  | Returned (Audit extracciones confianzas v _) =>
      let* t := clock in
      let result := validatedResult record imagePath t extracciones v in
      let* _ := saveAndIndex (processedPath datePath rowId) datePath rowId
                  result in
      ret (JS.Normal result)
  | Threw (Some err) =>
      let* t := clock in
      let result := errorResult record imagePath t err in
      let* bucket := getBucket in
      let* _ := if bucket
                then writeJSON (failedPath datePath rowId) (DAudit result)
                else ret false in
      ret (JS.Normal result)
  | Threw None =>
      (* [error.message] on [undefined], inside the [catch]: not caught *)
      ret (JS.Throw
             (JS.mkError "TypeError"
                "Cannot read properties of undefined (reading 'message')"))
  end.

(** [images/<datePath>/<last segment of fotoVale>]. *)
Definition imagePathOf (datePath : string) (record : Viaje.t) : string :=
  "images/" +:+ datePath +:+ "/" +:+
  match Viaje.fotoVale record with
  | JS.VStr s => List.last (JS.split "/" s) EmptyString
  | _ => "undefined"
  end.

(** The [for ... of] loop over the unprocessed rows; a throw from
    [auditRecord] leaves the loop. *)
Fixpoint auditEach (oracleOf : Viaje.t -> oracle) (maxRetries : nat)
    (datePath : string) (validPlacas : list string)
    (unprocessed : list Viaje.t) (results : list auditResult)
  : io (JS.completion (list auditResult)) :=
  match unprocessed with
  | [] => ret (JS.Normal results)
  | record :: rest =>
      let* result := auditRecord (oracleOf record) maxRetries record
                       (imagePathOf datePath record) datePath validPlacas in
      match result with
      | JS.Normal r =>
          auditEach oracleOf maxRetries datePath validPlacas rest
            (results ++ [r])%list
      | JS.Throw e => ret (JS.Throw e)
      end
  end.

Definition isError (r : auditResult) : bool := String.eqb (status r) "error".

Definition auditAllRecords (oracleOf : Viaje.t -> oracle) (maxRetries : nat)
    (records : list Viaje.t) (datePath : string)
  : io (JS.completion (list auditResult)) :=
  let* unprocessed := getUnprocessedRecords records datePath in
  match unprocessed with
  | [] => ret (JS.Normal [])
  | _ =>
      let* bucket := getBucket in
      let* validPlacas := if bucket then getValidPlacas datePath else ret [] in
      let* done := auditEach oracleOf maxRetries datePath validPlacas
                     unprocessed [] in
      match done with
      | JS.Throw e => ret (JS.Throw e)
      | JS.Normal results =>
          let failed := List.filter isError results in
          let* bucket' := getBucket in
          if (0 <? List.length failed)%nat && bucket' then
            let* t := clock in
            let* _ := writeJSON ("audits/" +:+ datePath +:+ "/failure_summary.json")
                        (DFailureSummary datePath t (List.length failed)
                           (map (fun f => {| f_row_id := row_id f;
                                             f_error := error f |}) failed)) in
            ret (JS.Normal results)
          else ret (JS.Normal results)
      end
  end.

(** *** Reporting *)

Definition failedPrefix (datePath : string) : string :=
  "audits/" +:+ datePath +:+ "/failed/".

Definition manualReviewPrefix (datePath : string) : string :=
  "audits/" +:+ datePath +:+ "/manual_review/".

(** The loop over [allFiles]: a read that gives [null] adds nothing. *)
Fixpoint readEach (allFiles : list string) (allResults : list doc)
  : io (list doc) :=
  match allFiles with
  | [] => ret allResults
  | filePath :: rest =>
      let* result := readJSON filePath in
      readEach rest
        (match result with
         | Some r => (allResults ++ [r])%list
         | None => allResults
         end)
  end.

Definition getAllAuditResults (datePath : string) : io (list doc) :=
  let* bucket := getBucket in
  if negb bucket then ret []
  else
    let* processedFiles := listFiles (processedPrefix datePath) in
    let* failedFiles := listFiles (failedPrefix datePath) in
    let* manualReviewFiles := listFiles (manualReviewPrefix datePath) in
    readEach (processedFiles ++ failedFiles ++ manualReviewFiles)%list [].

End Audit.

(** * Properties *)

(** ** The field validator *)

Section ValidatorFacts.
Import JS Validation.

Definition nonEmpty (e : fields field) : Prop :=
  valor (numeroVale e) <> EmptyString /\ valor (placa e) <> EmptyString
  /\ valor (m3 e) <> EmptyString /\ valor (fecha e) <> EmptyString.

Definition someEmpty (e : fields field) : Prop :=
  valor (numeroVale e) = EmptyString \/ valor (placa e) = EmptyString
  \/ valor (m3 e) = EmptyString \/ valor (fecha e) = EmptyString.

Definition hasEmpty (e : fields field) : bool :=
  existsb (fun f => String.eqb (valor f) EmptyString) (values e).

(** The outcome of the four comparators on an extraction and a row. *)
Definition fieldMatches (e : fields field) (r : Viaje.t) : fields bool :=
  {| numeroVale := strictEqStr (valor (numeroVale e)) (Viaje.numeroVale r);
     placa := match comparePlaca (valor (placa e)) (Viaje.placa r) with
              | Normal v => coincide v
              | Throw _ => false
              end;
     m3 := m3Matches (valor (m3 e)) (toString (Viaje.m3 r));
     fecha := coincide (compareDates (valor (fecha e)) (Viaje.fecha r)) |}.

Definition allMatch (e : fields field) (r : Viaje.t) : bool :=
  forallb id (values (fieldMatches e r)).

(** Some field, matching or not, was read with a confidence below the
    threshold. *)
Definition anyLow (e : fields field) : bool := existsb isLow (values e).

(** Some field that does not match was read with a confidence below the
    threshold. *)
Definition mismatchedLow (e : fields field) (r : Viaje.t) : bool :=
  existsb (fun mf => negb (fst mf) && isLow (snd mf))
    (combine (values (fieldMatches e r)) (values e)).


Lemma truthy_VStr (s : string) : truthy (VStr s) = negb (String.eqb s EmptyString).
Proof. reflexivity. Qed.

Lemma hasEmpty_someEmpty (e : fields field) : hasEmpty e = true <-> someEmpty e.
Proof.
  unfold hasEmpty, someEmpty, values. cbn [existsb].
  rewrite !orb_true_iff, !String.eqb_eq. intuition discriminate.
Qed.

Lemma hasEmpty_nonEmpty (e : fields field) : hasEmpty e = false <-> nonEmpty e.
Proof.
  unfold hasEmpty, nonEmpty, values. cbn [existsb].
  rewrite !orb_false_iff, !String.eqb_neq. intuition.
Qed.

Lemma comparePlaca_string (x p : string) :
  comparePlaca x (VStr p)
  = Normal (if String.eqb x EmptyString then
              {| coincide := false; observacion := "Placa no extraída" |}
            else if String.eqb (toUpperCase (trim x)) (toUpperCase (trim p)) then
              {| coincide := true; observacion := EmptyString |}
            else
              {| coincide := false;
                 observacion := "Placa extraída " +:+ quote
                   +:+ toUpperCase (trim x) +:+ quote +:+ " no coincide con "
                   +:+ quote +:+ toUpperCase (trim p) +:+ quote |}).
Proof.
  unfold comparePlaca. rewrite truthy_VStr, negb_involutive.
  destruct (String.eqb x EmptyString); [reflexivity |].
  destruct (String.eqb _ _); reflexivity.
Qed.

Lemma comparePlaca_returns (x : string) (ref : value) :
  x = EmptyString \/ (exists p, ref = VStr p) ->
  exists v, comparePlaca x ref = Normal v.
Proof.
  intros [-> | [p ->]]; [eexists; reflexivity |].
  rewrite comparePlaca_string. eauto.
Qed.

Lemma hasLow_anyLow (e : fields field) :
  (0 <? List.length (lowConfidenceFields e))%nat = anyLow e.
Proof.
  unfold lowConfidenceFields, lowEntry, anyLow, values. cbn [existsb].
  destruct (isLow (numeroVale e)), (isLow (placa e)), (isLow (m3 e)),
    (isLow (fecha e)); reflexivity.
Qed.

(** The decision table of [validateExtraction], once the plate comparator
    has returned. *)
Lemma validateExtraction_table (e : fields field) (r : Viaje.t)
    (validPlacas : list string) (v0 : verdict) :
  comparePlaca (valor (placa e)) (Viaje.placa r) = Normal v0 ->
  exists v,
    validateExtraction e r validPlacas = Normal v
    /\ map (fun c => coincide (result c)) (values (comparaciones v))
       = values (fieldMatches e r)
    /\ (status v, aprobado v, manualReviewReason v)
       = if hasEmpty e then
           ("requiere_revision_manual", false,
            Some "Uno o más campos no pudieron ser extraídos")
         else if allMatch e r && negb (anyLow e) then
           ("aprobado", true, None)
         else if allMatch e r then
           ("requiere_revision_manual", false,
            Some ("Confianza baja en: " +:+ join ", " (lowConfidenceFields e)))
         else if anyLow e then
           ("requiere_revision_manual", false,
            Some ("Inconsistencias con confianza baja en: "
                  +:+ join ", " (lowConfidenceFields e)))
         else ("inconsistencias_encontradas", false, None).
Proof.
  intros Hp. unfold validateExtraction, allMatch, fieldMatches, hasEmpty.
  rewrite Hp. cbn [bind values forallb existsb numeroVale placa m3 fecha
                   result coincide id].
  rewrite !truthy_VStr, !negb_involutive, hasLow_anyLow, !orb_false_r,
    !andb_true_r, <- !orb_assoc.
  destruct (_ || _); [eexists; repeat split |].
  set (am := strictEqStr _ _ && (coincide v0 && _)).
  destruct am, (anyLow e); cbn [negb andb];
    eexists; repeat split.
Qed.

Lemma mismatchedLow_anyLow (e : fields field) (r : Viaje.t) :
  mismatchedLow e r = true -> anyLow e = true.
Proof.
  unfold mismatchedLow, anyLow, values.
  cbn [combine existsb fst snd numeroVale placa m3 fecha fieldMatches].
  destruct (isLow (numeroVale e)), (isLow (placa e)), (isLow (m3 e)),
    (isLow (fecha e)); rewrite ?andb_false_r, ?orb_true_r; cbn;
    auto.
Qed.




(** *** Sample inputs *)

Definition read (v c : string) : field :=
  {| valor := v; confianza := Number c |}.

Definition sampleRow : Viaje.t :=
  {| Viaje.rowId := "a1b2c3d4";
     Viaje.numeroVale := VStr "24697";
     Viaje.fotoVale := VStr "viaje_Images/a1b2c3d4.foto_vale.jpg";
     Viaje.m3 := VStr "16";
     Viaje.fecha := VStr "10/12/2025";
     Viaje.placa := VStr "TTT840";
     Viaje.obra := VStr "Obra Norte" |}.

(** Everything matches and is read with confidence. *)
Definition sampleClear : fields field :=
  {| numeroVale := read "24697" "1.0"; placa := read "TTT840" "0.9";
     m3 := read "16.00" "0.9"; fecha := read "12/12/2025" "0.95" |}.


(** The number differs and is read with confidence; the plate matches and
    is read with confidence 0.5. *)
Definition sampleWrongNumber : fields field :=
  {| numeroVale := read "24691" "0.95"; placa := read "TTT840" "0.5";
     m3 := read "16" "0.9"; fecha := read "10/12/2025" "0.95" |}.

(** The number differs; every field is read with confidence. *)
Definition sampleConfidentMismatch : fields field :=
  {| numeroVale := read "24691" "0.95"; placa := read "TTT840" "0.9";
     m3 := read "16" "0.9"; fecha := read "10/12/2025" "0.95" |}.

(** The date could not be read; the other fields match. *)
Definition sampleNoDate : fields field :=
  {| numeroVale := read "24697" "1.0"; placa := read "TTT840" "0.9";
     m3 := read "16" "0.9"; fecha := read EmptyString "0.0" |}.

(** The number could not be read; the other fields match. *)
Definition sampleNoNumber : fields field :=
  {| numeroVale := read EmptyString "0.0"; placa := read "TTT840" "0.9";
     m3 := read "16" "0.9"; fecha := read "10/12/2025" "0.95" |}.

(** A reference row that carries no plate. *)
Definition sampleRowWithoutPlate : Viaje.t :=
  {| Viaje.rowId := "a1b2c3d4";
     Viaje.numeroVale := VStr "24697";
     Viaje.fotoVale := VStr "viaje_Images/a1b2c3d4.foto_vale.jpg";
     Viaje.m3 := VStr "16";
     Viaje.fecha := VStr "10/12/2025";
     Viaje.placa := VUndefined;
     Viaje.obra := VStr "Obra Norte" |}.

(** *** The built-ins and the comparators on sample values *)

Example number_of_strings :
  Number "12" = ofZ 12 /\ Number " 7 " = ofZ 7
  /\ Number EmptyString = S754_zero false
  /\ isNaN (Number "abc") = true /\ isNaN (Number "12a") = true.
Proof. vm_compute. repeat split. Qed.

Example threshold_is_the_nearest_double :
  CONFIDENCE_THRESHOLD = S754_finite false 6305039478318694 (-53).
Proof. reflexivity. Qed.

Example quantity_rule :
  m3Matches "16.00" "16" = true /\ m3Matches "15" "16" = false
  /\ m3Matches "dieciséis" "16" = false.
Proof. vm_compute. repeat split. Qed.

Example percentages :
  percent (Number "0.5") = "50" /\ percent (Number "0.65") = "65"
  /\ percent (Number "0.695") = "70" /\ percent (Number "0") = "0".
Proof. vm_compute. repeat split. Qed.

Example plate_rule :
  comparePlaca " ttt840 " (VStr "TTT840")
  = Normal {| coincide := true; observacion := EmptyString |}.
Proof. vm_compute. reflexivity. Qed.

(** The components of a date are read leniently, as [Number] and [Date] do:
    a missing day is day 0, the last day of the month before, and a day
    past the end of a month runs into the next. *)
Example lenient_dates :
  parseDate "/12/2025" = parseDate "30/11/2025"
  /\ parseDate "31/11/2025" = parseDate "01/12/2025"
  /\ parseDate "diciembre" = None /\ parseDate "10-12-2025" = None.
Proof. vm_compute. repeat split. Qed.

(** *** The claims as the specification words them *)

(** Steps 5 and 6 of the decision policy, with low confidence looked for
    on the mismatched fields only. *)
Definition mismatch_policy_as_stated : Prop :=
  forall (e : fields field) (r : Viaje.t) (validPlacas : list string)
         (p : string),
    Viaje.placa r = VStr p ->
    nonEmpty e ->
    allMatch e r = false ->
    (mismatchedLow e r = true ->
     exists v, validateExtraction e r validPlacas = Normal v
               /\ status v = "requiere_revision_manual"
               /\ aprobado v = false)
    /\ (mismatchedLow e r = false ->
        exists v, validateExtraction e r validPlacas = Normal v
                  /\ status v = "inconsistencias_encontradas"
                  /\ aprobado v = false
                  /\ manualReviewReason v = None).

(** Step 1 of the decision policy, for every extraction and whatever the
    reference row is. *)
Definition empty_rule_as_stated : Prop :=
  forall (e : fields field) (r : Viaje.t) (validPlacas : list string),
    someEmpty e ->
    exists v, validateExtraction e r validPlacas = Normal v
              /\ status v = "requiere_revision_manual"
              /\ aprobado v = false
              /\ manualReviewReason v
                 = Some "Uno o más campos no pudieron ser extraídos".

(** The plate comparison on a string reference: never throws and returns
    the equality of the trimmed, upper-cased sides. *)
Definition plate_rule_as_stated : Prop :=
  forall (x p : string),
    exists v, comparePlaca x (VStr p) = Normal v
              /\ coincide v
                 = String.eqb (toUpperCase (trim x)) (toUpperCase (trim p)).

End ValidatorFacts.

(** C1, as stated, fails: a confident mismatch on the number together with
    a matching plate read at confidence 0.5 has no mismatched field below
    the threshold, yet the status is [requiere_revision_manual]. *)
Lemma mismatch_policy_counterexample : ~ mismatch_policy_as_stated.
Proof.
  intros H.
  destruct (H sampleWrongNumber sampleRow [] "TTT840" eq_refl) as [_ H2].
  - repeat split; discriminate.
  - vm_compute. reflexivity.
  - destruct H2 as (v & Hv & Hs & _); [vm_compute; reflexivity |].
    vm_compute in Hv. injection Hv as <-. discriminate Hs.
Qed.

(** C1, amended. For an extraction whose four values are non-empty and
    whose comparisons do not all match (the reference plate being a
    string): if any field, matching or not, has a confidence below 0.7 the
    status is [requiere_revision_manual] with approval false and a reason
    listing the low-confidence fields; if no field has a confidence below
    0.7 the status is [inconsistencias_encontradas] with approval false and
    no reason. A mismatched field with low confidence is one case of the
    former. *)
Theorem validateExtraction_mismatch
    (e : fields Validation.field) (r : Viaje.t) (validPlacas : list string)
    (p : string) :
  Viaje.placa r = JS.VStr p ->
  nonEmpty e ->
  allMatch e r = false ->
  (anyLow e = true ->
   exists v,
     Validation.validateExtraction e r validPlacas = JS.Normal v
     /\ Validation.status v = "requiere_revision_manual"
     /\ Validation.aprobado v = false
     /\ Validation.manualReviewReason v
        = Some ("Inconsistencias con confianza baja en: "
                +:+ JS.join ", " (Validation.lowConfidenceFields e)))
  /\ (anyLow e = false ->
      exists v,
        Validation.validateExtraction e r validPlacas = JS.Normal v
        /\ Validation.status v = "inconsistencias_encontradas"
        /\ Validation.aprobado v = false
        /\ Validation.manualReviewReason v = None)
  /\ (mismatchedLow e r = true -> anyLow e = true).
Proof.
  intros Hp Hne Hm.
  destruct (validateExtraction_table e r validPlacas _
              (eq_trans (f_equal _ Hp) (comparePlaca_string _ p)))
    as (v & Hv & _ & Ht).
  apply hasEmpty_nonEmpty in Hne. rewrite Hne, Hm in Ht. cbn [andb] in Ht.
  split; [| split; [| apply mismatchedLow_anyLow]];
    intros Hl; rewrite Hl in Ht; exists v; injection Ht as Hs Ha Hr;
    repeat split; assumption.
Qed.

Lemma validateExtraction_mismatch_witness :
  exists v,
    Validation.validateExtraction sampleConfidentMismatch sampleRow []
    = JS.Normal v
    /\ Validation.status v = "inconsistencias_encontradas"
    /\ Validation.aprobado v = false
    /\ Validation.manualReviewReason v = None.
Proof.
  refine (proj1 (proj2 (validateExtraction_mismatch sampleConfidentMismatch
                          sampleRow [] "TTT840" eq_refl _ _)) _).
  - repeat split; discriminate.
  - vm_compute. reflexivity.
  - vm_compute. reflexivity.
Defined.

(** C2, as stated, fails: the plate is compared before the empty values are
    looked for, so with the number unread, a plate read and a reference row
    that carries no plate, the comparison throws and no status is
    returned. *)
Lemma empty_extraction_counterexample : ~ empty_rule_as_stated.
Proof.
  intros H.
  destruct (H sampleNoNumber sampleRowWithoutPlate []) as (v & Hv & _).
  - left. reflexivity.
  - vm_compute in Hv. discriminate Hv.
Qed.

(** C2, amended. When the reference plate is a string, or no plate was
    extracted, and one of the four extracted values is the empty string,
    [validateExtraction] returns the status [requiere_revision_manual] with
    approval false and the fixed reason, whatever the comparisons and the
    confidences are. *)
Theorem validateExtraction_empty_extraction
    (e : fields Validation.field) (r : Viaje.t) (validPlacas : list string) :
  Validation.valor (placa e) = EmptyString
  \/ (exists p, Viaje.placa r = JS.VStr p) ->
  someEmpty e ->
  exists v,
    Validation.validateExtraction e r validPlacas = JS.Normal v
    /\ Validation.status v = "requiere_revision_manual"
    /\ Validation.aprobado v = false
    /\ Validation.manualReviewReason v
       = Some "Uno o más campos no pudieron ser extraídos".
Proof.
  intros Hp He.
  destruct (comparePlaca_returns _ _ Hp) as [v0 Hv0].
  destruct (validateExtraction_table e r validPlacas v0 Hv0)
    as (v & Hv & _ & Ht).
  apply hasEmpty_someEmpty in He. rewrite He in Ht.
  exists v. injection Ht as Hs Ha Hr. repeat split; assumption.
Qed.

Lemma validateExtraction_empty_extraction_witness :
  exists v,
    Validation.validateExtraction sampleNoDate sampleRow [] = JS.Normal v
    /\ Validation.status v = "requiere_revision_manual"
    /\ Validation.aprobado v = false
    /\ Validation.manualReviewReason v
       = Some "Uno o más campos no pudieron ser extraídos".
Proof.
  apply (validateExtraction_empty_extraction sampleNoDate sampleRow []).
  - right. exists "TTT840". reflexivity.
  - right; right; right. reflexivity.
Defined.



(** C10, as stated, fails on its second half: with nothing extracted the
    comparison reports no match even when the reference plate trims to the
    empty string too. *)
Lemma plate_rule_counterexample : ~ plate_rule_as_stated.
Proof.
  intros H. destruct (H EmptyString EmptyString) as (v & Hv & Hc).
  vm_compute in Hv. injection Hv as <-. discriminate Hc.
Qed.

(** C10, amended. [validateExtraction] is not total: with a non-empty
    extracted plate and a reference plate that is [null] or [undefined],
    [comparePlaca] throws a TypeError, which leaves [validateExtraction].
    When the reference plate is a string nothing throws; the comparison
    reports no match when the extracted plate is empty, and otherwise the
    equality of the two sides once trimmed and upper-cased. *)
Theorem comparePlaca_totality :
  (forall (x : string) (ref : JS.value),
     x <> EmptyString -> ref = JS.VUndefined \/ ref = JS.VNull ->
     exists err, Validation.comparePlaca x ref = JS.Throw err
                 /\ JS.name err = "TypeError")
  /\ (forall (e : fields Validation.field) (r : Viaje.t)
             (validPlacas : list string),
        Validation.valor (placa e) <> EmptyString ->
        Viaje.placa r = JS.VUndefined \/ Viaje.placa r = JS.VNull ->
        exists err, Validation.validateExtraction e r validPlacas = JS.Throw err
                    /\ JS.name err = "TypeError")
  /\ (forall (x p : string),
        exists v, Validation.comparePlaca x (JS.VStr p) = JS.Normal v
                  /\ Validation.coincide v
                     = if String.eqb x EmptyString then false
                       else String.eqb (JS.toUpperCase (JS.trim x))
                                       (JS.toUpperCase (JS.trim p)))
  /\ (forall (e : fields Validation.field) (r : Viaje.t)
             (validPlacas : list string) (p : string),
        Viaje.placa r = JS.VStr p ->
        exists v, Validation.validateExtraction e r validPlacas = JS.Normal v).
Proof.
  assert (Hthrow : forall (x : string) (ref : JS.value),
             x <> EmptyString -> ref = JS.VUndefined \/ ref = JS.VNull ->
             exists err, Validation.comparePlaca x ref = JS.Throw err
                         /\ JS.name err = "TypeError").
  { intros x ref Hx Href. unfold Validation.comparePlaca.
    rewrite truthy_VStr, negb_involutive.
    apply String.eqb_neq in Hx. rewrite Hx.
    destruct Href as [-> | ->]; eexists; split; reflexivity. }
  split; [exact Hthrow |]. split; [| split].
  - intros e r validPlacas Hx Href.
    destruct (Hthrow _ _ Hx Href) as (err & Herr & Hname).
    exists err. unfold Validation.validateExtraction. rewrite Herr.
    split; [reflexivity | exact Hname].
  - intros x p. rewrite comparePlaca_string. eexists. split; [reflexivity |].
    destruct (String.eqb x EmptyString); [reflexivity |].
    destruct (String.eqb _ _); reflexivity.
  - intros e r validPlacas p Hp.
    destruct (validateExtraction_table e r validPlacas _
                (eq_trans (f_equal _ Hp) (comparePlaca_string _ p)))
      as (v & Hv & _).
    eauto.
Qed.

(** ** The date comparator *)

Section DateFacts.
Import JS Validation.

(** The day a date string denotes for the comparator: days since the epoch
    of the date its three components give, [None] when they give no valid
    date. *)
Definition dayNumber (s : string) : option Z :=
  match parseDate s with
  | Some t => Some (t / msPerDay)
  | None => None
  end.

Lemma parseDate_whole_days (s : string) (t : Z) :
  parseDate s = Some t -> t = (t / msPerDay) * msPerDay.
Proof.
  unfold parseDate, newDate. destruct (makeDay _ _ _) as [day |]; [| discriminate].
  unfold timeClip. destruct (_ <=? _); [| discriminate].
  intros [= <-]. unfold msPerDay. rewrite Z.div_mul by discriminate. reflexivity.
Qed.

Lemma ceilDiv_mul (k d : Z) : d <> 0 -> ceilDiv (k * d) d = k.
Proof.
  intros Hd. unfold ceilDiv. rewrite <- Z.mul_opp_l, Z.div_mul by exact Hd. lia.
Qed.

Lemma diffDays_whole_days (a b : Z) :
  diffDays (Some (a * msPerDay)) (Some (b * msPerDay)) = Some (Z.abs (a - b)).
Proof.
  unfold diffDays. f_equal.
  change (1000 * 60 * 60 * 24) with msPerDay.
  rewrite <- Z.mul_sub_distr_r, Z.abs_mul. change (Z.abs msPerDay) with msPerDay.
  apply ceilDiv_mul. discriminate.
Qed.

Lemma compareDates_valid (x y : string) (a b : Z) :
  x <> EmptyString -> y <> EmptyString ->
  dayNumber x = Some a -> dayNumber y = Some b ->
  compareDates x (VStr y)
  = if Z.abs (a - b) =? 0 then
      {| coincide := true; observacion := EmptyString |}
    else if Z.abs (a - b) <=? 2 then
      {| coincide := true;
         observacion := "Diferencia de " +:+ decimal (Z.abs (a - b))
                        +:+ " día(s), dentro de tolerancia" |}
    else
      {| coincide := false;
         observacion := "Diferencia de " +:+ decimal (Z.abs (a - b))
           +:+ " días, fuera de tolerancia (máximo 2 días)" |}.
Proof.
  intros Hx Hy. unfold dayNumber, compareDates.
  rewrite !truthy_VStr. apply String.eqb_neq in Hx, Hy. rewrite Hx, Hy.
  cbn [negb orb].
  destruct (parseDate x) as [tx |] eqn:Ex; [| discriminate].
  destruct (parseDate y) as [ty |] eqn:Ey; [| discriminate].
  intros [= <-] [= <-].
  assert (Hd : diffDays (Some tx) (Some ty)
               = Some (Z.abs (tx / msPerDay - ty / msPerDay))).
  { rewrite <- diffDays_whole_days, <- (parseDate_whole_days x tx Ex),
      <- (parseDate_whole_days y ty Ey). reflexivity. }
  cbv zeta. rewrite Hd. reflexivity.
Qed.



(** *** Dates written day, month, year *)

Definition digitChar (n : Z) : ascii := ascii_of_nat (Z.to_nat (48 + n)).

Definition two (n : Z) : string :=
  String (digitChar (n / 10)) (String (digitChar (n mod 10)) EmptyString).

Definition four (n : Z) : string := two (n / 100) +:+ two (n mod 100).

(** [DD/MM/YYYY]. *)
Definition ddmmyyyy (d m y : Z) : string :=
  two d +:+ "/" +:+ two m +:+ "/" +:+ four y.

(** The year the [Date] constructor takes a number below 100 for. *)
Definition fullYear (y : Z) : Z := if y <? 100 then 1900 + y else y.

(** Days from the epoch to the given day of the given month and year. *)
Definition civilDay (d m y : Z) : Z :=
  dayFromYear (fullYear y) + daysBeforeMonth (isLeap (fullYear y)) (m - 1)
  + d - 1.

Fixpoint lacks (sep : ascii) (s : string) : bool :=
  match s with
  | EmptyString => true
  | String c r => negb (Ascii.eqb c sep) && lacks sep r
  end.

Lemma append_cons (c : ascii) (s t : string) :
  String c s +:+ t = String c (s +:+ t).
Proof. reflexivity. Qed.

Lemma append_snoc (s : string) (c : ascii) (t : string) :
  (s +:+ String c EmptyString) +:+ t = s +:+ String c t.
Proof.
  induction s as [| a s IH]; [reflexivity |].
  rewrite !append_cons, IH. reflexivity.
Qed.

Lemma append_empty (s : string) : s +:+ EmptyString = s.
Proof.
  induction s as [| a s IH]; [reflexivity |].
  rewrite append_cons, IH. reflexivity.
Qed.

Lemma splitAux_lacks (sep : ascii) (s cur : string) :
  lacks sep s = true -> splitAux sep cur s = [cur +:+ s].
Proof.
  revert cur. induction s as [| c s IH]; intros cur H; cbn [splitAux].
  - rewrite append_empty. reflexivity.
  - cbn [lacks] in H. apply andb_true_iff in H as [Hc Hs].
    apply negb_true_iff in Hc. rewrite Hc, IH, append_snoc by exact Hs.
    reflexivity.
Qed.

Lemma splitAux_append (sep : ascii) (s1 s2 cur : string) :
  lacks sep s1 = true ->
  splitAux sep cur (s1 +:+ String sep s2)
  = (cur +:+ s1) :: splitAux sep EmptyString s2.
Proof.
  revert cur. induction s1 as [| c s1 IH]; intros cur H.
  - change (EmptyString +:+ String sep s2) with (String sep s2).
    cbn [splitAux]. rewrite Ascii.eqb_refl, append_empty. reflexivity.
  - cbn [lacks] in H. apply andb_true_iff in H as [Hc Hs].
    apply negb_true_iff in Hc. rewrite append_cons. cbn [splitAux].
    rewrite Hc, IH, append_snoc by exact Hs. reflexivity.
Qed.

(** A property checked on every number from 0 up to a bound. *)
Definition below (n : Z) : list Z := map Z.of_nat (seq 0 (Z.to_nat n)).

Lemma checked_below (P : Z -> bool) (n : Z) :
  forallb P (below n) = true -> forall k, 0 <= k < n -> P k = true.
Proof.
  intros H k Hk. rewrite forallb_forall in H. apply H. unfold below.
  apply in_map_iff. exists (Z.to_nat k). split; [lia |]. apply in_seq. lia.
Qed.

Definition sameZ (a : option Z) (b : Z) : bool :=
  match a with Some z => z =? b | None => false end.

Lemma sameZ_eq (a : option Z) (b : Z) : sameZ a b = true -> a = Some b.
Proof.
  destruct a as [z |]; cbn; [| discriminate].
  intros H. apply Z.eqb_eq in H. congruence.
Qed.

Lemma two_lacks_slash (n : Z) : 0 <= n < 100 -> lacks "/" (two n) = true.
Proof.
  revert n. apply checked_below. vm_compute. reflexivity.
Qed.

Lemma two_day (n : Z) : 0 <= n < 100 -> truncate (Number (two n)) = Some n.
Proof.
  intros H. apply sameZ_eq. revert n H.
  apply (checked_below (fun n => sameZ (truncate (Number (two n))) n)).
  vm_compute. reflexivity.
Qed.

Lemma two_month (n : Z) :
  0 <= n < 100 -> truncate (sub (Number (two n)) (ofZ 1)) = Some (n - 1).
Proof.
  intros H. apply sameZ_eq. revert n H.
  apply (checked_below
           (fun n => sameZ (truncate (sub (Number (two n)) (ofZ 1))) (n - 1))).
  vm_compute. reflexivity.
Qed.

Lemma four_year (n : Z) :
  0 <= n < 10000 ->
  truncate (makeFullYear (Number (four n))) = Some (fullYear n)
  /\ lacks "/" (four n) = true.
Proof.
  intros H.
  enough (sameZ (truncate (makeFullYear (Number (four n)))) (fullYear n)
          && lacks "/" (four n) = true) as E.
  { apply andb_true_iff in E as [E1 E2].
    split; [apply sameZ_eq, E1 | exact E2]. }
  revert n H.
  apply (checked_below
           (fun n => sameZ (truncate (makeFullYear (Number (four n))))
                       (fullYear n) && lacks "/" (four n))).
  vm_compute. reflexivity.
Qed.

Lemma split_ddmmyyyy (d m y : Z) :
  0 <= d < 100 -> 0 <= m < 100 -> 0 <= y < 10000 ->
  split "/" (ddmmyyyy d m y) = [two d; two m; four y].
Proof.
  intros Hd Hm Hy. unfold split, ddmmyyyy.
  change ("/" +:+ two m +:+ "/" +:+ four y)
    with (String "/" (two m +:+ String "/" (four y))).
  rewrite splitAux_append by (apply two_lacks_slash, Hd).
  rewrite splitAux_append by (apply two_lacks_slash, Hm).
  rewrite splitAux_lacks by (apply four_year, Hy).
  reflexivity.
Qed.

Lemma daysBeforeMonth_bounds (leap : bool) (m : Z) :
  1 <= m <= 12 -> 0 <= daysBeforeMonth leap (m - 1) <= 335.
Proof.
  intros Hm.
  assert (Hc : m = 1 \/ m = 2 \/ m = 3 \/ m = 4 \/ m = 5 \/ m = 6 \/ m = 7
               \/ m = 8 \/ m = 9 \/ m = 10 \/ m = 11 \/ m = 12) by lia.
  destruct leap;
    repeat (destruct Hc as [-> | Hc]; [vm_compute; split; discriminate |]);
    subst; vm_compute; split; discriminate.
Qed.

Lemma civilDay_in_range (d m y : Z) :
  0 <= d < 100 -> 1 <= m <= 12 -> 0 <= y < 10000 ->
  Z.abs (civilDay d m y * msPerDay) <= 8640000000000000.
Proof.
  intros Hd Hm Hy. unfold civilDay, dayFromYear, fullYear, msPerDay.
  pose proof (daysBeforeMonth_bounds
                (isLeap (if y <? 100 then 1900 + y else y)) m Hm) as Hb.
  destruct (y <? 100) eqn:E; [apply Z.ltb_lt in E | apply Z.ltb_ge in E];
    Z.to_euclidean_division_equations; lia.
Qed.

(** A date written [DD/MM/YYYY] is read as that day, month and year. *)
Lemma dayNumber_ddmmyyyy (d m y : Z) :
  0 <= d < 100 -> 1 <= m <= 12 -> 0 <= y < 10000 ->
  dayNumber (ddmmyyyy d m y) = Some (civilDay d m y).
Proof.
  intros Hd Hm Hy. unfold dayNumber, parseDate.
  rewrite split_ddmmyyyy by lia. cbn [map nth].
  unfold newDate, makeDay.
  rewrite (proj1 (four_year y Hy)), two_month, two_day by lia.
  assert (Hq : (m - 1) / 12 = 0) by (apply Z.div_small; lia).
  assert (Hr : (m - 1) mod 12 = m - 1) by (apply Z.mod_small; lia).
  rewrite Hq, Hr, Z.add_0_r.
  fold (civilDay d m y).
  unfold timeClip.
  pose proof (civilDay_in_range d m y Hd Hm Hy) as Hc.
  apply Z.leb_le in Hc. rewrite Hc.
  unfold msPerDay. rewrite Z.div_mul by discriminate. reflexivity.
Qed.

(** *** Strings that are not written day, month, year *)





(** Strings of another shape that are read as dates, and match. *)
Example lenient_shapes :
  compareDates "10/12/2025/garbage" (VStr "10/12/2025")
  = {| coincide := true; observacion := EmptyString |}
  /\ compareDates "//" (VStr "//")
     = {| coincide := true; observacion := EmptyString |}
  /\ compareDates "0x0A/12/2025" (VStr "10/12/2025")
     = {| coincide := true; observacion := EmptyString |}
  /\ compareDates "1e1/12/2025" (VStr "10/12/2025")
     = {| coincide := true; observacion := EmptyString |}
  /\ compareDates "45/13/2025" (VStr "14/02/2026")
     = {| coincide := true; observacion := EmptyString |}.
Proof. vm_compute. repeat split. Qed.




End DateFacts.



(** ** The retry loop *)

Section RetryFacts.
Import JS Gemini.

Variables (o : oracle) (record : Viaje.t) (validPlacas : list string).

(** The legibility gate lets the extraction go ahead. *)
Definition gateOpen : bool :=
  match quality o with
  | QualityReport _ false _ => false
  | _ => true
  end.

Definition gateScore (attempt : nat) : option number :=
  if (attempt =? 0)%nat then
    match quality o with
    | QualityReport score _ _ => Some score
    | QualityFails => None
    end
  else None.

(** What precedes the oracle call in an iteration. *)
Definition prelude (attempt : nat) : list event :=
  if (attempt =? 0)%nat then [Download; CheckQuality] else [].

Definition backoff (attempt : nat) : Z := 1000 * 2 ^ Z.of_nat attempt.

Definition parseRetry (parseMessage : string) : error :=
  mkError "Error" ("JSON parse error: " +:+ parseMessage).

Definition isFinal (maxRetries attempt : nat) : bool :=
  Z.of_nat attempt =? Z.of_nat maxRetries - 1.

Hypothesis image_read : imageError o = None.
Hypothesis gate_open : gateOpen = true.

Lemma attemptBody_called (maxRetries attempt : nat) :
  attemptBody o record validPlacas maxRetries attempt
  = match respond o attempt with
    | Rejects e => (prelude attempt ++ [Generate], Raise e)
    | Malformed parseMessage =>
        if Z.of_nat attempt <? Z.of_nat maxRetries - 1 then
          (prelude attempt ++ [Generate],
           Continue (parseRetry parseMessage) (backoff attempt))
        else (prelude attempt ++ [Generate],
              Raise (mkError "SyntaxError" parseMessage))
    | Extraction x =>
        match Validation.validateExtraction x record validPlacas with
        | Throw e => (prelude attempt ++ [Generate], Raise e)
        | Normal v =>
            (prelude attempt ++ [Generate; Cleanup],
             Return (Audit (mapFields Validation.valor x)
                       (mapFields Validation.confianza x) v
                       (gateScore attempt)))
        end
    end.
Proof.
  unfold attemptBody, prelude, gateScore, backoff, parseRetry.
  rewrite image_read. unfold gateOpen in gate_open.
  destruct (attempt =? 0)%nat;
    destruct (quality o) as [| score [] why]; try discriminate gate_open;
    destruct (respond o attempt) as [e | msg | x]; cbn;
    try destruct (_ <? _); try reflexivity;
    destruct (Validation.validateExtraction _ _ _); reflexivity.
Qed.



(** An error thrown inside the [try] block reaches the [catch] clause. *)
Lemma attempts_raise (maxRetries rest attempt : nat)
    (lastError : option error) (evs : list event) (e : error) :
  attemptBody o record validPlacas maxRetries attempt = (evs, Raise e) ->
  attempts o record validPlacas maxRetries (S rest) attempt lastError
  = if negb (isRetriable e) || isFinal maxRetries attempt then
      (evs ++ [Cleanup], Threw (Some e))
    else
      let '(evs', out) :=
        attempts o record validPlacas maxRetries rest (S attempt) (Some e) in
      (evs ++ Sleep (default (backoff attempt) (suggestedDelay e)) :: evs',
       out).
Proof.
  intros Hb. cbn [attempts]. rewrite Hb. reflexivity.
Qed.

Lemma attempts_rejects (maxRetries rest attempt : nat)
    (lastError : option error) (e : error) :
  respond o attempt = Rejects e ->
  attempts o record validPlacas maxRetries (S rest) attempt lastError
  = if negb (isRetriable e) || isFinal maxRetries attempt then
      (prelude attempt ++ [Generate; Cleanup], Threw (Some e))
    else
      let '(evs', out) :=
        attempts o record validPlacas maxRetries rest (S attempt) (Some e) in
      (prelude attempt
       ++ Generate :: Sleep (default (backoff attempt) (suggestedDelay e))
       :: evs', out).
Proof.
  intros Hr. rewrite (attempts_raise _ _ _ _ (prelude attempt ++ [Generate]) e)
    by (rewrite attemptBody_called, Hr; reflexivity).
  destruct (_ || _).
  - rewrite <- app_assoc. reflexivity.
  - destruct (attempts _ _ _ _ _ _ _) as [evs out].
    rewrite <- app_assoc. reflexivity.
Qed.

End RetryFacts.

Section RetrySamples.
Import JS Gemini.

(** The oracle replies with text that does not parse twice, then with a
    clear extraction; the legibility gate itself fails and is ignored. *)
Definition twiceMalformed : oracle :=
  {| imageError := None;
     quality := QualityFails;
     respond := fun attempt =>
       match attempt with
       | 0%nat | 1%nat => Malformed "Unexpected token < in JSON at position 0"
       | _ => Extraction sampleClear
       end |}.

(** A rate-limit error carrying a [RetryInfo] detail. *)
Definition rateLimited (delay : string) : error :=
  {| name := "Error";
     message := "[429 Too Many Requests] Resource has been exhausted";
     status := Some 429;
     errorDetails :=
       Some [ {| atType := "type.googleapis.com/google.rpc.QuotaFailure";
                 retryDelay := None |};
              {| atType := retryInfoType; retryDelay := Some delay |} ] |}.

(** The first call is rate limited, the second succeeds. *)
Definition limitedOnce (delay : string) : oracle :=
  {| imageError := None;
     quality := QualityReport (ofZ 8) true "Imagen clara";
     respond := fun attempt =>
       match attempt with
       | 0%nat => Rejects (rateLimited delay)
       | _ => Extraction sampleClear
       end |}.

End RetrySamples.



(** ** Errors thrown during an attempt *)

Section TransportFacts.
Import JS Gemini.

Lemma isRetriable_status (e : error) :
  isRetriable e = true
  <-> exists s, status e = Some s /\ (s = 429 \/ 500 <= s < 600).
Proof.
  unfold isRetriable. destruct (status e) as [s |].
  - rewrite orb_true_iff, andb_true_iff, Z.eqb_eq, Z.leb_le, Z.ltb_lt.
    split.
    + intros H. exists s. split; [reflexivity | lia].
    + intros (s' & [= <-] & H). lia.
  - split; [discriminate | intros (s & H & _); discriminate].
Qed.

(** What the [catch] clause does with an error [e] thrown in the [try]
    block of an iteration: an error that is not retriable, or any error on
    the last iteration, is thrown again at once; otherwise the loop sleeps
    and runs the next iteration. *)
Lemma thrown_error_policy (o : oracle) (record : Viaje.t)
    (validPlacas : list string) (maxRetries rest attempt : nat)
    (lastError : option error) (evs : list event) (e : error) :
  attemptBody o record validPlacas maxRetries attempt = (evs, Raise e) ->
  (isRetriable e = false \/ isFinal maxRetries attempt = true ->
   attempts o record validPlacas maxRetries (S rest) attempt lastError
   = (evs ++ [Cleanup], Threw (Some e)))
  /\ (isRetriable e = true -> isFinal maxRetries attempt = false ->
      attempts o record validPlacas maxRetries (S rest) attempt lastError
      = let '(evs', out) :=
          attempts o record validPlacas maxRetries rest (S attempt) (Some e) in
        (evs ++ Sleep (default (backoff attempt) (suggestedDelay e)) :: evs',
         out)).
Proof.
  intros Hb. rewrite (attempts_raise o record validPlacas _ _ _ _ evs e Hb).
  split.
  - intros [-> | ->]; rewrite ?orb_true_r; reflexivity.
  - intros -> ->. reflexivity.
Qed.

Lemma calls_app (a b : list event) : calls (a ++ b) = (calls a + calls b)%nat.
Proof. unfold calls. rewrite List.filter_app, List.length_app. reflexivity. Qed.

Lemma calls_prelude (attempt : nat) : calls (prelude attempt) = 0%nat.
Proof. unfold prelude. destruct (attempt =? 0)%nat; reflexivity. Qed.

(** When every attempt is rejected with a retriable error, the loop runs
    all its iterations and throws the error of the last one. *)
Lemma retries_exhausted (o : oracle) (record : Viaje.t)
    (validPlacas : list string) (maxRetries : nat) (e : nat -> error) :
  imageError o = None -> gateOpen o = true ->
  (forall a, (a < maxRetries)%nat ->
             respond o a = Rejects (e a) /\ isRetriable (e a) = true) ->
  forall (rest attempt : nat) (lastError : option error),
    (attempt + S rest = maxRetries)%nat ->
    snd (attempts o record validPlacas maxRetries (S rest) attempt lastError)
    = Threw (Some (e (maxRetries - 1)%nat))
    /\ calls (fst (attempts o record validPlacas maxRetries (S rest) attempt
                     lastError)) = S rest.
Proof.
  intros Himg Hgate Hall rest.
  induction rest as [| rest IH]; intros attempt lastError Hsum.
  - destruct (Hall attempt ltac:(lia)) as [Hr Hret].
    rewrite (attempts_rejects o record validPlacas Himg Hgate _ _ _ _ _ Hr).
    assert (isFinal maxRetries attempt = true) as ->
      by (apply Z.eqb_eq; lia).
    rewrite orb_true_r. cbn [fst snd].
    replace (maxRetries - 1)%nat with attempt by lia.
    split; [reflexivity |].
    rewrite calls_app, calls_prelude. reflexivity.
  - destruct (Hall attempt ltac:(lia)) as [Hr Hret].
    rewrite (attempts_rejects o record validPlacas Himg Hgate _ _ _ _ _ Hr).
    assert (isFinal maxRetries attempt = false) as ->
      by (apply Z.eqb_neq; lia).
    rewrite Hret. cbn [negb orb].
    specialize (IH (S attempt) (Some (e attempt)) ltac:(lia)).
    destruct (attempts o record validPlacas maxRetries (S rest) (S attempt)
                (Some (e attempt))) as [evs out].
    cbn [fst snd] in *. destruct IH as [-> Hc]. split; [reflexivity |].
    rewrite calls_app, calls_prelude.
    change (calls (Generate :: Sleep _ :: evs)) with (S (calls evs)).
    rewrite Hc. reflexivity.
Qed.

(** *** The delay a rate-limit error suggests *)

Definition digitString (ds : list Z) : string :=
  fold_right (fun d s => String (digitChar d) s) EmptyString ds.

Definition isDigit (d : Z) : Prop := 0 <= d < 10.

Lemma digitVal_digitChar (d : Z) : isDigit d -> digitVal (digitChar d) = Some d.
Proof.
  intros H.
  assert (Hc : d = 0 \/ d = 1 \/ d = 2 \/ d = 3 \/ d = 4 \/ d = 5 \/ d = 6
               \/ d = 7 \/ d = 8 \/ d = 9) by (unfold isDigit in H; lia).
  repeat (destruct Hc as [-> | Hc]; [reflexivity |]). subst. reflexivity.
Qed.

Lemma takeDigits_seconds (ds : list Z) (rest : string) :
  Forall isDigit ds ->
  takeDigits (digitString ds +:+ String "s" rest) = (ds, String "s" rest).
Proof.
  induction 1 as [| d ds Hd _ IH]; [reflexivity |].
  cbn [digitString fold_right]. rewrite append_cons. cbn [takeDigits].
  rewrite (digitVal_digitChar d Hd). fold (digitString ds). rewrite IH.
  reflexivity.
Qed.

(** A delay written as whole seconds, [<digits>s], is taken as such. *)
Lemma suggestedDelay_whole_seconds (e : error) (details : list detail)
    (info : detail) (d : Z) (ds : list Z) :
  status e = Some 429 ->
  errorDetails e = Some details ->
  find (fun x => String.eqb (atType x) retryInfoType) details = Some info ->
  retryDelay info = Some (digitString (d :: ds) +:+ "s") ->
  Forall isDigit (d :: ds) ->
  suggestedDelay e = Some (digitsValue 10 (d :: ds) * 1000).
Proof.
  intros Hs Hd Hf Hr Hds. unfold suggestedDelay.
  rewrite Hs, Hd, Hf, Hr.
  assert (Ht : truthy (VStr (digitString (d :: ds) +:+ "s")) = true)
    by reflexivity.
  rewrite Ht.
  assert (Hm : matchSeconds (digitString (d :: ds) +:+ "s") = Some (d :: ds)).
  { cbn [digitString fold_right]. rewrite append_cons.
    cbn [matchSeconds]. unfold matchAt.
    change (String (digitChar d) (fold_right _ _ ds +:+ "s"))
      with (digitString (d :: ds) +:+ String "s" EmptyString).
    rewrite (takeDigits_seconds _ _ Hds). reflexivity. }
  rewrite Hm. reflexivity.
Qed.

End TransportFacts.

(** C6, at the input where the code departs from it. A rate-limit error
    whose [RetryInfo] carries the delay 1.5 s makes the loop sleep 5000 ms:
    the pattern picks the digits next to the unit, here those of the
    fraction. *)
Theorem fractional_retry_delay_misread :
  Gemini.suggestedDelay (rateLimited "1.5s") = Some 5000
  /\ exists evs r,
       Gemini.auditWithGemini true (limitedOnce "1.5s") sampleRow
         "images/2025/12/10/a1b2c3d4.foto_vale.jpg" [] 4
       = (evs, Gemini.Returned r)
       /\ Gemini.sleeps evs = [5000].
Proof.
  split; [vm_compute; reflexivity |].
  eexists. eexists. split; [vm_compute; reflexivity | reflexivity].
Qed.

(** ** The blob store and the ledger *)

Section StoreFacts.
Import JS Bucket.

(** What a storage call can do to the world: nothing but consume a fault
    and, for a write, add one object. *)
Definition sameStore (w w' : world) : Prop :=
  objects w' = objects w /\ bucketOk w' = bucketOk w /\ now w' = now w.

Definition stored (p : string) (data : doc) (w w' : world) : Prop :=
  objects w' = <[p := data]> (objects w)
  /\ bucketOk w' = bucketOk w /\ now w' = now w.

Lemma sameStore_refl (w : world) : sameStore w w.
Proof. repeat split. Qed.

Lemma sameStore_trans (w1 w2 w3 : world) :
  sameStore w1 w2 -> sameStore w2 w3 -> sameStore w1 w3.
Proof.
  intros (H1 & H2 & H3) (H4 & H5 & H6). repeat split; congruence.
Qed.

Lemma call_reads {A} (f : gmap string doc -> A) (w : world) :
  sameStore w (snd (call (fun objs => (f objs, objs)) w))
  /\ (fst (call (fun objs => (f objs, objs)) w) = None
      \/ fst (call (fun objs => (f objs, objs)) w) = Some (f (objects w))).
Proof.
  unfold call, sameStore.
  destruct (bucketOk w) eqn:Hb; cbn [negb];
    [destruct (faults w) as [| [] rest] |];
    cbn; (split; [repeat split; try assumption |]);
    first [left; reflexivity | right; reflexivity].
Qed.

Lemma fileExists_reads (p : string) (w : world) :
  sameStore w (snd (fileExists p w))
  /\ (fst (fileExists p w) = true -> is_Some (objects w !! p)).
Proof.
  unfold fileExists, seq, ret.
  destruct (call_reads (fun objs => bool_decide (is_Some (objs !! p))) w)
    as [Hs Hr].
  destruct (call _ w) as [r w']. cbn [fst snd] in *. split; [exact Hs |].
  destruct Hr as [-> | ->]; cbn; [discriminate |].
  intros H. apply bool_decide_eq_true in H. exact H.
Qed.

Lemma readJSON_reads (p : string) (w : world) :
  sameStore w (snd (readJSON p w))
  /\ (forall d, fst (readJSON p w) = Some d -> objects w !! p = Some d).
Proof.
  unfold readJSON, seq, ret.
  destruct (call_reads (fun objs => objs !! p) w) as [Hs Hr].
  destruct (call _ w) as [r w']. cbn [fst snd] in *. split; [exact Hs |].
  destruct Hr as [-> | ->]; cbn; [discriminate | auto].
Qed.

Lemma writeJSON_writes (p : string) (data : doc) (w : world) :
  (fst (writeJSON p data w) = false /\ sameStore w (snd (writeJSON p data w)))
  \/ (fst (writeJSON p data w) = true
      /\ stored p data w (snd (writeJSON p data w))).
Proof.
  unfold writeJSON, seq, ret, call, sameStore, stored.
  destruct (bucketOk w) eqn:Hb; cbn [negb].
  - destruct (faults w) as [| [] rest]; cbn;
      [right | left | right]; repeat split; auto.
  - left. repeat split; auto.
Qed.

Lemma elem_of_namesUnder (prefix n : string) (objs : gmap string doc) :
  In n (namesUnder prefix objs)
  <-> is_Some (objs !! n) /\ String.prefix prefix n = true.
Proof.
  unfold namesUnder. rewrite <- list_elem_of_In, merge_sort_Permutation.
  rewrite list_elem_of_filter, elem_of_elements, elem_of_dom. tauto.
Qed.

Lemma listFiles_reads (prefix : string) (w : world) :
  sameStore w (snd (listFiles prefix w))
  /\ (forall n, In n (fst (listFiles prefix w)) ->
                is_Some (objects w !! n) /\ String.prefix prefix n = true).
Proof.
  unfold listFiles, seq, ret.
  destruct (call_reads (namesUnder prefix) w) as [Hs Hr].
  destruct (call _ w) as [r w']. cbn [fst snd] in *. split; [exact Hs |].
  destruct Hr as [-> | ->]; cbn; [tauto |].
  intros n. apply elem_of_namesUnder.
Qed.

End StoreFacts.

Section PathFacts.
Import Bucket Audit.

Lemma prefix_append (a b c : string) :
  String.prefix (a +:+ b) (a +:+ c) = String.prefix b c.
Proof.
  induction a as [| x a IH]; [reflexivity |].
  rewrite !append_cons. cbn [String.prefix].
  destruct (ascii_dec x x) as [_ | N]; [exact IH | contradiction].
Qed.

Lemma failed_not_under_processed (d id : string) :
  String.prefix (processedPrefix d) (failedPath d id) = false.
Proof.
  unfold processedPrefix, failedPath. rewrite !prefix_append. reflexivity.
Qed.

Lemma manual_review_not_under_processed (d id : string) :
  String.prefix (processedPrefix d) (manualReviewPath d id) = false.
Proof.
  unfold processedPrefix, manualReviewPath. rewrite !prefix_append.
  reflexivity.
Qed.

Lemma index_not_under_processed (d : string) :
  String.prefix (processedPrefix d) (indexPath d) = false.
Proof.
  unfold processedPrefix, indexPath. rewrite !prefix_append. reflexivity.
Qed.

Lemma append_inj (a b c : string) : a +:+ b = a +:+ c -> b = c.
Proof. apply String.app_inj. Qed.

Lemma failed_not_index (d id : string) : failedPath d id <> indexPath d.
Proof.
  unfold failedPath, indexPath. intros H.
  apply append_inj, append_inj in H. discriminate H.
Qed.

Lemma processed_not_index (d id : string) : processedPath d id <> indexPath d.
Proof.
  unfold processedPath, indexPath. intros H.
  apply append_inj, append_inj in H. discriminate H.
Qed.

Lemma manual_review_not_index (d id : string) :
  manualReviewPath d id <> indexPath d.
Proof.
  unfold manualReviewPath, indexPath. intros H.
  apply append_inj, append_inj in H. discriminate H.
Qed.

Lemma failed_not_processed (d id : string) :
  failedPath d id <> processedPath d id.
Proof.
  unfold failedPath, processedPath. intros H.
  apply append_inj, append_inj in H. discriminate H.
Qed.

Lemma failed_not_manual_review (d id : string) :
  failedPath d id <> manualReviewPath d id.
Proof.
  unfold failedPath, manualReviewPath. intros H.
  apply append_inj, append_inj in H. discriminate H.
Qed.

End PathFacts.

Section LedgerFacts.
Import JS Bucket Audit.

(** The ids the index document of a partition lists; none without such a
    document. *)
Definition indexIds (objs : gmap string doc) (d : string) : list string :=
  default [] (processedIdsOf (objs !! indexPath d)).

(** The id names an object under the processed-results prefix. *)
Definition listedAsProcessed (objs : gmap string doc) (d id : string) : Prop :=
  exists n, is_Some (objs !! n)
            /\ String.prefix (processedPrefix d) n = true
            /\ basename n ".json" = id.

(** Every id a read of the ledger can return, whichever storage calls
    fail. *)
Definition mayBeProcessed (objs : gmap string doc) (d id : string) : Prop :=
  In id (indexIds objs d) \/ listedAsProcessed objs d id.

(** The world is unchanged, or the index document was replaced. *)
Definition indexWritten (d : string) (ids : list string) (w w' : world) : Prop :=
  sameStore w w'
  \/ stored (indexPath d) (DIndex ids (List.length ids) (now w)) w w'.

Lemma updateProcessedIndex_writes (d : string) (ids : list string) (w : world) :
  indexWritten d ids w (snd (updateProcessedIndex d ids w)).
Proof.
  unfold updateProcessedIndex, seq, clock, ret, indexWritten.
  destruct (writeJSON_writes (indexPath d)
              (DIndex ids (List.length ids) (now w)) w) as [[_ H] | [_ H]];
    destruct (writeJSON _ _ w) as [b w']; cbn [snd] in *; auto.
Qed.

Lemma indexWritten_after (d : string) (ids : list string) (w w1 w' : world) :
  sameStore w w1 -> indexWritten d ids w1 w' -> indexWritten d ids w w'.
Proof.
  intros (Ho & Hb & Hn) [(Ho' & Hb' & Hn') | (Ho' & Hb' & Hn')];
    [left | right]; repeat split; congruence.
Qed.

Lemma rebuildFromListing_sound (d : string) (w : world) :
  (forall id, In id (fst (rebuildFromListing d w)) ->
              listedAsProcessed (objects w) d id)
  /\ indexWritten d (fst (rebuildFromListing d w)) w
       (snd (rebuildFromListing d w)).
Proof.
  unfold rebuildFromListing, seq, ret.
  destruct (listFiles_reads (processedPrefix d) w) as [Hs Hl].
  destruct (listFiles (processedPrefix d) w) as [names w1].
  cbn [fst snd] in *.
  set (ids := map (fun name => basename name ".json") names).
  assert (Hw : indexWritten d ids w
                 (snd ((if (0 <? List.length ids)%nat
                        then updateProcessedIndex d ids
                        else fun w0 => (true, w0)) w1))).
  { destruct (0 <? List.length ids)%nat.
    - apply (indexWritten_after d ids w w1); [exact Hs |].
      apply updateProcessedIndex_writes.
    - left. exact Hs. }
  destruct ((if (0 <? List.length ids)%nat
             then updateProcessedIndex d ids
             else fun w0 => (true, w0)) w1) as [b w2].
  cbn [fst snd] in *. split; [| exact Hw].
  intros id Hid. apply in_map_iff in Hid as (n & <- & Hn).
  destruct (Hl n Hn) as [Hsome Hpre]. exists n. auto.
Qed.

Lemma getProcessedRowIds_sound (d : string) (w : world) :
  (forall id, In id (fst (getProcessedRowIds d w)) ->
              mayBeProcessed (objects w) d id)
  /\ indexWritten d (fst (getProcessedRowIds d w)) w
       (snd (getProcessedRowIds d w)).
Proof.
  unfold getProcessedRowIds, seq.
  destruct (fileExists_reads (indexPath d) w) as [Hs _].
  destruct (fileExists (indexPath d) w) as [present w1]. cbn [fst snd] in *.
  assert (Hre : forall w2, sameStore w w2 ->
            (forall id, In id (fst (rebuildFromListing d w2)) ->
                        mayBeProcessed (objects w) d id)
            /\ indexWritten d (fst (rebuildFromListing d w2)) w
                 (snd (rebuildFromListing d w2))).
  { intros w2 Hs2. destruct (rebuildFromListing_sound d w2) as [Hin Hw].
    split.
    - intros id Hid. right. destruct Hs2 as (Ho & _).
      rewrite <- Ho. apply Hin, Hid.
    - apply (indexWritten_after d _ w w2); assumption. }
  destruct present; [| apply Hre, Hs].
  destruct (readJSON_reads (indexPath d) w1) as [Hs1 Hr].
  destruct (readJSON (indexPath d) w1) as [index w2]. cbn [fst snd] in *.
  pose proof (sameStore_trans _ _ _ Hs Hs1) as Hs2.
  destruct (processedIdsOf index) as [ids |] eqn:Hids; [| apply Hre, Hs2].
  unfold ret. cbn [fst snd]. split; [| left; exact Hs2].
  intros id Hid. left. unfold indexIds.
  destruct index as [[l n t | | | |] |]; try discriminate Hids.
  injection Hids as <-. destruct Hs as (Ho & _).
  rewrite <- Ho, (Hr _ eq_refl). exact Hid.
Qed.

Lemma call_no_bucket {A} (f : gmap string doc -> A * gmap string doc)
    (w : world) :
  bucketOk w = false -> call f w = (None, w).
Proof. intros Hb. unfold call. rewrite Hb. reflexivity. Qed.

Lemma getProcessedRowIds_no_bucket (d : string) (w : world) :
  bucketOk w = false -> getProcessedRowIds d w = ([], w).
Proof.
  intros Hb. unfold getProcessedRowIds, fileExists, seq, ret.
  rewrite call_no_bucket by exact Hb. cbn [default].
  unfold rebuildFromListing, listFiles, seq, ret.
  rewrite call_no_bucket by exact Hb. reflexivity.
Qed.

End LedgerFacts.

Section UnprocessedFacts.
Import JS Bucket Audit.

Lemma includes_In (ids : list string) (id : string) :
  includes ids id = true <-> In id ids.
Proof.
  unfold includes. rewrite existsb_exists. split.
  - intros (x & Hx & E). apply String.eqb_eq in E. subst. exact Hx.
  - intros H. exists id. split; [exact H | apply String.eqb_refl].
Qed.

Lemma getUnprocessedRecords_filters (records : list Viaje.t) (d : string)
    (w : world) :
  fst (getUnprocessedRecords records d w)
  = List.filter
      (fun r => negb (includes (fst (getProcessedRowIds d w)) (Viaje.rowId r)))
      records.
Proof.
  unfold getUnprocessedRecords, getBucket, seq, ret.
  destruct (bucketOk w) eqn:Hb; cbn [negb].
  - destruct (getProcessedRowIds d w) as [ids w']. reflexivity.
  - rewrite (getProcessedRowIds_no_bucket d w Hb). cbn [fst].
    induction records as [| r records IH]; [reflexivity |].
    cbn. f_equal. exact IH.
Qed.

Lemma getUnprocessedRecords_In (records : list Viaje.t) (d : string)
    (w : world) (r : Viaje.t) :
  In r (fst (getUnprocessedRecords records d w))
  <-> In r records /\ ~ In (Viaje.rowId r) (fst (getProcessedRowIds d w)).
Proof.
  rewrite getUnprocessedRecords_filters, List.filter_In, negb_true_iff,
    <- includes_In.
  destruct (includes _ _); intuition congruence.
Qed.

End UnprocessedFacts.

(** C8. With [processed] the ids the ledger read returns in the state the
    selection is made in: the selection is the list of records whose id is
    not in [processed]; every record is selected or has its id in
    [processed]; no selected record has its id in [processed]. *)
Theorem unprocessed_complements_processed
    (records : list Viaje.t) (d : string) (w : Bucket.world) :
  let processed := fst (Bucket.getProcessedRowIds d w) in
  let unprocessed := fst (Audit.getUnprocessedRecords records d w) in
  unprocessed
  = List.filter
      (fun r => negb (Bucket.includes processed (Viaje.rowId r))) records
  /\ (forall r, In r records ->
                In r unprocessed \/ In (Viaje.rowId r) processed)
  /\ (forall r, In r unprocessed -> ~ In (Viaje.rowId r) processed)
  /\ (forall r, In r unprocessed
                <-> In r records /\ ~ In (Viaje.rowId r) processed).
Proof.
  cbv zeta. pose proof (getUnprocessedRecords_In records d w) as Hiff.
  split; [apply getUnprocessedRecords_filters |].
  set (processed := fst (Bucket.getProcessedRowIds d w)) in *.
  split; [| split; [| exact Hiff]].
  - intros r Hr.
    destruct (Bucket.includes processed (Viaje.rowId r)) eqn:E.
    + right. apply includes_In, E.
    + left. apply Hiff. split; [exact Hr |].
      rewrite <- includes_In, E. discriminate.
  - intros r Hr. apply Hiff in Hr. tauto.
Qed.

Section RebuildFacts.
Import JS Bucket Audit.

(** The only stored object named after [id] is its manual-review result. *)
Definition onlyManualReview (objs : gmap string doc) (d id : string) : Prop :=
  forall n, is_Some (objs !! n) -> basename n ".json" = id ->
            n = manualReviewPath d id.

Lemma not_listed_when_only_manual (objs : gmap string doc) (d id : string) :
  onlyManualReview objs d id -> ~ listedAsProcessed objs d id.
Proof.
  intros Honly (n & Hsome & Hpre & Hbase).
  rewrite (Honly n Hsome Hbase), manual_review_not_under_processed in Hpre.
  discriminate Hpre.
Qed.

Lemma indexIds_absent (objs : gmap string doc) (d : string) :
  objs !! indexPath d = None -> indexIds objs d = [].
Proof. intros H. unfold indexIds. rewrite H. reflexivity. Qed.

Lemma listed_after_index_write (objs : gmap string doc) (d id : string)
    (x : doc) :
  listedAsProcessed (<[indexPath d := x]> objs) d id ->
  listedAsProcessed objs d id.
Proof.
  intros (n & Hsome & Hpre & Hbase).
  apply lookup_insert_is_Some in Hsome as [<- | [_ Hsome]].
  - rewrite index_not_under_processed in Hpre. discriminate Hpre.
  - exists n. auto.
Qed.

Lemma mayBeProcessed_after_read (d id : string) (ids : list string)
    (w w' : world) :
  indexWritten d ids w w' ->
  mayBeProcessed (objects w') d id ->
  mayBeProcessed (objects w) d id \/ In id ids.
Proof.
  intros [(Ho & _) | (Ho & _)]; rewrite Ho; [auto |].
  intros [Hin | Hl].
  - right. unfold indexIds in Hin. rewrite lookup_insert_eq in Hin. exact Hin.
  - left. right. apply (listed_after_index_write _ _ _ _ Hl).
Qed.

End RebuildFacts.

(** C9. When a partition has no index document, the ledger read returns
    only ids of objects listed under the processed-results prefix. An id
    whose only stored result is the manual-review one is therefore absent
    from the ids returned and from the index the read leaves behind, and a
    record with that id is selected as unprocessed by this run and by any
    later run on the store as found or as left. *)
Theorem rebuilt_index_omits_manual_review
    (d id : string) (w : Bucket.world) :
  Bucket.objects w !! Bucket.indexPath d = None ->
  onlyManualReview (Bucket.objects w) d id ->
  let ids := fst (Bucket.getProcessedRowIds d w) in
  let w' := snd (Bucket.getProcessedRowIds d w) in
  (forall n, In n ids -> listedAsProcessed (Bucket.objects w) d n)
  /\ ~ In id ids
  /\ ~ In id (indexIds (Bucket.objects w') d)
  /\ (forall (records : list Viaje.t) (r : Viaje.t) (run : Bucket.world),
        In r records -> Viaje.rowId r = id ->
        Bucket.objects run = Bucket.objects w
        \/ Bucket.objects run = Bucket.objects w' ->
        In r (fst (Audit.getUnprocessedRecords records d run))).
Proof.
  intros Habsent Honly. cbv zeta.
  destruct (getProcessedRowIds_sound d w) as [Hsound Hwritten].
  set (ids := fst (Bucket.getProcessedRowIds d w)) in *.
  set (w' := snd (Bucket.getProcessedRowIds d w)) in *.
  assert (Hlisted : forall n, In n ids ->
                               listedAsProcessed (Bucket.objects w) d n).
  { intros n Hn. destruct (Hsound n Hn) as [Hi | Hl]; [| exact Hl].
    rewrite (indexIds_absent _ _ Habsent) in Hi. destruct Hi. }
  assert (Hw : ~ mayBeProcessed (Bucket.objects w) d id).
  { intros [Hi | Hl].
    - rewrite (indexIds_absent _ _ Habsent) in Hi. destruct Hi.
    - exact (not_listed_when_only_manual _ _ _ Honly Hl). }
  assert (Hids : ~ In id ids).
  { intros Hin. apply Hw. right. apply Hlisted, Hin. }
  assert (Hw' : ~ mayBeProcessed (Bucket.objects w') d id).
  { intros H.
    destruct (mayBeProcessed_after_read d id ids w w' Hwritten H); tauto. }
  split; [exact Hlisted |]. split; [exact Hids |].
  split; [intros H; apply Hw'; left; exact H |].
  intros records r run Hr Hid Hrun.
  apply getUnprocessedRecords_In.
  split; [exact Hr |]. rewrite Hid. intros Hin.
  apply (proj1 (getProcessedRowIds_sound d run)) in Hin.
  destruct Hrun as [E | E]; rewrite E in Hin; tauto.
Qed.

Section RebuildSample.
Import Bucket Audit.

(** A store whose index document was lost: one record was sent to manual
    review, another was processed. *)
Definition indexLost : world :=
  {| bucketOk := true;
     objects := <[manualReviewPath "2025/12/10" "a1b2c3d4" := DOther]>
                  (<[processedPath "2025/12/10" "e5f6a7b8" := DOther]> ∅);
     faults := [];
     now := "2025-12-11T06:00:00.000Z" |}.

End RebuildSample.

Lemma rebuilt_index_omits_manual_review_witness :
  ~ In "a1b2c3d4" (fst (Bucket.getProcessedRowIds "2025/12/10" indexLost))
  /\ In sampleRow
       (fst (Audit.getUnprocessedRecords [sampleRow] "2025/12/10" indexLost)).
Proof.
  assert (Honly : onlyManualReview (Bucket.objects indexLost) "2025/12/10"
                    "a1b2c3d4").
  { intros n Hsome Hbase. cbn [Bucket.objects indexLost] in Hsome.
    apply lookup_insert_is_Some in Hsome as [<- | [_ Hsome]]; [reflexivity |].
    apply lookup_insert_is_Some in Hsome as [<- | [_ Hsome]].
    - vm_compute in Hbase. discriminate Hbase.
    - rewrite lookup_empty in Hsome. destruct Hsome as [x Hx]. discriminate Hx. }
  destruct (rebuilt_index_omits_manual_review "2025/12/10" "a1b2c3d4"
              indexLost eq_refl Honly) as (_ & Hnot & _ & Hsel).
  split; [exact Hnot |].
  apply (Hsel [sampleRow] sampleRow indexLost);
    [left; reflexivity | reflexivity | left; reflexivity].
Defined.

(** ** The orchestrator *)

Section AuditFacts.
Import Bucket Gemini Audit.

(** Once the loop runs an iteration, what it throws is an error object. *)
Lemma attempts_throw_errors (o : oracle) (record : Viaje.t)
    (validPlacas : list string) (maxRetries remaining : nat) :
  forall (attempt : nat) (lastError : option JS.error),
    (remaining = 0%nat -> lastError <> None) ->
    snd (attempts o record validPlacas maxRetries remaining attempt lastError)
    <> Threw None.
Proof.
  induction remaining as [| rest IH]; intros attempt lastError Hlast.
  - cbn. intros [= H]. exact (Hlast eq_refl H).
  - cbn [attempts].
    destruct (attemptBody o record validPlacas maxRetries attempt)
      as [evs [r | err delay | e]].
    + discriminate.
    + specialize (IH (S attempt) (Some err) ltac:(discriminate)).
      destruct (attempts _ _ _ _ rest _ _) as [evs' out]. exact IH.
    + destruct (_ || _); [discriminate |].
      specialize (IH (S attempt) (Some e) ltac:(discriminate)).
      destruct (attempts _ _ _ _ rest _ _) as [evs' out]. exact IH.
Qed.

Lemma auditWithGemini_throws_errors (available : bool) (o : oracle)
    (record : Viaje.t) (image : string) (validPlacas : list string)
    (maxRetries : nat) :
  (0 < maxRetries)%nat ->
  snd (auditWithGemini available o record image validPlacas maxRetries)
  <> Threw None.
Proof.
  intros Hpos. unfold auditWithGemini.
  destruct available; cbn [negb]; [| discriminate].
  apply attempts_throw_errors. lia.
Qed.

(** A world in which no storage call fails. *)
Definition calm (objs : gmap string doc) (t : string) : world :=
  {| bucketOk := true; objects := objs; faults := []; now := t |}.

Lemma call_calm {A} (f : gmap string doc -> A * gmap string doc)
    (objs : gmap string doc) (t : string) :
  call f (calm objs t) = (Some (fst (f objs)), calm (snd (f objs)) t).
Proof. unfold call, calm. cbn. destruct (f objs). reflexivity. Qed.

Lemma fileExists_calm (p : string) (objs : gmap string doc) (t : string) :
  fileExists p (calm objs t)
  = (bool_decide (is_Some (objs !! p)), calm objs t).
Proof. unfold fileExists, seq, ret. rewrite call_calm. reflexivity. Qed.

Lemma readJSON_calm (p : string) (objs : gmap string doc) (t : string) :
  readJSON p (calm objs t) = (objs !! p, calm objs t).
Proof. unfold readJSON, seq, ret. rewrite call_calm. reflexivity. Qed.

Lemma writeJSON_calm (p : string) (data : doc) (objs : gmap string doc)
    (t : string) :
  writeJSON p data (calm objs t) = (true, calm (<[p := data]> objs) t).
Proof. unfold writeJSON, seq, ret. rewrite call_calm. reflexivity. Qed.

Lemma updateProcessedIndex_calm (d : string) (ids : list string)
    (objs : gmap string doc) (t : string) :
  updateProcessedIndex d ids (calm objs t)
  = (true, calm (<[indexPath d := DIndex ids (List.length ids) t]> objs) t).
Proof.
  unfold updateProcessedIndex, clock, seq, ret. cbn [now calm].
  rewrite writeJSON_calm. reflexivity.
Qed.

Lemma addToProcessedIndex_calm (d id : string) (objs : gmap string doc)
    (t : string) :
  snd (addToProcessedIndex d id (calm objs t))
  = calm (if includes (indexIds objs d) id then objs
          else <[indexPath d :=
                   DIndex (indexIds objs d ++ [id])
                     (List.length (indexIds objs d ++ [id])) t]> objs) t.
Proof.
  unfold addToProcessedIndex, seq, ret, indexIds.
  rewrite fileExists_calm.
  destruct (objs !! indexPath d) as [x |] eqn:E.
  - rewrite bool_decide_eq_true_2 by eauto.
    rewrite readJSON_calm, E.
    destruct (includes _ id); cbn [negb]; [reflexivity |].
    rewrite updateProcessedIndex_calm. reflexivity.
  - rewrite bool_decide_eq_false_2 by (intros [x Hx]; discriminate).
    cbn [processedIdsOf default].
    destruct (includes _ id); cbn [negb]; [reflexivity |].
    rewrite updateProcessedIndex_calm. reflexivity.
Qed.

Lemma saveAndIndex_calm (path d id : string) (r : auditResult)
    (objs : gmap string doc) (t : string) :
  path <> indexPath d ->
  exists objs',
    snd (saveAndIndex path d id r (calm objs t)) = calm objs' t
    /\ objs' !! path = Some (DAudit r)
    /\ In id (indexIds objs' d).
Proof.
  intros Hne. unfold saveAndIndex, getBucket, seq, ret. cbn [bucketOk calm].
  rewrite writeJSON_calm.
  pose proof (addToProcessedIndex_calm d id (<[path := DAudit r]> objs) t) as Ha.
  destruct (addToProcessedIndex d id (calm (<[path := DAudit r]> objs) t))
    as [b w']. cbn [snd] in *. subst w'.
  eexists. split; [reflexivity |].
  destruct (includes _ id) eqn:Hi.
  - split; [apply lookup_insert_eq | apply includes_In, Hi].
  - split.
    + rewrite lookup_insert_ne by congruence. apply lookup_insert_eq.
    + unfold indexIds at 1. rewrite lookup_insert_eq. cbn.
      apply in_or_app. right. left. reflexivity.
Qed.

Lemma saveAndIndex_world (path d id : string) (r : auditResult) (w : world) :
  snd (saveAndIndex path d id r w)
  = if bucketOk w
    then snd (addToProcessedIndex d id (snd (writeJSON path (DAudit r) w)))
    else w.
Proof.
  unfold saveAndIndex, getBucket, seq, ret.
  destruct (bucketOk w); [| reflexivity].
  destruct (writeJSON path (DAudit r) w) as [b w1]. cbn [snd].
  destruct (addToProcessedIndex d id w1) as [b' w2]. reflexivity.
Qed.

End AuditFacts.

Section RecordFacts.
Import Bucket Gemini Audit.

Variables (o : oracle) (maxRetries : nat) (record : Viaje.t)
  (imagePath d : string) (validPlacas : list string) (w : world).

Let id : string := Viaje.rowId record.
Let outcome : Gemini.outcome :=
  snd (auditWithGemini (bucketOk w) o record imagePath validPlacas maxRetries).

Lemma auditRecord_manual_review (score : JS.number) (why : string) :
  outcome = Returned (RequiresManualReview score why) ->
  auditRecord o maxRetries record imagePath d validPlacas w
  = (JS.Normal (manualReviewResult record imagePath (now w) score why),
     snd (saveAndIndex (manualReviewPath d id) d id
            (manualReviewResult record imagePath (now w) score why) w)).
Proof.
  unfold outcome, auditRecord, getBucket, clock, seq, ret. intros ->.
  fold id. destruct (saveAndIndex _ _ _ _ w) as [[] w']. reflexivity.
Qed.

Lemma auditRecord_validated (extracciones : fields string)
    (confianzas : fields JS.number) (v : Validation.validation)
    (score : option JS.number) :
  outcome = Returned (Audit extracciones confianzas v score) ->
  auditRecord o maxRetries record imagePath d validPlacas w
  = (JS.Normal (validatedResult record imagePath (now w) extracciones v),
     snd (saveAndIndex (processedPath d id) d id
            (validatedResult record imagePath (now w) extracciones v) w)).
Proof.
  unfold outcome, auditRecord, getBucket, clock, seq, ret. intros ->.
  fold id. destruct (saveAndIndex _ _ _ _ w) as [[] w']. reflexivity.
Qed.

Lemma auditRecord_thrown (err : JS.error) :
  outcome = Threw (Some err) ->
  auditRecord o maxRetries record imagePath d validPlacas w
  = (JS.Normal (errorResult record imagePath (now w) err),
     if bucketOk w
     then snd (writeJSON (failedPath d id)
                 (DAudit (errorResult record imagePath (now w) err)) w)
     else w).
Proof.
  unfold outcome, auditRecord, getBucket, clock, seq, ret. intros ->.
  fold id. destruct (bucketOk w); [| reflexivity].
  destruct (writeJSON _ _ w) as [b w']. reflexivity.
Qed.

Lemma auditRecord_undefined :
  outcome = Threw None ->
  exists e,
    auditRecord o maxRetries record imagePath d validPlacas w = (JS.Throw e, w).
Proof.
  unfold outcome, auditRecord, getBucket, clock, seq, ret. intros ->.
  eexists. reflexivity.
Qed.

Lemma auditRecord_returns :
  (0 < maxRetries)%nat ->
  exists r,
    fst (auditRecord o maxRetries record imagePath d validPlacas w)
    = JS.Normal r.
Proof.
  intros Hpos.
  pose proof (auditWithGemini_throws_errors (bucketOk w) o record imagePath
                validPlacas maxRetries Hpos) as Hne.
  fold outcome in Hne.
  destruct outcome as [[score why | extracciones confianzas v score]
                      | [err |]] eqn:Ho.
  - rewrite (auditRecord_manual_review score why Ho). eauto.
  - rewrite (auditRecord_validated extracciones confianzas v score Ho). eauto.
  - rewrite (auditRecord_thrown err Ho). eauto.
  - contradiction.
Qed.

End RecordFacts.

Section BatchFacts.
Import Bucket Gemini Audit.


End BatchFacts.

Section FailureFacts.
Import Bucket Gemini Audit.







(** The store refuses the first write and accepts the following calls. *)
Definition firstWriteFails : world :=
  {| bucketOk := true; objects := ∅; faults := [true];
     now := "2025-12-11T06:00:00.000Z" |}.

End FailureFacts.



(** * Further properties

    What follows covers code the claims above leave aside: the date
    helpers of [utils.js], the rows [extract.js] builds, the consistency of
    what the validator and the orchestrator return, the ledger of
    [bucket.js] in both directions, the batch run and the report of
    [audit.js], and the reply cleaning and the effort of the retry loop of
    [gemini.js]. *)

(** ** The date helpers and the rows of the audit *)

Section UtilsFacts.
Import JS Validation.

Lemma lacks_append (sep : ascii) (a b : string) :
  lacks sep (a +:+ b) = lacks sep a && lacks sep b.
Proof.
  induction a as [| c a IH]; [reflexivity |].
  rewrite append_cons. cbn [lacks]. rewrite IH, andb_assoc. reflexivity.
Qed.

Lemma append_assoc (a b c : string) : (a +:+ b) +:+ c = a +:+ (b +:+ c).
Proof.
  induction a as [| x a IH]; [reflexivity |].
  rewrite !append_cons, IH. reflexivity.
Qed.

(** The pieces [split] cuts a string into hold no separator. *)
Lemma splitAux_pieces (sep : ascii) (s cur : string) :
  lacks sep cur = true -> Forall (fun p => lacks sep p = true) (splitAux sep cur s).
Proof.
  revert cur. induction s as [| c r IH]; intros cur Hc; cbn.
  - constructor; [exact Hc | constructor].
  - destruct (Ascii.eqb c sep) eqn:E.
    + constructor; [exact Hc | apply IH; reflexivity].
    + apply IH. rewrite lacks_append, Hc. cbn. rewrite E. reflexivity.
Qed.

(** Three pieces joined by the separator are cut back into the three. *)
Lemma split_three (sep : ascii) (a b c : string) :
  lacks sep a = true -> lacks sep b = true -> lacks sep c = true ->
  split sep (a +:+ String sep (b +:+ String sep c)) = [a; b; c].
Proof.
  intros Ha Hb Hc. unfold split.
  rewrite splitAux_append by exact Ha.
  rewrite splitAux_append by exact Hb.
  rewrite splitAux_lacks by exact Hc. reflexivity.
Qed.

Definition mdy (m d y : string) : string := m +:+ "/" +:+ d +:+ "/" +:+ y.

Lemma formatAppsheetDate_parts (s m d y : string) (more : list string) :
  s <> EmptyString ->
  split "/" (hd EmptyString (split " " s)) = m :: d :: y :: more ->
  m <> EmptyString -> d <> EmptyString -> y <> EmptyString ->
  Utils.formatAppsheetDate (VStr s) = VStr (mdy d m y).
Proof.
  intros Hs Hp Hm Hd Hy. unfold Utils.formatAppsheetDate.
  rewrite truthy_VStr.
  destruct (String.eqb_spec s EmptyString) as [-> | _]; [contradiction |].
  cbn [negb]. rewrite Hp. cbn [Utils.element nth_error].
  rewrite !truthy_VStr.
  destruct (String.eqb_spec y EmptyString) as [-> | _]; [contradiction |].
  destruct (String.eqb_spec m EmptyString) as [-> | _]; [contradiction |].
  destruct (String.eqb_spec d EmptyString) as [-> | _]; [contradiction |].
  reflexivity.
Qed.


(** A part of a written date: not empty, without slash or space. *)
Definition datePart (s : string) : Prop :=
  s <> EmptyString /\ lacks "/" s = true /\ lacks " " s = true.

Lemma formatAppsheetDate_mdy (m d y s : string) :
  datePart m -> datePart d -> datePart y ->
  s = mdy m d y \/ (exists time, s = mdy m d y +:+ " " +:+ time) ->
  Utils.formatAppsheetDate (VStr s) = VStr (mdy d m y).
Proof.
  intros (Hm & Hms & Hmb) (Hd & Hds & Hdb) (Hy & Hys & Hyb) Hs.
  assert (Hb : lacks " " (mdy m d y) = true).
  { unfold mdy. rewrite !lacks_append, Hmb, Hdb, Hyb. reflexivity. }
  assert (Hne : s <> EmptyString).
  { destruct Hs as [-> | [time ->]]; destruct m; try contradiction;
      discriminate. }
  assert (Hh : hd EmptyString (split " " s) = mdy m d y).
  { destruct Hs as [-> | [time ->]]; unfold split.
    - rewrite splitAux_lacks by exact Hb. reflexivity.
    - change (mdy m d y +:+ " " +:+ time)
        with (mdy m d y +:+ String " " time).
      rewrite splitAux_append by exact Hb. reflexivity. }
  apply (formatAppsheetDate_parts s m d y []); try assumption.
  rewrite Hh. apply split_three; assumption.
Qed.

Lemma two_datePart (n : Z) : 0 <= n < 100 -> datePart (two n).
Proof.
  intros Hn. split; [discriminate |]. split; [apply two_lacks_slash, Hn |].
  revert n Hn. apply (checked_below (fun n => lacks " " (two n))).
  vm_compute. reflexivity.
Qed.

Lemma four_datePart (n : Z) : 0 <= n < 10000 -> datePart (four n).
Proof.
  intros Hn. split; [discriminate |].
  split; [apply (four_year n Hn) |].
  unfold four. rewrite lacks_append.
  destruct (two_datePart (n / 100)) as (_ & _ & ->);
    [split; [apply Z.div_pos | apply Z.div_lt_upper_bound]; lia |].
  destruct (two_datePart (n mod 100)) as (_ & _ & ->);
    [apply Z.mod_pos_bound; lia |].
  reflexivity.
Qed.

Lemma ddmmyyyy_mdy (d m y : Z) : ddmmyyyy d m y = mdy (two d) (two m) (four y).
Proof. reflexivity. Qed.


End UtilsFacts.

(** X1. A table date [m/d/y], with or without a time of day after a space, is
    stored day first, as [d/m/y]: the parts being non-empty and free of
    slashes and spaces. *)
Theorem formatAppsheetDate_day_first (m d y time : string) :
  datePart m -> datePart d -> datePart y ->
  Utils.formatAppsheetDate (JS.VStr (mdy m d y)) = JS.VStr (mdy d m y)
  /\ Utils.formatAppsheetDate (JS.VStr (mdy m d y +:+ " " +:+ time))
     = JS.VStr (mdy d m y).
Proof.
  intros Hm Hd Hy. split; apply formatAppsheetDate_mdy; try assumption.
  - left. reflexivity.
  - right. exists time. reflexivity.
Qed.

Lemma formatAppsheetDate_day_first_witness :
  Utils.formatAppsheetDate (JS.VStr "12/10/2025") = JS.VStr "10/12/2025"
  /\ Utils.formatAppsheetDate (JS.VStr "12/10/2025 14:05:00")
     = JS.VStr "10/12/2025".
Proof.
  apply (formatAppsheetDate_day_first "12" "10" "2025" "14:05:00");
    (split; [discriminate | split; reflexivity]).
Defined.

(** X2. Whatever the table delivers, the stored date is [null] or a string
    [d/m/y] of three non-empty parts without slash, taken from the first
    three slash-separated parts [m], [d], [y] of the value up to its first
    space. No date, an empty one, fewer than three parts or an empty part
    give [null]; [undefined] and the empty string are never stored. *)
Theorem formatAppsheetDate_null_or_date (v : JS.value) :
  Utils.formatAppsheetDate v = JS.VNull
  \/ exists s m d y more,
       v = JS.VStr s
       /\ JS.split "/" (hd EmptyString (JS.split " " s)) = m :: d :: y :: more
       /\ (m <> EmptyString /\ lacks "/" m = true)
       /\ (d <> EmptyString /\ lacks "/" d = true)
       /\ (y <> EmptyString /\ lacks "/" y = true)
       /\ Utils.formatAppsheetDate v = JS.VStr (mdy d m y).
Proof.
  destruct v as [| | s]; [left; reflexivity | left; reflexivity |].
  unfold Utils.formatAppsheetDate. rewrite truthy_VStr.
  destruct (String.eqb_spec s EmptyString) as [-> | Hs]; [left; reflexivity |].
  cbn [negb].
  pose proof (splitAux_pieces "/" (hd EmptyString (JS.split " " s))
                EmptyString eq_refl) as Hp.
  fold (JS.split "/" (hd EmptyString (JS.split " " s))) in Hp.
  destruct (JS.split "/" (hd EmptyString (JS.split " " s)))
    as [| m [| d [| y more]]] eqn:E; try (left; reflexivity).
  cbn [Utils.element nth_error]. rewrite !truthy_VStr.
  inversion Hp as [| ? ? Hm Hp1]; subst.
  inversion Hp1 as [| ? ? Hd Hp2]; subst.
  inversion Hp2 as [| ? ? Hy _]; subst.
  destruct (String.eqb_spec y EmptyString) as [-> | Hy0]; [left; reflexivity |].
  destruct (String.eqb_spec m EmptyString) as [-> | Hm0]; [left; reflexivity |].
  destruct (String.eqb_spec d EmptyString) as [-> | Hd0]; [left; reflexivity |].
  right. exists s, m, d, y, more. repeat split; assumption || reflexivity.
Qed.

(** X3. End to end, for a row whose table date is the day [d] of month [m] of
    year [y] written [MM/DD/YYYY], a time of day possibly following: the
    stored reference date is [DD/MM/YYYY], and an extracted date
    [DD/MM/YYYY] matches it exactly when the two days are at most two days
    apart. (A year below 100 is read as a year of the 1900s.) *)
Theorem reference_date_compared_day_first
    (m d y m' d' y' : Z) (tableDate : string) :
  0 <= d < 100 -> 1 <= m <= 12 -> 0 <= y < 10000 ->
  0 <= d' < 100 -> 1 <= m' <= 12 -> 0 <= y' < 10000 ->
  tableDate = mdy (two m) (two d) (four y)
  \/ (exists time, tableDate = mdy (two m) (two d) (four y) +:+ " " +:+ time) ->
  let stored := Utils.formatAppsheetDate (JS.VStr tableDate) in
  stored = JS.VStr (ddmmyyyy d m y)
  /\ Validation.coincide
       (Validation.compareDates (ddmmyyyy d' m' y') stored)
     = (Z.abs (civilDay d' m' y' - civilDay d m y) <=? 2).
Proof.
  intros Hd Hm Hy Hd' Hm' Hy' Ht stored.
  assert (Hs : stored = JS.VStr (ddmmyyyy d m y)).
  { unfold stored. rewrite ddmmyyyy_mdy.
    apply formatAppsheetDate_mdy; try assumption;
      [apply two_datePart | apply two_datePart | apply four_datePart]; lia. }
  split; [exact Hs |]. rewrite Hs.
  rewrite (compareDates_valid _ _ (civilDay d' m' y') (civilDay d m y));
    try (apply dayNumber_ddmmyyyy; assumption); try discriminate.
  destruct (Z.abs (civilDay d' m' y' - civilDay d m y) =? 0) eqn:E0.
  - apply Z.eqb_eq in E0. rewrite E0. reflexivity.
  - destruct (Z.abs (civilDay d' m' y' - civilDay d m y) <=? 2); reflexivity.
Qed.

Lemma reference_date_compared_day_first_witness :
  Utils.formatAppsheetDate (JS.VStr "12/10/2025 14:05:00")
  = JS.VStr "10/12/2025"
  /\ Validation.coincide
       (Validation.compareDates "12/12/2025"
          (Utils.formatAppsheetDate (JS.VStr "12/10/2025 14:05:00")))
     = true.
Proof.
  apply (reference_date_compared_day_first 12 10 2025 12 12 2025
           "12/10/2025 14:05:00"); try lia.
  right. exists "14:05:00". reflexivity.
Defined.

(** X4. The partition of a day. A date [m/d/y] of slash-free parts is stored
    under [y/m/d]; two such dates share a partition only when they are the
    same date; a string without slash has no day and no year, and its
    partition is spelled with [undefined]. *)
Theorem getDatePath_partition :
  (forall m d y : string,
     lacks "/" m = true -> lacks "/" d = true -> lacks "/" y = true ->
     Utils.getDatePath (mdy m d y) = mdy y m d)
  /\ (forall m d y m' d' y' : string,
        lacks "/" m = true -> lacks "/" d = true -> lacks "/" y = true ->
        lacks "/" m' = true -> lacks "/" d' = true -> lacks "/" y' = true ->
        Utils.getDatePath (mdy m d y) = Utils.getDatePath (mdy m' d' y') ->
        mdy m d y = mdy m' d' y')
  /\ (forall s : string,
        lacks "/" s = true ->
        Utils.getDatePath s = "undefined/" +:+ s +:+ "/undefined").
Proof.
  assert (H3 : forall m d y : string,
             lacks "/" m = true -> lacks "/" d = true -> lacks "/" y = true ->
             Utils.getDatePath (mdy m d y) = mdy y m d).
  { intros m d y Hm Hd Hy. unfold Utils.getDatePath.
    change (mdy m d y) with (m +:+ String "/" (d +:+ String "/" y)).
    rewrite split_three by assumption. reflexivity. }
  split; [exact H3 |]. split.
  - intros m d y m' d' y' Hm Hd Hy Hm' Hd' Hy' He.
    rewrite !H3 in He by assumption.
    apply (f_equal (JS.split "/")) in He.
    change (mdy y m d) with (y +:+ String "/" (m +:+ String "/" d)) in He.
    change (mdy y' m' d') with (y' +:+ String "/" (m' +:+ String "/" d')) in He.
    rewrite !split_three in He by assumption.
    injection He as -> -> ->. reflexivity.
  - intros s Hs. unfold Utils.getDatePath, JS.split.
    rewrite splitAux_lacks by exact Hs. reflexivity.
Qed.

Section RowFacts.
Import JS Validation.


End RowFacts.


(** X6. The date comparison does not depend on which of the two dates is the
    extracted one. *)
Theorem compareDates_symmetric (a b : string) :
  Validation.compareDates a (JS.VStr b) = Validation.compareDates b (JS.VStr a).
Proof.
  unfold Validation.compareDates. rewrite !truthy_VStr.
  destruct (String.eqb a EmptyString), (String.eqb b EmptyString);
    cbn [negb orb]; try reflexivity.
  assert (Hd : Validation.diffDays (Validation.parseDate a)
                 (Validation.parseDate b)
               = Validation.diffDays (Validation.parseDate b)
                   (Validation.parseDate a)).
  { unfold Validation.diffDays.
    destruct (Validation.parseDate a) as [x |],
             (Validation.parseDate b) as [y |]; try reflexivity.
    replace (y - x) with (- (x - y)) by lia. rewrite Z.abs_opp. reflexivity. }
  cbv zeta. rewrite Hd. reflexivity.
Qed.

(** ** What the validator and the orchestrator return *)

Section ResultFacts.
Import JS Bucket Gemini Audit.

(** A validated result of one iteration comes from the validator. *)
Lemma attemptBody_audit (o : oracle) (record : Viaje.t)
    (validPlacas : list string) (maxRetries attempt : nat)
    (evs : list event) (ex : fields string) (co : fields number)
    (v : Validation.validation) (q : option number) :
  attemptBody o record validPlacas maxRetries attempt
  = (evs, Return (Audit ex co v q)) ->
  exists x,
    Validation.validateExtraction x record validPlacas = Normal v
    /\ ex = mapFields Validation.valor x.
Proof.
  unfold attemptBody.
  destruct (imageError o); [discriminate |].
  set (gate := if (attempt =? 0)%nat then _ else None).
  destruct gate as [[[score [|]] reason] |];
    try (intros [= _ H]; discriminate H);
    (destruct (respond o attempt) as [e | msg | x];
     [ discriminate
     | destruct (_ <? _); discriminate
     | destruct (Validation.validateExtraction x record validPlacas)
         as [v' | e] eqn:Hv;
       [ intros [= _ <- _ <- _]; exists x; split; [exact Hv | reflexivity]
       | discriminate ] ]).
Qed.

Lemma attempts_audit (o : oracle) (record : Viaje.t)
    (validPlacas : list string) (maxRetries remaining : nat) :
  forall (attempt : nat) (lastError : option error)
         (ex : fields string) (co : fields number)
         (v : Validation.validation) (q : option number),
    snd (attempts o record validPlacas maxRetries remaining attempt lastError)
    = Returned (Audit ex co v q) ->
    exists x,
      Validation.validateExtraction x record validPlacas = Normal v
      /\ ex = mapFields Validation.valor x.
Proof.
  induction remaining as [| rest IH]; intros attempt lastError ex co v q.
  - discriminate.
  - cbn [attempts].
    destruct (attemptBody o record validPlacas maxRetries attempt)
      as [evs [r | err delay | e]] eqn:Hb.
    + cbn [snd]. intros [= ->]. exact (attemptBody_audit _ _ _ _ _ _ _ _ _ _ Hb).
    + specialize (IH (S attempt) (Some err) ex co v q).
      destruct (attempts _ _ _ _ rest _ _) as [evs' out]. exact IH.
    + destruct (_ || _); [discriminate |].
      specialize (IH (S attempt) (Some e) ex co v q).
      destruct (attempts _ _ _ _ rest _ _) as [evs' out]. exact IH.
Qed.


Lemma forallb_map_id {A} (f : A -> bool) (l : list A) :
  forallb id (map f l) = forallb f l.
Proof. induction l as [| a l IH]; cbn; [| rewrite IH]; reflexivity. Qed.

Lemma forallb_false_Exists {A} (f : A -> bool) (l : list A) :
  forallb f l = false -> Exists (fun a => f a = false) l.
Proof.
  induction l as [| a l IH]; cbn; [discriminate |].
  destruct (f a) eqn:E; cbn.
  - intros H. apply Exists_cons_tl, IH, H.
  - intros _. apply Exists_cons_hd, E.
Qed.

(** What the validator returns, as one table row. *)
Lemma validateExtraction_cases (e : fields Validation.field) (r : Viaje.t)
    (validPlacas : list string) (v : Validation.validation) :
  Validation.validateExtraction e r validPlacas = Normal v ->
  forallb (fun c => Validation.coincide (Validation.result c))
    (values (Validation.comparaciones v)) = allMatch e r
  /\ ((hasEmpty e = true
       /\ Validation.status v = "requiere_revision_manual"
       /\ Validation.aprobado v = false
       /\ Validation.manualReviewReason v
          = Some "Uno o más campos no pudieron ser extraídos")
      \/ (hasEmpty e = false /\ allMatch e r = true /\ anyLow e = false
          /\ Validation.status v = "aprobado"
          /\ Validation.aprobado v = true
          /\ Validation.manualReviewReason v = None)
      \/ (hasEmpty e = false /\ anyLow e = true
          /\ Validation.status v = "requiere_revision_manual"
          /\ Validation.aprobado v = false
          /\ exists why, Validation.manualReviewReason v = Some why
                         /\ why <> EmptyString)
      \/ (hasEmpty e = false /\ allMatch e r = false /\ anyLow e = false
          /\ Validation.status v = "inconsistencias_encontradas"
          /\ Validation.aprobado v = false
          /\ Validation.manualReviewReason v = None)).
Proof.
  intros Hv.
  destruct (Validation.comparePlaca (Validation.valor (placa e))
              (Viaje.placa r)) as [v0 | err] eqn:Hp.
  2: { unfold Validation.validateExtraction in Hv. rewrite Hp in Hv.
       discriminate Hv. }
  destruct (validateExtraction_table e r validPlacas v0 Hp)
    as (v' & Hv' & Hmap & Ht).
  rewrite Hv in Hv'. injection Hv' as <-.
  split.
  { unfold allMatch. rewrite <- Hmap. symmetry. apply forallb_map_id. }
  destruct (hasEmpty e) eqn:He.
  { left. injection Ht as Hs Ha Hr. repeat split; assumption. }
  destruct (allMatch e r) eqn:Ham; destruct (anyLow e) eqn:Hl;
    cbn [andb negb] in Ht; injection Ht as Hs Ha Hr.
  - right; right; left. repeat split; try assumption.
    eexists. split; [exact Hr | discriminate].
  - right; left. repeat split; assumption.
  - right; right; left. repeat split; try assumption.
    eexists. split; [exact Hr | discriminate].
  - right; right; right. repeat split; assumption.
Qed.

End ResultFacts.

(** X7. Every result of the validator is consistent: the status is one of
    three; approval is true exactly for [aprobado]; a reason for manual
    review is given exactly for [requiere_revision_manual]; an approved
    result has four matching comparisons and an [inconsistencias_encontradas]
    one has a comparison that fails. *)
Theorem validateExtraction_result_consistent
    (e : fields Validation.field) (r : Viaje.t) (validPlacas : list string)
    (v : Validation.validation) :
  Validation.validateExtraction e r validPlacas = JS.Normal v ->
  (Validation.status v = "aprobado"
   \/ Validation.status v = "requiere_revision_manual"
   \/ Validation.status v = "inconsistencias_encontradas")
  /\ (Validation.aprobado v = true <-> Validation.status v = "aprobado")
  /\ (Validation.manualReviewReason v <> None
      <-> Validation.status v = "requiere_revision_manual")
  /\ (Validation.aprobado v = true ->
      Forall (fun c => Validation.coincide (Validation.result c) = true)
        (values (Validation.comparaciones v)))
  /\ (Validation.status v = "inconsistencias_encontradas" ->
      Exists (fun c => Validation.coincide (Validation.result c) = false)
        (values (Validation.comparaciones v))).
Proof.
  intros Hv. destruct (validateExtraction_cases e r validPlacas v Hv)
    as (Hall & Hc).
  assert (Hyes : allMatch e r = true ->
                 Forall (fun c => Validation.coincide (Validation.result c) = true)
                   (values (Validation.comparaciones v))).
  { intros Ha. rewrite Ha in Hall. apply List.Forall_forall.
    apply (proj1 (forallb_forall _ _) Hall). }
  assert (Hno : allMatch e r = false ->
                Exists (fun c => Validation.coincide (Validation.result c) = false)
                  (values (Validation.comparaciones v))).
  { intros Ha. rewrite Ha in Hall. apply forallb_false_Exists, Hall. }
  destruct Hc as [(He & Hs & Ha & Hr) | [(He & Ham & Hl & Hs & Ha & Hr)
    | [(He & Hl & Hs & Ha & why & Hr & Hw) | (He & Ham & Hl & Hs & Ha & Hr)]]];
    rewrite Hs, Ha, Hr.
  - repeat split; try discriminate; auto; intros; congruence.
  - repeat split; try discriminate; auto; intros; congruence.
  - repeat split; try discriminate; auto; intros; congruence.
  - repeat split; try discriminate; auto; intros; congruence.
Qed.

Lemma validateExtraction_result_consistent_witness :
  exists v,
    Validation.validateExtraction sampleWrongNumber sampleRow [] = JS.Normal v
    /\ (Validation.manualReviewReason v <> None
        <-> Validation.status v = "requiere_revision_manual").
Proof.
  eexists. split; [vm_compute; reflexivity |].
  apply (validateExtraction_result_consistent sampleWrongNumber sampleRow []).
  vm_compute. reflexivity.
Defined.

Section RecordResultFacts.
Import JS Bucket Gemini Audit.

Lemma discrepanciesOf_compared (c : fields Validation.comparison)
    (ex : fields string) (record : Viaje.t) :
  Forall (fun x => confidence x = None)
    (discrepanciesOf (comparedEntries c) ex record)
  /\ (forallb (fun k => Validation.coincide (Validation.result k)) (values c)
      = true -> discrepanciesOf (comparedEntries c) ex record = [])
  /\ (forallb (fun k => Validation.coincide (Validation.result k)) (values c)
      = false -> discrepanciesOf (comparedEntries c) ex record <> []).
Proof.
  destruct c as [c1 c2 c3 c4].
  unfold discrepanciesOf, comparedEntries, mapFields, values.
  cbn [numeroVale placa m3 fecha entryCoincide entryConfianza forallb].
  destruct (Validation.coincide (Validation.result c1));
    destruct (Validation.coincide (Validation.result c2));
    destruct (Validation.coincide (Validation.result c3));
    destruct (Validation.coincide (Validation.result c4));
    cbn; repeat split; try discriminate; try reflexivity;
    repeat constructor.
Qed.

Lemma auditRecord_outcome (o : oracle) (maxRetries : nat) (record : Viaje.t)
    (imagePath d : string) (validPlacas : list string) (w : world)
    (r : auditResult) :
  fst (auditRecord o maxRetries record imagePath d validPlacas w) = Normal r ->
  (exists score why,
     r = manualReviewResult record imagePath (now w) score why)
  \/ (exists x v,
        Validation.validateExtraction x record validPlacas = Normal v
        /\ r = validatedResult record imagePath (now w)
                 (mapFields Validation.valor x) v)
  \/ (exists err, r = errorResult record imagePath (now w) err).
Proof.
  destruct (snd (auditWithGemini (bucketOk w) o record imagePath validPlacas
                   maxRetries))
    as [[score why | ex co v q] | [err |]] eqn:Ho.
  - rewrite (auditRecord_manual_review _ _ _ _ _ _ _ score why Ho).
    intros [= <-]. left. eauto.
  - rewrite (auditRecord_validated _ _ _ _ _ _ _ ex co v q Ho).
    intros [= <-]. right; left.
    unfold auditWithGemini in Ho.
    destruct (negb (bucketOk w)); [discriminate Ho |].
    destruct (attempts_audit _ _ _ _ _ _ _ _ _ _ _ Ho) as (x & Hx & ->).
    eauto.
  - rewrite (auditRecord_thrown _ _ _ _ _ _ _ err Ho).
    intros [= <-]. right; right. eauto.
  - destruct (auditRecord_undefined o maxRetries record imagePath d
                validPlacas w Ho) as [e He].
    rewrite He. discriminate.
Qed.

Lemma auditRecord_row_id (o : oracle) (maxRetries : nat) (record : Viaje.t)
    (imagePath d : string) (validPlacas : list string) (w : world)
    (r : auditResult) :
  fst (auditRecord o maxRetries record imagePath d validPlacas w) = Normal r ->
  row_id r = Viaje.rowId record /\ image_path r = imagePath.
Proof.
  intros Hr.
  destruct (auditRecord_outcome _ _ _ _ _ _ _ _ Hr)
    as [(score & why & ->) | [(x & v & _ & ->) | (err & ->)]];
    split; reflexivity.
Qed.

End RecordResultFacts.

(** X8. Whatever the oracle does, a result [auditRecord] returns is consistent:
    it carries the row id, the image path and the time of the call; its
    status is one of four; approval is [true] exactly for [aprobado], an
    error message is present exactly for [error], a reason for manual review
    exactly for [requiere_revision_manual]; an approved result lists no
    discrepancy and an [inconsistencias_encontradas] one lists at least one;
    the [confidence] of every discrepancy listed is [undefined]. *)
Theorem auditRecord_result_consistent
    (o : Gemini.oracle) (maxRetries : nat) (record : Viaje.t)
    (imagePath d : string) (validPlacas : list string) (w : Bucket.world)
    (r : auditResult) :
  fst (Audit.auditRecord o maxRetries record imagePath d validPlacas w)
  = JS.Normal r ->
  (row_id r = Viaje.rowId record /\ image_path r = imagePath
   /\ timestamp r = Bucket.now w)
  /\ (status r = "aprobado" \/ status r = "requiere_revision_manual"
      \/ status r = "inconsistencias_encontradas" \/ status r = "error")
  /\ (aprobado r = Some true <-> status r = "aprobado")
  /\ (error r <> None <-> status r = "error")
  /\ (manualReviewReason r <> None <-> status r = "requiere_revision_manual")
  /\ (status r = "aprobado" -> discrepancies r = [])
  /\ (status r = "inconsistencias_encontradas" -> discrepancies r <> [])
  /\ Forall (fun x => confidence x = None) (discrepancies r).
Proof.
  intros Hr.
  destruct (auditRecord_outcome _ _ _ _ _ _ _ _ Hr)
    as [(score & why & ->) | [(x & v & Hv & ->) | (err & ->)]].
  - cbn. repeat split; try discriminate; auto; try congruence; constructor.
  - destruct (validateExtraction_cases x record validPlacas v Hv)
      as (Hall & Hc).
    destruct (discrepanciesOf_compared (Validation.comparaciones v)
                (mapFields Validation.valor x) record) as (Hconf & Hnil & Hsome).
    unfold Audit.validatedResult.
    cbn [row_id image_path timestamp status aprobado error manualReviewReason
         discrepancies].
    destruct Hc as [(He & Hs & Ha & Hw) | [(He & Ham & Hl & Hs & Ha & Hw)
      | [(He & Hl & Hs & Ha & why & Hw & Hne) | (He & Ham & Hl & Hs & Ha & Hw)]]];
      rewrite Hs, Ha, Hw; cbn [JS.truthy String.eqb Ascii.eqb negb].
    + repeat split; try discriminate; auto; try congruence.
    + rewrite Ham in Hall.
      repeat split; try discriminate; auto; try congruence.
    + rewrite (proj2 (String.eqb_neq why EmptyString) Hne).
      cbn [negb].
      repeat split; try discriminate; auto; try congruence.
    + rewrite Ham in Hall.
      repeat split; try discriminate; auto; try congruence.
  - cbn. repeat split; try discriminate; auto; try congruence; constructor.
Qed.

Lemma auditRecord_result_consistent_witness :
  exists r,
    fst (Audit.auditRecord twiceMalformed 4 sampleRow
           "images/2025/12/10/a1b2c3d4.foto_vale.jpg" "2025/12/10" []
           firstWriteFails) = JS.Normal r
    /\ status r = "aprobado" /\ discrepancies r = [].
Proof.
  eexists. split; [vm_compute; reflexivity |].
  split; [vm_compute; reflexivity |].
  refine (proj1 (proj2 (proj2 (proj2 (proj2 (proj2
            (auditRecord_result_consistent twiceMalformed 4 sampleRow
               "images/2025/12/10/a1b2c3d4.foto_vale.jpg" "2025/12/10" []
               firstWriteFails _ _)))))) _).
  - vm_compute. reflexivity.
  - vm_compute. reflexivity.
Defined.

Section BatchResultFacts.
Import JS Bucket Gemini Audit.

Lemma auditEach_row_ids (oracleOf : Viaje.t -> oracle) (maxRetries : nat)
    (d : string) (validPlacas : list string) :
  (0 < maxRetries)%nat ->
  forall (unprocessed : list Viaje.t) (results : list auditResult) (w : world),
    exists handled,
      fst (auditEach oracleOf maxRetries d validPlacas unprocessed results w)
      = Normal (results ++ handled)
      /\ map row_id handled = map Viaje.rowId unprocessed
      /\ map image_path handled = map (imagePathOf d) unprocessed.
Proof.
  intros Hpos unprocessed.
  induction unprocessed as [| record rest IH]; intros results w.
  - exists []. rewrite app_nil_r. repeat split; reflexivity.
  - cbn [auditEach]. unfold seq.
    destruct (auditRecord_returns (oracleOf record) maxRetries record
                (imagePathOf d record) d validPlacas w Hpos) as [r Hr].
    destruct (auditRecord_row_id _ _ _ _ _ _ _ _ Hr) as (Hid & Him).
    destruct (auditRecord (oracleOf record) maxRetries record
                (imagePathOf d record) d validPlacas w) as [res w1].
    cbn [fst] in Hr. subst res.
    destruct (IH (results ++ [r]) w1) as (handled & Hrun & Hids & Hims).
    exists (r :: handled). rewrite Hrun, <- app_assoc. cbn [app map].
    rewrite Hid, Him, Hids, Hims. repeat split; reflexivity.
Qed.

End BatchResultFacts.

(** X9. With a retry bound of at least one, a batch run returns one result per
    record the selection leaves, in the order of the records, each under the
    id of its record and for the image [images/<d>/<last segment of
    fotoVale>]; no record whose id the ledger read returned is audited. *)
Theorem auditAllRecords_one_result_per_record
    (oracleOf : Viaje.t -> Gemini.oracle) (maxRetries : nat)
    (records : list Viaje.t) (d : string) (w : Bucket.world) :
  (0 < maxRetries)%nat ->
  let unprocessed := fst (Audit.getUnprocessedRecords records d w) in
  exists results,
    fst (Audit.auditAllRecords oracleOf maxRetries records d w)
    = JS.Normal results
    /\ map row_id results = map Viaje.rowId unprocessed
    /\ map image_path results = map (Audit.imagePathOf d) unprocessed
    /\ Forall (fun id => ~ In id (fst (Bucket.getProcessedRowIds d w)))
         (map row_id results).
Proof.
  intros Hpos unprocessed.
  assert (Hsel : Forall (fun id => ~ In id (fst (Bucket.getProcessedRowIds d w)))
                   (map Viaje.rowId unprocessed)).
  { apply List.Forall_forall. intros id Hin. apply in_map_iff in Hin.
    destruct Hin as (rec & <- & Hrec).
    apply (getUnprocessedRecords_In records d w rec) in Hrec. apply Hrec. }
  unfold Audit.auditAllRecords, Bucket.seq.
  fold unprocessed in Hsel |- *.
  destruct (Audit.getUnprocessedRecords records d w) as [sel w1] eqn:Hu.
  cbn [fst] in unprocessed. subst unprocessed.
  destruct sel as [| rec rest].
  - exists []. repeat split; constructor.
  - destruct (Bucket.getBucket w1) as [b w2].
    destruct ((if b then Bucket.getValidPlacas d else Bucket.ret []) w2)
      as [validPlacas w3].
    destruct (auditEach_row_ids oracleOf maxRetries d validPlacas Hpos
                (rec :: rest) [] w3) as (handled & Hrun & Hids & Hims).
    destruct (Audit.auditEach oracleOf maxRetries d validPlacas (rec :: rest)
                [] w3) as [done w4].
    cbn [fst] in Hrun. subst done. cbn [app].
    destruct (Bucket.getBucket w4) as [b' w5].
    exists handled.
    destruct ((0 <? List.length (List.filter Audit.isError handled))%nat && b').
    + destruct (Bucket.clock w5) as [t w6].
      destruct (Bucket.writeJSON _ _ w6) as [ok w7].
      cbn. rewrite <- Hids in Hsel. repeat split; assumption.
    + cbn. rewrite <- Hids in Hsel. repeat split; assumption.
Qed.

Lemma auditAllRecords_one_result_per_record_witness :
  exists results,
    fst (Audit.auditAllRecords (fun _ => twiceMalformed) 4 [sampleRow]
           "2025/12/10" indexLost) = JS.Normal results
    /\ map row_id results = ["a1b2c3d4"].
Proof.
  destruct (auditAllRecords_one_result_per_record (fun _ => twiceMalformed) 4
              [sampleRow] "2025/12/10" indexLost ltac:(lia))
    as (results & Hrun & Hids & _).
  exists results. split; [exact Hrun |]. rewrite Hids. vm_compute. reflexivity.
Defined.

(** ** The ledger, read and written *)

Section BasenameFacts.
Import JS Bucket Audit.



Lemma splitAux_not_nil (sep : ascii) (s cur : string) :
  splitAux sep cur s <> [].
Proof.
  revert cur. induction s as [| c r IH]; intros cur; cbn; [discriminate |].
  destruct (Ascii.eqb c sep); [discriminate | apply IH].
Qed.

Lemma last_cons_not_nil {A} (a dflt : A) (l : list A) :
  l <> [] -> List.last (a :: l) dflt = List.last l dflt.
Proof. destruct l; [contradiction | reflexivity]. Qed.

(** The last piece of a split is the last piece of what follows any
    separator. *)
Lemma last_splitAux (sep : ascii) (a b cur : string) :
  List.last (splitAux sep cur (a +:+ String sep b)) EmptyString
  = List.last (splitAux sep EmptyString b) EmptyString.
Proof.
  revert cur. induction a as [| c a IH]; intros cur.
  - change (EmptyString +:+ String sep b) with (String sep b).
    cbn [splitAux]. rewrite Ascii.eqb_refl.
    apply last_cons_not_nil, splitAux_not_nil.
  - rewrite append_cons. cbn [splitAux].
    destruct (Ascii.eqb c sep).
    + rewrite last_cons_not_nil by apply splitAux_not_nil. apply IH.
    + apply IH.
Qed.

Lemma dropTrailingSlashes_kept (s : string) (c : ascii) :
  Ascii.eqb c "/" = false ->
  dropTrailingSlashes (s +:+ String c EmptyString) = s +:+ String c EmptyString.
Proof.
  intros Hc. induction s as [| x s IH].
  - change (EmptyString +:+ String c EmptyString) with (String c EmptyString).
    cbn [dropTrailingSlashes]. rewrite Hc. reflexivity.
  - rewrite append_cons. cbn [dropTrailingSlashes]. rewrite IH.
    destruct s; reflexivity.
Qed.

Lemma dropChars_append (a b : string) :
  dropChars (String.length a) (a +:+ b) = b.
Proof.
  induction a as [| x a IH]; [destruct b; reflexivity |].
  rewrite append_cons. cbn [String.length dropChars]. exact IH.
Qed.

Lemma takeChars_append (a b : string) :
  takeChars (String.length a) (a +:+ b) = a.
Proof.
  induction a as [| x a IH]; [destruct b; reflexivity |].
  rewrite append_cons. cbn [String.length takeChars]. rewrite IH. reflexivity.
Qed.

Lemma length_append (a b : string) :
  String.length (a +:+ b) = (String.length a + String.length b)%nat.
Proof.
  induction a as [| x a IH]; [reflexivity |].
  rewrite append_cons. cbn [String.length]. rewrite IH. reflexivity.
Qed.

(** The name of a result file gives back the id it was stored under. *)
Lemma basename_json (dir id : string) :
  id <> EmptyString -> lacks "/" id = true ->
  basename (dir +:+ "/" +:+ id +:+ ".json") ".json" = id.
Proof.
  intros Hne Hid. unfold basename.
  assert (Hlen : String.length (dir +:+ "/" +:+ id +:+ ".json")
                 <> String.length ".json").
  { rewrite !length_append. destruct id; [contradiction |]. cbn. lia. }
  destruct (String.eqb_spec (dir +:+ "/" +:+ id +:+ ".json") ".json") as [E | _].
  { rewrite E in Hlen. contradiction. }
  change (dir +:+ "/" +:+ id +:+ ".json")
    with (dir +:+ String "/" (id +:+ ".json")).
  replace (dir +:+ String "/" (id +:+ ".json"))
    with ((dir +:+ String "/" (id +:+ ".jso")) +:+ String "n" EmptyString).
  2: { rewrite append_assoc. rewrite append_cons.
       f_equal. f_equal. rewrite append_assoc. reflexivity. }
  rewrite dropTrailingSlashes_kept by reflexivity.
  replace ((dir +:+ String "/" (id +:+ ".jso")) +:+ String "n" EmptyString)
    with (dir +:+ String "/" (id +:+ ".json")).
  2: { rewrite append_assoc. rewrite append_cons.
       f_equal. f_equal. rewrite append_assoc. reflexivity. }
  unfold split. rewrite last_splitAux.
  rewrite splitAux_lacks
    by (rewrite lacks_append, Hid; reflexivity).
  change (EmptyString +:+ (id +:+ ".json")) with (id +:+ ".json").
  cbn [List.last].
  assert (He : endsWith (id +:+ ".json") ".json" = true).
  { unfold endsWith. rewrite length_append.
    replace (String.length id + String.length ".json"
             - String.length ".json")%nat with (String.length id) by lia.
    rewrite dropChars_append.
    apply andb_true_intro. split; [apply Nat.leb_le; lia | reflexivity]. }
  rewrite He.
  destruct (String.eqb_spec (id +:+ ".json") ".json") as [E | _].
  { apply (f_equal String.length) in E. rewrite length_append in E.
    destruct id; [contradiction | cbn in E; lia]. }
  cbn [negb andb]. rewrite length_append.
  replace (String.length id + String.length ".json"
           - String.length ".json")%nat with (String.length id) by lia.
  apply takeChars_append.
Qed.

Lemma basename_processedPath (d id : string) :
  id <> EmptyString -> lacks "/" id = true ->
  basename (processedPath d id) ".json" = id.
Proof.
  intros Hne Hid. unfold processedPath.
  replace ("audits/" +:+ d +:+ "/processed/" +:+ id +:+ ".json")
    with (("audits/" +:+ d +:+ "/processed") +:+ "/" +:+ id +:+ ".json").
  - apply basename_json; assumption.
  - rewrite !append_assoc. reflexivity.
Qed.

End BasenameFacts.

Section CalmLedgerFacts.
Import JS Bucket Audit.

Lemma listFiles_calm (p : string) (objs : gmap string doc) (t : string) :
  listFiles p (calm objs t) = (namesUnder p objs, calm objs t).
Proof. reflexivity. Qed.

(** The ids the fall-back listing gives. *)
Definition listedIds (objs : gmap string doc) (d : string) : list string :=
  map (fun n => basename n ".json") (namesUnder (processedPrefix d) objs).

Lemma rebuildFromListing_calm (d : string) (objs : gmap string doc)
    (t : string) :
  rebuildFromListing d (calm objs t)
  = (listedIds objs d,
     calm (if (0 <? List.length (listedIds objs d))%nat
           then <[indexPath d :=
                    DIndex (listedIds objs d)
                      (List.length (listedIds objs d)) t]> objs
           else objs) t).
Proof.
  unfold rebuildFromListing, seq, ret. rewrite listFiles_calm.
  fold (listedIds objs d).
  destruct (0 <? List.length (listedIds objs d))%nat; [| reflexivity].
  rewrite updateProcessedIndex_calm. reflexivity.
Qed.

Lemma getProcessedRowIds_calm (d : string) (objs : gmap string doc)
    (t : string) :
  getProcessedRowIds d (calm objs t)
  = match processedIdsOf (objs !! indexPath d) with
    | Some ids => (ids, calm objs t)
    | None => rebuildFromListing d (calm objs t)
    end.
Proof.
  unfold getProcessedRowIds, seq, ret. rewrite fileExists_calm.
  destruct (objs !! indexPath d) as [x |] eqn:E.
  - rewrite bool_decide_eq_true_2 by eauto.
    rewrite readJSON_calm, E. destruct (processedIdsOf (Some x)); reflexivity.
  - rewrite bool_decide_eq_false_2 by (intros [x Hx]; discriminate).
    reflexivity.
Qed.

Lemma NoDup_snoc {A} (l : list A) (a : A) :
  List.NoDup l -> ~ In a l -> List.NoDup (l ++ [a]).
Proof.
  induction l as [| x l IH]; intros Hnd Hn; cbn.
  - constructor; [intros [] | constructor].
  - inversion Hnd as [| ? ? Hx Hl]; subst. constructor.
    + intros Hin. apply in_app_or in Hin. destruct Hin as [Hin | [-> | []]].
      * exact (Hx Hin).
      * apply Hn. left. reflexivity.
    + apply IH; [exact Hl |]. intros Hin. apply Hn. right. exact Hin.
Qed.

Lemma indexIds_insert (objs : gmap string doc) (d : string)
    (ids : list string) (n : nat) (stamp : string) :
  indexIds (<[indexPath d := DIndex ids n stamp]> objs) d = ids.
Proof. unfold indexIds. rewrite lookup_insert_eq. reflexivity. Qed.

Lemma getProcessedRowIds_indexed (d : string) (objs : gmap string doc)
    (t : string) (ids : list string) (n : nat) (stamp : string) :
  objs !! indexPath d = Some (DIndex ids n stamp) ->
  getProcessedRowIds d (calm objs t) = (ids, calm objs t).
Proof. intros E. rewrite getProcessedRowIds_calm, E. reflexivity. Qed.

End CalmLedgerFacts.

(** X10. Adding an id to the index, with a bucket and no storage call failing:
    the id is appended when the index does not list it, and nothing is
    written when it does; so the id is listed afterwards, the ids listed
    before stay, in their order, no id is listed twice if none was, no
    other object changes, and adding the id again changes nothing. *)
Theorem addToProcessedIndex_appends_once
    (d id : string) (objs : gmap string doc) (t : string) :
  let w' := snd (Bucket.addToProcessedIndex d id (calm objs t)) in
  indexIds (Bucket.objects w') d
  = (if Bucket.includes (indexIds objs d) id then indexIds objs d
     else indexIds objs d ++ [id])
  /\ In id (indexIds (Bucket.objects w') d)
  /\ (forall other, In other (indexIds objs d) ->
                    In other (indexIds (Bucket.objects w') d))
  /\ (List.NoDup (indexIds objs d) ->
      List.NoDup (indexIds (Bucket.objects w') d))
  /\ (forall p, p <> Bucket.indexPath d ->
                Bucket.objects w' !! p = objs !! p)
  /\ snd (Bucket.addToProcessedIndex d id w') = w'.
Proof.
  intros w'. unfold w'. rewrite addToProcessedIndex_calm.
  destruct (Bucket.includes (indexIds objs d) id) eqn:Hi; cbn [Bucket.objects calm].
  - repeat split; auto.
    + apply includes_In, Hi.
    + rewrite addToProcessedIndex_calm, Hi. reflexivity.
  - rewrite indexIds_insert.
    assert (Hnot : ~ In id (indexIds objs d)).
    { intros Hin. apply includes_In in Hin. congruence. }
    repeat split.
    + apply in_or_app. right. left. reflexivity.
    + intros other Ho. apply in_or_app. left. exact Ho.
    + intros Hnd. apply NoDup_snoc; assumption.
    + intros p Hp. apply lookup_insert_ne. congruence.
    + rewrite addToProcessedIndex_calm, indexIds_insert.
      assert (Hin : Bucket.includes (indexIds objs d ++ [id]) id = true).
      { apply includes_In, in_or_app. right. left. reflexivity. }
      rewrite Hin. reflexivity.
Qed.

Section ResumeFacts.
Import JS Bucket Gemini Audit.

Lemma indexIds_In (objs : gmap string doc) (d id : string) :
  In id (indexIds objs d) ->
  exists ids, processedIdsOf (objs !! indexPath d) = Some ids /\ In id ids.
Proof.
  unfold indexIds. destruct (processedIdsOf (objs !! indexPath d)) as [ids |].
  - intros H. exists ids. split; [reflexivity | exact H].
  - intros [].
Qed.

Lemma getProcessedRowIds_indexIds (objs : gmap string doc) (d id t : string) :
  In id (indexIds objs d) ->
  getProcessedRowIds d (calm objs t) = (indexIds objs d, calm objs t).
Proof.
  intros Hin. destruct (indexIds_In objs d id Hin) as (ids & Hids & _).
  rewrite getProcessedRowIds_calm. unfold indexIds. rewrite Hids. reflexivity.
Qed.

Lemma prefix_append_self (a b : string) : String.prefix a (a +:+ b) = true.
Proof.
  induction a as [| x a IH]; [destruct b; reflexivity |].
  rewrite append_cons. cbn [String.prefix].
  destruct (ascii_dec x x) as [_ | N]; [exact IH | contradiction].
Qed.

Lemma prefix_processedPath (d id : string) :
  String.prefix (processedPrefix d) (processedPath d id) = true.
Proof.
  unfold processedPrefix, processedPath. rewrite !prefix_append.
  apply prefix_append_self.
Qed.

End ResumeFacts.

(** X11. Reading the ledger when the index document is there, with a bucket and
    no storage call failing: the ids of the index are returned as they are
    and nothing is listed or written, also when the index lists no id at
    all; and the ids written with [updateProcessedIndex] are the ids read
    back. *)
Theorem getProcessedRowIds_reads_index
    (d : string) (objs : gmap string doc) (t : string) :
  (forall (ids : list string) (n : nat) (stamp : string),
     objs !! Bucket.indexPath d = Some (DIndex ids n stamp) ->
     Bucket.getProcessedRowIds d (calm objs t) = (ids, calm objs t))
  /\ (forall ids : list string,
        fst (Bucket.getProcessedRowIds d
               (snd (Bucket.updateProcessedIndex d ids (calm objs t))))
        = ids).
Proof.
  split.
  - intros ids n stamp E. apply (getProcessedRowIds_indexed d objs t ids n stamp E).
  - intros ids. rewrite updateProcessedIndex_calm. cbn [snd].
    erewrite getProcessedRowIds_indexed; [reflexivity |].
    apply lookup_insert_eq.
Qed.

(** X12. Reading the ledger when there is no index document (or one without the
    list of ids), with a bucket and no storage call failing: every result
    stored under the processed path of an id that is not empty and has no
    slash gives that id back; every id returned is the base name of an
    object under the processed prefix; when some id is found the index is
    written with the ids returned, and the next read returns them from it;
    when none is found nothing is written. *)
Theorem getProcessedRowIds_rebuilds_from_results
    (d : string) (objs : gmap string doc) (t : string) :
  Bucket.processedIdsOf (objs !! Bucket.indexPath d) = None ->
  let run := Bucket.getProcessedRowIds d (calm objs t) in
  (forall id, id <> EmptyString -> lacks "/" id = true ->
              is_Some (objs !! Audit.processedPath d id) -> In id (fst run))
  /\ (forall id, In id (fst run) -> listedAsProcessed objs d id)
  /\ (fst run <> [] ->
      indexIds (Bucket.objects (snd run)) d = fst run
      /\ Bucket.getProcessedRowIds d (snd run) = (fst run, snd run))
  /\ (fst run = [] -> snd run = calm objs t).
Proof.
  intros Hno run. unfold run.
  rewrite getProcessedRowIds_calm, Hno, rebuildFromListing_calm.
  cbn [fst snd]. repeat split.
  - intros id Hne Hid Hst. unfold listedIds. apply in_map_iff.
    exists (Audit.processedPath d id). split.
    + apply basename_processedPath; assumption.
    + apply elem_of_namesUnder. split; [exact Hst |].
      apply prefix_processedPath.
  - intros id Hin. unfold listedIds in Hin. apply in_map_iff in Hin.
    destruct Hin as (n & Hb & Hn). apply elem_of_namesUnder in Hn.
    exists n. split; [apply Hn |]. split; [apply Hn | exact Hb].
  - destruct (listedIds objs d) as [| x l] eqn:E; [contradiction |].
    cbn [List.length Nat.ltb Nat.leb Bucket.objects calm].
    apply indexIds_insert.
  - destruct (listedIds objs d) as [| x l] eqn:E; [contradiction |].
    cbn [List.length Nat.ltb Nat.leb].
    apply (getProcessedRowIds_indexed d _ t (x :: l) (S (List.length l)) t).
    apply lookup_insert_eq.
  - intros ->. reflexivity.
Qed.

Lemma getProcessedRowIds_rebuilds_from_results_witness :
  In "e5f6a7b8" (fst (Bucket.getProcessedRowIds "2025/12/10" indexLost)).
Proof.
  refine (proj1 (getProcessedRowIds_rebuilds_from_results "2025/12/10"
                   (Bucket.objects indexLost) (Bucket.now indexLost) _)
            "e5f6a7b8" _ _ _).
  - vm_compute. reflexivity.
  - discriminate.
  - reflexivity.
  - vm_compute. eauto.
Defined.

Section TruncationFacts.
Import JS Bucket Gemini Audit.

(** A bucket whose next storage calls fail as [schedule] says. *)
Definition failing (objs : gmap string doc) (schedule : list bool)
    (t : string) : world :=
  {| bucketOk := true; objects := objs; faults := schedule; now := t |}.

Lemma getUnprocessedRecords_calm_index (records : list Viaje.t)
    (d : string) (objs : gmap string doc) (t : string)
    (ids : list string) (n : nat) (stamp : string) :
  objs !! indexPath d = Some (DIndex ids n stamp) ->
  fst (getUnprocessedRecords records d (calm objs t))
  = List.filter (fun r => negb (includes ids (Viaje.rowId r))) records.
Proof.
  intros E. rewrite getUnprocessedRecords_filters.
  rewrite (getProcessedRowIds_indexed d objs t ids n stamp E). reflexivity.
Qed.

End TruncationFacts.

(** X13. Adding an id to the index when reading the index fails but writing it
    does not: whether the check for the index document is refused, or the
    check goes through and the read of the document is refused, the index
    is written anew with the one id, and the ids it listed are gone. A
    record with another id is then selected again by a run that reads this
    index. *)
Theorem addToProcessedIndex_read_failure_truncates
    (d id : string) (objs : gmap string doc) (t : string)
    (schedule : list bool) :
  hd false schedule = false ->
  let checkRefused :=
    snd (Bucket.addToProcessedIndex d id (failing objs (true :: schedule) t)) in
  let readRefused :=
    snd (Bucket.addToProcessedIndex d id
           (failing objs (false :: true :: schedule) t)) in
  Bucket.objects checkRefused !! Bucket.indexPath d = Some (DIndex [id] 1 t)
  /\ (is_Some (objs !! Bucket.indexPath d) ->
      Bucket.objects readRefused !! Bucket.indexPath d
      = Some (DIndex [id] 1 t))
  /\ (forall (records : list Viaje.t) (rec : Viaje.t) (t' : string),
        In rec records -> Viaje.rowId rec <> id ->
        In rec (fst (Audit.getUnprocessedRecords records d
                       (calm (Bucket.objects checkRefused) t')))).
Proof.
  intros Hs checkRefused readRefused.
  assert (Hc : Bucket.objects checkRefused !! Bucket.indexPath d
               = Some (DIndex [id] 1 t)).
  { unfold checkRefused, failing, Bucket.addToProcessedIndex,
      Bucket.updateProcessedIndex, Bucket.fileExists, Bucket.writeJSON,
      Bucket.clock, Bucket.call, Bucket.seq, Bucket.ret.
    cbn. destruct schedule as [| [|] rest]; [| discriminate Hs |];
      cbn; apply lookup_insert_eq. }
  split; [exact Hc |]. split.
  - intros [x Hx].
    unfold readRefused, failing, Bucket.addToProcessedIndex,
      Bucket.updateProcessedIndex, Bucket.fileExists, Bucket.readJSON,
      Bucket.writeJSON, Bucket.clock, Bucket.call, Bucket.seq, Bucket.ret.
    cbn. rewrite Hx.
    rewrite bool_decide_eq_true_2 by eauto.
    cbn. destruct schedule as [| [|] rest]; [| discriminate Hs |];
      cbn; apply lookup_insert_eq.
  - intros records rec t' Hin Hne.
    rewrite (getUnprocessedRecords_calm_index records d _ t' [id] 1 t Hc).
    apply filter_In. split; [exact Hin |].
    cbn. destruct (String.eqb_spec (Viaje.rowId rec) id); [contradiction |].
    reflexivity.
Qed.

Lemma addToProcessedIndex_read_failure_truncates_witness :
  Bucket.objects
    (snd (Bucket.addToProcessedIndex "2025/12/10" "a1b2c3d4"
            (failing (<[Bucket.indexPath "2025/12/10" :=
                          DIndex ["e5f6a7b8"; "c9d0e1f2"] 2
                            "2025-12-11T05:00:00.000Z"]> ∅)
               [true] "2025-12-11T06:00:00.000Z")))
  !! Bucket.indexPath "2025/12/10"
  = Some (DIndex ["a1b2c3d4"] 1 "2025-12-11T06:00:00.000Z").
Proof.
  apply (addToProcessedIndex_read_failure_truncates "2025/12/10" "a1b2c3d4"
           _ "2025-12-11T06:00:00.000Z" []).
  reflexivity.
Defined.

(** X14. Once [auditRecord] has handled a record the oracle caller returned a
    result for, with a bucket and no storage call failing, the id of the
    record is in the ids a later ledger read returns, and no later
    selection contains a record of that id. *)
Theorem audited_record_is_not_selected_again
    (o : Gemini.oracle) (maxRetries : nat) (record : Viaje.t)
    (imagePath d : string) (validPlacas : list string)
    (objs : gmap string doc) (t : string) (g : Gemini.geminiResult) :
  snd (Gemini.auditWithGemini true o record imagePath validPlacas maxRetries)
  = Gemini.Returned g ->
  let after :=
    snd (Audit.auditRecord o maxRetries record imagePath d validPlacas
           (calm objs t)) in
  forall t' : string,
    In (Viaje.rowId record)
      (fst (Bucket.getProcessedRowIds d (calm (Bucket.objects after) t')))
    /\ forall (records : list Viaje.t) (rec : Viaje.t),
         In rec (fst (Audit.getUnprocessedRecords records d
                        (calm (Bucket.objects after) t'))) ->
         Viaje.rowId rec <> Viaje.rowId record.
Proof.
  intros Ho after t'.
  assert (Hidx : In (Viaje.rowId record) (indexIds (Bucket.objects after) d)).
  { unfold after. destruct g as [score why | ex co v q].
    - rewrite (auditRecord_manual_review o maxRetries record imagePath d
                 validPlacas (calm objs t) score why Ho). cbn [snd].
      change (Bucket.now (calm objs t)) with t.
      destruct (saveAndIndex_calm (Audit.manualReviewPath d (Viaje.rowId record))
                  d (Viaje.rowId record)
                  (Audit.manualReviewResult record imagePath t score why)
                  objs t (manual_review_not_index d _)) as (objs' & -> & _ & Hin).
      exact Hin.
    - rewrite (auditRecord_validated o maxRetries record imagePath d
                 validPlacas (calm objs t) ex co v q Ho). cbn [snd].
      change (Bucket.now (calm objs t)) with t.
      destruct (saveAndIndex_calm (Audit.processedPath d (Viaje.rowId record))
                  d (Viaje.rowId record)
                  (Audit.validatedResult record imagePath t ex v)
                  objs t (processed_not_index d _)) as (objs' & -> & _ & Hin).
      exact Hin. }
  assert (Hread : In (Viaje.rowId record)
                    (fst (Bucket.getProcessedRowIds d
                            (calm (Bucket.objects after) t')))).
  { rewrite (getProcessedRowIds_indexIds _ d _ t' Hidx). exact Hidx. }
  split; [exact Hread |].
  intros records rec Hsel Heq.
  apply getUnprocessedRecords_In in Hsel. destruct Hsel as [_ Hnot].
  apply Hnot. rewrite Heq. exact Hread.
Qed.

Lemma audited_record_is_not_selected_again_witness :
  ~ In sampleRow
      (fst (Audit.getUnprocessedRecords [sampleRow] "2025/12/10"
              (calm
                 (Bucket.objects
                    (snd (Audit.auditRecord twiceMalformed 4 sampleRow
                            "images/2025/12/10/a1b2c3d4.foto_vale.jpg"
                            "2025/12/10" []
                            (calm ∅ "2025-12-11T06:00:00.000Z"))))
                 "2025-12-12T06:00:00.000Z"))).
Proof.
  intros Hin.
  refine (proj2 (audited_record_is_not_selected_again twiceMalformed 4
                   sampleRow "images/2025/12/10/a1b2c3d4.foto_vale.jpg"
                   "2025/12/10" [] ∅ "2025-12-11T06:00:00.000Z" _ _
                   "2025-12-12T06:00:00.000Z")
            [sampleRow] sampleRow Hin eq_refl).
  vm_compute. reflexivity.
Defined.

(** X15. The selection fails open. Without a bucket, or with a bucket whose
    check for the index and whose listing are both refused, every record is
    selected, whatever the store holds, and nothing is written. *)
Theorem getUnprocessedRecords_fails_open
    (records : list Viaje.t) (d : string) (w : Bucket.world)
    (schedule : list bool) :
  (Bucket.bucketOk w = false \/ Bucket.faults w = true :: true :: schedule) ->
  fst (Audit.getUnprocessedRecords records d w) = records
  /\ Bucket.objects (snd (Audit.getUnprocessedRecords records d w))
     = Bucket.objects w.
Proof.
  intros [Hb | Hf].
  - unfold Audit.getUnprocessedRecords, Bucket.getBucket, Bucket.seq.
    rewrite Hb. split; reflexivity.
  - destruct w as [ok objs fs t]. cbn [Bucket.faults] in Hf. subst fs.
    destruct ok; [| split; reflexivity].
    unfold Audit.getUnprocessedRecords, Bucket.getProcessedRowIds,
      Bucket.rebuildFromListing, Bucket.fileExists, Bucket.listFiles,
      Bucket.call, Bucket.getBucket, Bucket.seq, Bucket.ret.
    cbn. split; [| reflexivity].
    induction records as [| r rest IH]; [reflexivity |].
    cbn. rewrite IH. reflexivity.
Qed.

Lemma getUnprocessedRecords_fails_open_witness :
  fst (Audit.getUnprocessedRecords [sampleRow] "2025/12/10"
         {| Bucket.bucketOk := true;
            Bucket.objects :=
              <[Bucket.indexPath "2025/12/10" :=
                  DIndex ["a1b2c3d4"] 1 "2025-12-11T05:00:00.000Z"]> ∅;
            Bucket.faults := [true; true];
            Bucket.now := "2025-12-11T06:00:00.000Z" |})
  = [sampleRow].
Proof.
  apply (getUnprocessedRecords_fails_open [sampleRow] "2025/12/10" _ []).
  right. reflexivity.
Defined.

(** ** The batch run and the report *)

Section FrameFacts.
Import Bucket Gemini Audit.

Definition summaryPath (d : string) : string :=
  "audits/" +:+ d +:+ "/failure_summary.json".

(** The objects a run of [auditRecord] on a partition may write. *)
Definition resultPath (d p : string) : Prop :=
  p = indexPath d
  \/ exists id, p = manualReviewPath d id \/ p = processedPath d id
                \/ p = failedPath d id.

Lemma summary_not_resultPath (d : string) : ~ resultPath d (summaryPath d).
Proof.
  unfold resultPath, summaryPath, indexPath, manualReviewPath, processedPath,
    failedPath.
  intros [H | [id [H | [H | H]]]];
    apply append_inj, append_inj in H; discriminate H.
Qed.

(** What a run of [auditRecord] leaves in the store, no call failing. *)
Lemma auditRecord_calm_store (o : oracle) (maxRetries : nat)
    (record : Viaje.t) (imagePath d : string) (validPlacas : list string)
    (objs : gmap string doc) (t : string) :
  (0 < maxRetries)%nat ->
  exists objs' r path,
    auditRecord o maxRetries record imagePath d validPlacas (calm objs t)
    = (JS.Normal r, calm objs' t)
    /\ objs' !! path = Some (DAudit r)
    /\ ((status r = "error" /\ path = failedPath d (Viaje.rowId record))
        \/ (status r <> "error"
            /\ (path = manualReviewPath d (Viaje.rowId record)
                \/ path = processedPath d (Viaje.rowId record))))
    /\ (forall p, p <> path -> p <> indexPath d -> objs' !! p = objs !! p).
Proof.
  intros Hpos.
  pose proof (auditWithGemini_throws_errors true o record imagePath
                validPlacas maxRetries Hpos) as Hne.
  assert (Hsave : forall path r,
             path <> indexPath d ->
             exists objs',
               snd (saveAndIndex path d (Viaje.rowId record) r (calm objs t))
               = calm objs' t
               /\ objs' !! path = Some (DAudit r)
               /\ (forall p, p <> path -> p <> indexPath d ->
                             objs' !! p = objs !! p)).
  { intros path r Hp. rewrite saveAndIndex_world. cbn [bucketOk calm].
    rewrite writeJSON_calm. cbn [snd]. rewrite addToProcessedIndex_calm.
    eexists. split; [reflexivity |].
    destruct (includes _ _).
    - split; [apply lookup_insert_eq |].
      intros p Hp1 _. apply lookup_insert_ne. congruence.
    - split.
      + rewrite lookup_insert_ne by congruence. apply lookup_insert_eq.
      + intros p Hp1 Hp2. rewrite !lookup_insert_ne by congruence.
        reflexivity. }
  destruct (snd (auditWithGemini true o record imagePath validPlacas
                   maxRetries))
    as [[score why | ex co v q] | [err |]] eqn:Ho.
  - pose proof (auditRecord_manual_review o maxRetries record imagePath d
                  validPlacas (calm objs t) score why Ho) as Hrun.
    change (now (calm objs t)) with t in Hrun.
    destruct (Hsave (manualReviewPath d (Viaje.rowId record))
                (manualReviewResult record imagePath t score why)
                (manual_review_not_index d _)) as (objs' & Hw & Hst & Hfr).
    rewrite Hw in Hrun.
    exists objs', (manualReviewResult record imagePath t score why),
      (manualReviewPath d (Viaje.rowId record)).
    split; [exact Hrun |]. split; [exact Hst |]. split; [| exact Hfr].
    right. split; [discriminate | left; reflexivity].
  - pose proof (auditRecord_validated o maxRetries record imagePath d
                  validPlacas (calm objs t) ex co v q Ho) as Hrun.
    change (now (calm objs t)) with t in Hrun.
    destruct (Hsave (processedPath d (Viaje.rowId record))
                (validatedResult record imagePath t ex v)
                (processed_not_index d _)) as (objs' & Hw & Hst & Hfr).
    rewrite Hw in Hrun.
    exists objs', (validatedResult record imagePath t ex v),
      (processedPath d (Viaje.rowId record)).
    split; [exact Hrun |]. split; [exact Hst |]. split; [| exact Hfr].
    right. split; [| right; reflexivity].
    unfold auditWithGemini in Ho. cbn [negb] in Ho.
    destruct (attempts_audit _ _ _ _ _ _ _ _ _ _ _ Ho) as (x & Hx & _).
    destruct (validateExtraction_cases x record validPlacas v Hx)
      as (_ & [(_ & Hs & _) | [(_ & _ & _ & Hs & _)
               | [(_ & _ & Hs & _) | (_ & _ & _ & Hs & _)]]]);
      unfold validatedResult; cbn [status]; rewrite Hs; cbn; discriminate.
  - pose proof (auditRecord_thrown o maxRetries record imagePath d
                  validPlacas (calm objs t) err Ho) as Hrun.
    change (now (calm objs t)) with t in Hrun. cbn [bucketOk calm] in Hrun.
    rewrite writeJSON_calm in Hrun. cbn [snd] in Hrun.
    exists (<[failedPath d (Viaje.rowId record) :=
                DAudit (errorResult record imagePath t err)]> objs),
      (errorResult record imagePath t err),
      (failedPath d (Viaje.rowId record)).
    split; [exact Hrun |]. split; [apply lookup_insert_eq |].
    split; [left; split; reflexivity |].
    intros p Hp _. apply lookup_insert_ne. congruence.
  - contradiction.
Qed.

End FrameFacts.

Section BatchStoreFacts.
Import Bucket Gemini Audit.

Lemma resultPath_index (d : string) : resultPath d (indexPath d).
Proof. left. reflexivity. Qed.

(** What the loop over a batch leaves in the store, no call failing. *)
Lemma auditEach_calm_store (oracleOf : Viaje.t -> oracle) (maxRetries : nat)
    (d : string) (validPlacas : list string) :
  (0 < maxRetries)%nat ->
  forall (unprocessed : list Viaje.t) (results : list auditResult)
         (objs : gmap string doc) (t : string),
    exists objs' handled,
      auditEach oracleOf maxRetries d validPlacas unprocessed results
        (calm objs t)
      = (JS.Normal (results ++ handled), calm objs' t)
      /\ (forall p, ~ resultPath d p -> objs' !! p = objs !! p).
Proof.
  intros Hpos unprocessed.
  induction unprocessed as [| record rest IH]; intros results objs t.
  - exists objs, []. rewrite app_nil_r. split; reflexivity.
  - cbn [auditEach]. unfold seq.
    destruct (auditRecord_calm_store (oracleOf record) maxRetries record
                (imagePathOf d record) d validPlacas objs t Hpos)
      as (objs1 & r & path & Hrun & _ & Hpath & Hfr).
    rewrite Hrun.
    destruct (IH (results ++ [r]) objs1 t) as (objs' & handled & Hrest & Hfr').
    exists objs', (r :: handled). rewrite Hrest, <- app_assoc.
    split; [reflexivity |].
    intros p Hp. rewrite (Hfr' p Hp). apply Hfr.
    + intros ->. apply Hp. right. exists (Viaje.rowId record).
      destruct Hpath as [[_ ->] | [_ [-> | ->]]]; auto.
    + intros ->. apply Hp. left. reflexivity.
Qed.

Lemma getUnprocessedRecords_calm_store (records : list Viaje.t) (d : string)
    (objs : gmap string doc) (t : string) :
  exists objs',
    snd (getUnprocessedRecords records d (calm objs t)) = calm objs' t
    /\ (forall p, ~ resultPath d p -> objs' !! p = objs !! p).
Proof.
  unfold getUnprocessedRecords, getBucket, seq, ret. cbn [bucketOk calm negb].
  rewrite getProcessedRowIds_calm.
  destruct (processedIdsOf (objs !! indexPath d)) as [ids |].
  - exists objs. split; reflexivity.
  - rewrite rebuildFromListing_calm. cbn [snd].
    eexists. split; [reflexivity |].
    intros p Hp. destruct (0 <? _)%nat; [| reflexivity].
    apply lookup_insert_ne. intros <-. apply Hp, resultPath_index.
Qed.

Lemma getValidPlacas_calm (d : string) (objs : gmap string doc) (t : string) :
  snd (getValidPlacas d (calm objs t)) = calm objs t.
Proof.
  unfold getValidPlacas, seq, ret. rewrite fileExists_calm.
  destruct (bool_decide _); [| reflexivity].
  rewrite readJSON_calm. destruct (objs !! _) as [[| | [|] | |] |]; reflexivity.
Qed.

Definition failedRecords (results : list auditResult) : list failedRecord :=
  map (fun f => {| f_row_id := row_id f; f_error := error f |})
    (List.filter isError results).

Lemma auditAllRecords_calm_store (oracleOf : Viaje.t -> oracle)
    (maxRetries : nat) (records : list Viaje.t) (d : string)
    (objs : gmap string doc) (t : string) :
  (0 < maxRetries)%nat ->
  exists results objs',
    auditAllRecords oracleOf maxRetries records d (calm objs t)
    = (JS.Normal results, calm objs' t)
    /\ objs' !! summaryPath d
       = match failedRecords results with
         | [] => objs !! summaryPath d
         | failed => Some (DFailureSummary d t (List.length failed) failed)
         end.
Proof.
  intros Hpos. unfold auditAllRecords, seq.
  destruct (getUnprocessedRecords_calm_store records d objs t)
    as (objs1 & Hw1 & Hfr1).
  destruct (getUnprocessedRecords records d (calm objs t)) as [sel w1].
  cbn [snd] in Hw1. subst w1.
  pose proof (summary_not_resultPath d) as Hsum.
  destruct sel as [| rec rest].
  - exists [], objs1. split; [reflexivity |]. apply Hfr1, Hsum.
  - unfold getBucket. cbn [bucketOk calm].
    pose proof (getValidPlacas_calm d objs1 t) as Hvp.
    destruct (getValidPlacas d (calm objs1 t)) as [validPlacas w3].
    cbn [snd] in Hvp. subst w3.
    destruct (auditEach_calm_store oracleOf maxRetries d validPlacas Hpos
                (rec :: rest) [] objs1 t)
      as (objs2 & handled & Hrun & Hfr2).
    rewrite Hrun. cbn [app bucketOk calm]. unfold failedRecords.
    destruct (List.filter isError handled) as [| f fs] eqn:Hf.
    + exists handled, objs2. split; [reflexivity |].
      rewrite Hf. cbn [map]. rewrite (Hfr2 _ Hsum). apply Hfr1, Hsum.
    + cbn [List.length Nat.ltb Nat.leb andb].
      unfold clock. cbn [now calm]. rewrite writeJSON_calm.
      eexists handled, _. split; [reflexivity |].
      rewrite Hf. unfold summaryPath. rewrite lookup_insert_eq.
      cbn [map List.length]. rewrite List.length_map. reflexivity.
Qed.

End BatchStoreFacts.

(** X16. The failure summary of a batch run, with a retry bound of at least one,
    a bucket and no storage call failing. When some result has the status
    [error], the summary is written: it gives the partition, the time, the
    number of such results, and the id and message of each, in the order of
    the results. When no result is an error, the summary object is left as
    it was found: a summary written by an earlier run stays. *)
Theorem failure_summary_follows_the_errors
    (oracleOf : Viaje.t -> Gemini.oracle) (maxRetries : nat)
    (records : list Viaje.t) (d : string) (objs : gmap string doc)
    (t : string) :
  (0 < maxRetries)%nat ->
  let run := Audit.auditAllRecords oracleOf maxRetries records d (calm objs t) in
  exists results,
    fst run = JS.Normal results
    /\ Bucket.objects (snd run) !! summaryPath d
       = match failedRecords results with
         | [] => objs !! summaryPath d
         | failed => Some (DFailureSummary d t (List.length failed) failed)
         end.
Proof.
  intros Hpos run.
  destruct (auditAllRecords_calm_store oracleOf maxRetries records d objs t
              Hpos) as (results & objs' & Hrun & Hsum).
  exists results. unfold run. rewrite Hrun. split; [reflexivity | exact Hsum].
Qed.

Definition alwaysRejected : Gemini.oracle :=
  {| Gemini.imageError := None;
     Gemini.quality := Gemini.QualityFails;
     Gemini.respond := fun _ =>
       Gemini.Rejects
         {| JS.name := "Error"; JS.message := "[400 Bad Request] API key not valid";
            JS.status := Some 400; JS.errorDetails := None |} |}.

Lemma failure_summary_follows_the_errors_witness :
  Bucket.objects
    (snd (Audit.auditAllRecords (fun _ => alwaysRejected) 4 [sampleRow]
            "2025/12/10" (calm ∅ "2025-12-11T06:00:00.000Z")))
  !! summaryPath "2025/12/10"
  = Some (DFailureSummary "2025/12/10" "2025-12-11T06:00:00.000Z" 1
            [{| f_row_id := "a1b2c3d4";
                f_error := Some "[400 Bad Request] API key not valid" |}]).
Proof.
  destruct (failure_summary_follows_the_errors (fun _ => alwaysRejected) 4
              [sampleRow] "2025/12/10" ∅ "2025-12-11T06:00:00.000Z"
              ltac:(lia)) as (results & Hrun & Hsum).
  rewrite Hsum.
  assert (Hr : results
               = [Audit.errorResult sampleRow
                    (Audit.imagePathOf "2025/12/10" sampleRow)
                    "2025-12-11T06:00:00.000Z"
                    {| JS.name := "Error";
                       JS.message := "[400 Bad Request] API key not valid";
                       JS.status := Some 400; JS.errorDetails := None |}]).
  { assert (Hc : fst (Audit.auditAllRecords (fun _ => alwaysRejected) 4
                        [sampleRow] "2025/12/10"
                        (calm ∅ "2025-12-11T06:00:00.000Z"))
                 = JS.Normal
                     [Audit.errorResult sampleRow
                        (Audit.imagePathOf "2025/12/10" sampleRow)
                        "2025-12-11T06:00:00.000Z"
                        {| JS.name := "Error";
                           JS.message := "[400 Bad Request] API key not valid";
                           JS.status := Some 400; JS.errorDetails := None |}])
      by (vm_compute; reflexivity).
    rewrite Hc in Hrun. injection Hrun as <-. reflexivity. }
  rewrite Hr. reflexivity.
Defined.

Section ReportFacts.
Import Bucket Gemini Audit.

(** Under one of the three prefixes the report lists. *)
Definition reported (d n : string) : Prop :=
  String.prefix (processedPrefix d) n = true
  \/ String.prefix (failedPrefix d) n = true
  \/ String.prefix (manualReviewPrefix d) n = true.

Lemma readEach_reads (files : list string) :
  forall (acc : list doc) (w : world),
    sameStore w (snd (readEach files acc w))
    /\ (forall x, In x (fst (readEach files acc w)) ->
                  In x acc
                  \/ exists n, In n files /\ objects w !! n = Some x).
Proof.
  induction files as [| f rest IH]; intros acc w.
  - cbn. split; [apply sameStore_refl | auto].
  - cbn [readEach]. unfold seq.
    destruct (readJSON_reads f w) as (Hs & Hr).
    destruct (readJSON f w) as [res w1]. cbn [fst snd] in Hs, Hr.
    destruct (IH (match res with Some r => acc ++ [r] | None => acc end) w1)
      as (Hs' & Hin).
    split; [exact (sameStore_trans _ _ _ Hs Hs') |].
    intros x Hx. destruct (Hin x Hx) as [Ha | (n & Hn & Hl)].
    + destruct res as [r |].
      * apply in_app_or in Ha. destruct Ha as [Ha | [<- | []]]; [auto |].
        right. exists f. split; [left; reflexivity | apply Hr; reflexivity].
      * auto.
    + right. exists n. split; [right; exact Hn |].
      destruct Hs as (Ho & _). rewrite <- Ho. exact Hl.
Qed.

Lemma readEach_calm (objs : gmap string doc) (t : string)
    (files : list string) :
  forall acc : list doc,
    readEach files acc (calm objs t)
    = (acc ++ flat_map (fun n => match objs !! n with
                                 | Some x => [x]
                                 | None => []
                                 end) files,
       calm objs t).
Proof.
  induction files as [| f rest IH]; intros acc.
  - cbn. rewrite app_nil_r. reflexivity.
  - cbn [readEach flat_map]. unfold seq. rewrite readJSON_calm, IH.
    destruct (objs !! f); [rewrite <- app_assoc |]; reflexivity.
Qed.

Lemma getAllAuditResults_calm_lists (d : string) (objs : gmap string doc)
    (t : string) (n : string) (x : doc) :
  objs !! n = Some x -> reported d n ->
  In x (fst (getAllAuditResults d (calm objs t))).
Proof.
  intros Hx Hn. unfold getAllAuditResults, getBucket, seq, ret.
  cbn [bucketOk calm negb]. rewrite !listFiles_calm.
  rewrite readEach_calm. cbn [fst app].
  apply in_flat_map. exists n. split; [| rewrite Hx; left; reflexivity].
  assert (Hs : is_Some (objs !! n)) by eauto.
  apply in_or_app. destruct Hn as [Hn | [Hn | Hn]].
  - left. apply elem_of_namesUnder. auto.
  - right. apply in_or_app. left. apply elem_of_namesUnder. auto.
  - right. apply in_or_app. right. apply elem_of_namesUnder. auto.
Qed.

Lemma reported_processedPath (d id : string) : reported d (processedPath d id).
Proof.
  left. unfold processedPrefix, processedPath. rewrite !prefix_append.
  apply prefix_append_self.
Qed.

Lemma reported_failedPath (d id : string) : reported d (failedPath d id).
Proof.
  right; left. unfold failedPrefix, failedPath. rewrite !prefix_append.
  apply prefix_append_self.
Qed.

Lemma reported_manualReviewPath (d id : string) :
  reported d (manualReviewPath d id).
Proof.
  right; right. unfold manualReviewPrefix, manualReviewPath.
  rewrite !prefix_append. apply prefix_append_self.
Qed.

End ReportFacts.

(** X17. The report of a partition, whatever storage calls fail: every document
    returned is stored under the processed, the failed or the manual-review
    prefix of the partition, and the store is left as it was; without a
    bucket nothing is returned. *)
Theorem getAllAuditResults_only_stored_results (d : string) (w : Bucket.world) :
  sameStore w (snd (Audit.getAllAuditResults d w))
  /\ (forall x, In x (fst (Audit.getAllAuditResults d w)) ->
                exists n, Bucket.objects w !! n = Some x /\ reported d n)
  /\ (Bucket.bucketOk w = false -> fst (Audit.getAllAuditResults d w) = []).
Proof.
  unfold Audit.getAllAuditResults, Bucket.getBucket, Bucket.seq, Bucket.ret.
  destruct (Bucket.bucketOk w) eqn:Hb; cbn [negb].
  2: { split; [apply sameStore_refl |]. split; [intros x [] | reflexivity]. }
  destruct (listFiles_reads (Bucket.processedPrefix d) w) as (Hs1 & Hp).
  destruct (Bucket.listFiles (Bucket.processedPrefix d) w) as [ps w1].
  cbn [fst snd] in Hs1, Hp.
  destruct (listFiles_reads (Audit.failedPrefix d) w1) as (Hs2 & Hf).
  destruct (Bucket.listFiles (Audit.failedPrefix d) w1) as [fs w2].
  cbn [fst snd] in Hs2, Hf.
  destruct (listFiles_reads (Audit.manualReviewPrefix d) w2) as (Hs3 & Hm).
  destruct (Bucket.listFiles (Audit.manualReviewPrefix d) w2) as [ms w3].
  cbn [fst snd] in Hs3, Hm.
  destruct (readEach_reads (ps ++ fs ++ ms) [] w3) as (Hs4 & Hin).
  pose proof (sameStore_trans _ _ _ Hs1 Hs2) as H12.
  pose proof (sameStore_trans _ _ _ H12 Hs3) as H13.
  split; [exact (sameStore_trans _ _ _ H13 Hs4) |].
  split; [| discriminate].
  intros x Hx. destruct (Hin x Hx) as [[] | (n & Hn & Hl)].
  exists n. split.
  - destruct H13 as (Ho & _). rewrite <- Ho. exact Hl.
  - apply in_app_or in Hn. destruct Hn as [Hn | Hn].
    + left. apply (Hp n Hn).
    + apply in_app_or in Hn. destruct Hn as [Hn | Hn].
      * right; left. apply (Hf n Hn).
      * right; right. apply (Hm n Hn).
Qed.

(** X18. Every result [auditRecord] returns is in the report, with a retry bound
    of at least one, a bucket and no storage call failing: the result is
    stored and the report of the partition, read at any later time from the
    store as left, returns it. A failed result an earlier run stored for
    the same row is not removed: when the row is audited without error,
    the report returns the earlier error and the new result, two documents
    for one row. *)
Theorem audit_results_are_reported
    (o : Gemini.oracle) (maxRetries : nat) (record : Viaje.t)
    (imagePath d : string) (validPlacas : list string)
    (objs : gmap string doc) (t : string) :
  (0 < maxRetries)%nat ->
  let run :=
    Audit.auditRecord o maxRetries record imagePath d validPlacas
      (calm objs t) in
  exists r,
    fst run = JS.Normal r
    /\ forall t' : string,
         let report :=
           fst (Audit.getAllAuditResults d
                  (calm (Bucket.objects (snd run)) t')) in
         In (DAudit r) report
         /\ forall earlier : doc,
              objs !! Audit.failedPath d (Viaje.rowId record) = Some earlier ->
              status r <> "error" ->
              In earlier report.
Proof.
  intros Hpos run.
  destruct (auditRecord_calm_store o maxRetries record imagePath d
              validPlacas objs t Hpos)
    as (objs' & r & path & Hrun & Hst & Hpath & Hfr).
  exists r. unfold run. rewrite Hrun. cbn [fst snd Bucket.objects calm].
  split; [reflexivity |]. intros t'. cbv zeta. split.
  - apply (getAllAuditResults_calm_lists d objs' t' path (DAudit r) Hst).
    destruct Hpath as [[_ ->] | [_ [-> | ->]]].
    + apply reported_failedPath.
    + apply reported_manualReviewPath.
    + apply reported_processedPath.
  - intros earlier He Hok.
    apply (getAllAuditResults_calm_lists d objs' t'
             (Audit.failedPath d (Viaje.rowId record)) earlier).
    + rewrite Hfr; [exact He | | apply failed_not_index].
      destruct Hpath as [[Hs _] | [_ [-> | ->]]].
      * contradiction.
      * apply failed_not_manual_review.
      * apply failed_not_processed.
    + apply reported_failedPath.
Qed.

Lemma audit_results_are_reported_witness :
  exists r,
    fst (Audit.auditRecord twiceMalformed 4 sampleRow
           "images/2025/12/10/a1b2c3d4.foto_vale.jpg" "2025/12/10" []
           (calm ∅ "2025-12-11T06:00:00.000Z")) = JS.Normal r
    /\ In (DAudit r)
         (fst (Audit.getAllAuditResults "2025/12/10"
                 (calm
                    (Bucket.objects
                       (snd (Audit.auditRecord twiceMalformed 4 sampleRow
                               "images/2025/12/10/a1b2c3d4.foto_vale.jpg"
                               "2025/12/10" []
                               (calm ∅ "2025-12-11T06:00:00.000Z"))))
                    "2025-12-12T06:00:00.000Z"))).
Proof.
  destruct (audit_results_are_reported twiceMalformed 4 sampleRow
              "images/2025/12/10/a1b2c3d4.foto_vale.jpg" "2025/12/10" []
              ∅ "2025-12-11T06:00:00.000Z" ltac:(lia)) as (r & Hr & Hrep).
  exists r. split; [exact Hr |].
  exact (proj1 (Hrep "2025-12-12T06:00:00.000Z")).
Defined.

Section SecondRunFacts.
Import Bucket Gemini Audit.

(** The ids a ledger read returns, no storage call failing. *)
Definition ledgerIds (objs : gmap string doc) (d : string) : list string :=
  match processedIdsOf (objs !! indexPath d) with
  | Some ids => ids
  | None => listedIds objs d
  end.

Lemma getProcessedRowIds_ledgerIds (d : string) (objs : gmap string doc)
    (t : string) :
  fst (getProcessedRowIds d (calm objs t)) = ledgerIds objs d.
Proof.
  rewrite getProcessedRowIds_calm. unfold ledgerIds.
  destruct (processedIdsOf (objs !! indexPath d)); [reflexivity |].
  rewrite rebuildFromListing_calm. reflexivity.
Qed.

(** A store without index lists no processed result: the state a ledger
    read leaves. *)
Definition settled (objs : gmap string doc) (d : string) : Prop :=
  processedIdsOf (objs !! indexPath d) = None -> listedIds objs d = [].

Lemma no_member_nil {A} (l : list A) : (forall x, ~ In x l) -> l = [].
Proof.
  destruct l as [| a l]; [reflexivity |].
  intros H. destruct (H a). left. reflexivity.
Qed.

Lemma listedIds_insert (objs : gmap string doc) (d p : string) (x : doc) :
  String.prefix (processedPrefix d) p = false ->
  forall id, In id (listedIds (<[p := x]> objs) d) <-> In id (listedIds objs d).
Proof.
  intros Hp id. unfold listedIds. rewrite !in_map_iff.
  split; intros (n & Hb & Hn); exists n; (split; [exact Hb |]);
    apply elem_of_namesUnder in Hn; apply elem_of_namesUnder;
    destruct Hn as (Hs & Hpre); (split; [| exact Hpre]).
  - rewrite lookup_insert_ne in Hs by congruence. exact Hs.
  - rewrite lookup_insert_ne by congruence. exact Hs.
Qed.

(** Writing an object that is neither the index nor under the processed
    prefix changes nothing for the ledger. *)
Lemma ledger_after_other_write (objs : gmap string doc) (d p : string)
    (x : doc) :
  p <> indexPath d -> String.prefix (processedPrefix d) p = false ->
  settled objs d ->
  settled (<[p := x]> objs) d
  /\ (forall id, In id (ledgerIds (<[p := x]> objs) d)
                 <-> In id (ledgerIds objs d)).
Proof.
  intros Hi Hp Hs. unfold settled, ledgerIds in *.
  rewrite lookup_insert_ne by congruence.
  destruct (processedIdsOf (objs !! indexPath d)) as [ids |].
  - split; [discriminate | reflexivity].
  - split.
    + intros _. apply no_member_nil. intros id Hin.
      apply (listedIds_insert objs d p x Hp) in Hin.
      rewrite (Hs eq_refl) in Hin. exact Hin.
    + apply listedIds_insert, Hp.
Qed.

(** Writing a result and putting its id in the index adds that id to the
    ledger, and nothing else. *)
Lemma ledger_after_save (objs : gmap string doc) (path d id t : string)
    (r : auditResult) :
  path <> indexPath d -> settled objs d ->
  exists objs',
    snd (saveAndIndex path d id r (calm objs t)) = calm objs' t
    /\ settled objs' d
    /\ (forall x, In x (ledgerIds objs' d) <-> In x (ledgerIds objs d) \/ x = id).
Proof.
  intros Hp Hs. rewrite saveAndIndex_world. cbn [bucketOk calm].
  rewrite writeJSON_calm. cbn [snd]. rewrite addToProcessedIndex_calm.
  eexists. split; [reflexivity |].
  assert (Hidx : indexIds (<[path := DAudit r]> objs) d = indexIds objs d).
  { unfold indexIds. rewrite lookup_insert_ne by congruence. reflexivity. }
  rewrite Hidx.
  destruct (includes (indexIds objs d) id) eqn:Hin.
  - apply includes_In in Hin.
    unfold settled, ledgerIds, indexIds in *.
    rewrite lookup_insert_ne by congruence.
    destruct (processedIdsOf (objs !! indexPath d)) as [ids |];
      [| destruct Hin].
    split; [discriminate |]. intros x. split; [auto |].
    intros [H | ->]; [exact H | exact Hin].
  - unfold settled, ledgerIds. rewrite lookup_insert_eq.
    cbn [processedIdsOf]. split; [discriminate |].
    intros x. rewrite in_app_iff. cbn [In].
    unfold indexIds, settled in *.
    destruct (processedIdsOf (objs !! indexPath d)) as [ids |].
    + cbn [default]. intuition congruence.
    + cbn [default]. rewrite (Hs eq_refl). cbn [In]. intuition congruence.
Qed.

Lemma failed_not_listed (d id : string) :
  String.prefix (processedPrefix d) (failedPath d id) = false.
Proof. apply failed_not_under_processed. Qed.

Lemma summary_not_listed (d : string) :
  String.prefix (processedPrefix d) (summaryPath d) = false.
Proof.
  unfold processedPrefix, summaryPath. rewrite !prefix_append. reflexivity.
Qed.

Lemma summary_not_index (d : string) : summaryPath d <> indexPath d.
Proof.
  unfold summaryPath, indexPath. intros H.
  apply append_inj, append_inj in H. discriminate H.
Qed.

(** One record, no storage call failing: the ledger gains the id of the
    record when the result is no error, and nothing otherwise. *)
Lemma auditRecord_calm_ledger (o : oracle) (maxRetries : nat)
    (record : Viaje.t) (imagePath d : string) (validPlacas : list string)
    (objs : gmap string doc) (t : string) :
  (0 < maxRetries)%nat -> settled objs d ->
  exists objs' r,
    auditRecord o maxRetries record imagePath d validPlacas (calm objs t)
    = (JS.Normal r, calm objs' t)
    /\ row_id r = Viaje.rowId record
    /\ settled objs' d
    /\ (forall x, In x (ledgerIds objs' d)
                  <-> In x (ledgerIds objs d)
                      \/ (status r <> "error" /\ x = Viaje.rowId record)).
Proof.
  intros Hpos Hs.
  pose proof (auditWithGemini_throws_errors true o record imagePath
                validPlacas maxRetries Hpos) as Hne.
  destruct (snd (auditWithGemini true o record imagePath validPlacas
                   maxRetries))
    as [[score why | ex co v q] | [err |]] eqn:Ho.
  - pose proof (auditRecord_manual_review o maxRetries record imagePath d
                  validPlacas (calm objs t) score why Ho) as Hrun.
    change (now (calm objs t)) with t in Hrun.
    destruct (ledger_after_save objs
                (manualReviewPath d (Viaje.rowId record)) d
                (Viaje.rowId record) t
                (manualReviewResult record imagePath t score why)
                (manual_review_not_index d _) Hs) as (objs' & Hw & Hs' & Hl).
    rewrite Hw in Hrun. eexists objs', _. split; [exact Hrun |].
    split; [reflexivity |]. split; [exact Hs' |].
    intros x. rewrite (Hl x). cbn [status manualReviewResult].
    split; (intros [H | H]; [left; exact H | right]).
    + split; [discriminate | exact H].
    + apply H.
  - pose proof (auditRecord_validated o maxRetries record imagePath d
                  validPlacas (calm objs t) ex co v q Ho) as Hrun.
    change (now (calm objs t)) with t in Hrun.
    destruct (ledger_after_save objs
                (processedPath d (Viaje.rowId record)) d
                (Viaje.rowId record) t
                (validatedResult record imagePath t ex v)
                (processed_not_index d _) Hs) as (objs' & Hw & Hs' & Hl).
    rewrite Hw in Hrun. eexists objs', _. split; [exact Hrun |].
    split; [reflexivity |]. split; [exact Hs' |].
    assert (Hok : status (validatedResult record imagePath t ex v) <> "error").
    { unfold auditWithGemini in Ho. cbn [negb] in Ho.
      destruct (attempts_audit _ _ _ _ _ _ _ _ _ _ _ Ho) as (x & Hx & _).
      destruct (validateExtraction_cases x record validPlacas v Hx)
        as (_ & [(_ & Hst & _) | [(_ & _ & _ & Hst & _)
                 | [(_ & _ & Hst & _) | (_ & _ & _ & Hst & _)]]]);
        unfold validatedResult; cbn [status]; rewrite Hst; cbn; discriminate. }
    intros x. rewrite (Hl x).
    split; (intros [H | H]; [left; exact H | right]).
    + split; [exact Hok | exact H].
    + apply H.
  - pose proof (auditRecord_thrown o maxRetries record imagePath d
                  validPlacas (calm objs t) err Ho) as Hrun.
    change (now (calm objs t)) with t in Hrun. cbn [bucketOk calm] in Hrun.
    rewrite writeJSON_calm in Hrun. cbn [snd] in Hrun.
    destruct (ledger_after_other_write objs d
                (failedPath d (Viaje.rowId record))
                (DAudit (errorResult record imagePath t err))
                (failed_not_index d _) (failed_not_listed d _) Hs)
      as (Hs' & Hl).
    eexists _, _. split; [exact Hrun |].
    split; [reflexivity |]. split; [exact Hs' |].
    intros x. rewrite (Hl x). cbn [status errorResult].
    split; [auto |]. intros [H | [H _]]; [exact H | contradiction].
  - contradiction.
Qed.

(** A batch, no storage call failing. *)
Lemma auditEach_calm_ledger (oracleOf : Viaje.t -> oracle) (maxRetries : nat)
    (d : string) (validPlacas : list string) :
  (0 < maxRetries)%nat ->
  forall (unprocessed : list Viaje.t) (results : list auditResult)
         (objs : gmap string doc) (t : string),
    settled objs d ->
    exists objs' handled,
      auditEach oracleOf maxRetries d validPlacas unprocessed results
        (calm objs t)
      = (JS.Normal (results ++ handled), calm objs' t)
      /\ settled objs' d
      /\ (forall x, In x (ledgerIds objs' d)
                    <-> In x (ledgerIds objs d)
                        \/ exists r, In r handled /\ status r <> "error"
                                     /\ row_id r = x).
Proof.
  intros Hpos unprocessed.
  induction unprocessed as [| record rest IH]; intros results objs t Hs.
  - exists objs, []. rewrite app_nil_r. split; [reflexivity |].
    split; [exact Hs |]. intros x. split; [auto |].
    intros [H | (r & [] & _)]. exact H.
  - cbn [auditEach]. unfold seq.
    destruct (auditRecord_calm_ledger (oracleOf record) maxRetries record
                (imagePathOf d record) d validPlacas objs t Hpos Hs)
      as (objs1 & r & Hrun & Hid & Hs1 & Hl1).
    rewrite Hrun.
    destruct (IH (results ++ [r]) objs1 t Hs1)
      as (objs' & handled & Hrest & Hs' & Hl').
    exists objs', (r :: handled). rewrite Hrest, <- app_assoc.
    split; [reflexivity |]. split; [exact Hs' |].
    intros x. rewrite (Hl' x), (Hl1 x). split.
    + intros [[H | (Hok & ->)] | (r' & Hin & Hok & Hx)].
      * left. exact H.
      * right. exists r. split; [left; reflexivity | split; assumption].
      * right. exists r'. split; [right; exact Hin | split; assumption].
    + intros [H | (r' & [<- | Hin] & Hok & Hx)].
      * left. left. exact H.
      * left. right. split; [exact Hok | congruence].
      * right. exists r'. split; [exact Hin | split; assumption].
Qed.

(** The state a ledger read leaves. *)
Lemma read_settles (records : list Viaje.t) (d : string)
    (objs : gmap string doc) (t : string) :
  exists objs1,
    snd (getUnprocessedRecords records d (calm objs t)) = calm objs1 t
    /\ settled objs1 d
    /\ ledgerIds objs1 d = ledgerIds objs d.
Proof.
  unfold getUnprocessedRecords, getBucket, seq, ret. cbn [bucketOk calm negb].
  rewrite getProcessedRowIds_calm. unfold settled, ledgerIds.
  destruct (processedIdsOf (objs !! indexPath d)) as [ids |] eqn:E.
  - exists objs. cbn [snd]. rewrite E. split; [reflexivity |].
    split; [discriminate | reflexivity].
  - rewrite rebuildFromListing_calm. cbn [snd].
    destruct (listedIds objs d) as [| x l] eqn:El.
    + exists objs. cbn [List.length Nat.ltb Nat.leb]. rewrite E, El.
      split; [reflexivity |]. split; reflexivity.
    + eexists. cbn [List.length Nat.ltb Nat.leb].
      split; [reflexivity |]. rewrite lookup_insert_eq.
      cbn [processedIdsOf]. split; [discriminate | reflexivity].
Qed.

End SecondRunFacts.

(** X19. The next run takes up what this one left. After a batch run, with a
    retry bound of at least one, a bucket and no storage call failing, a
    record is selected by the next run exactly when this run selected it
    and returned no result without error under its id: the records audited
    with a result are not audited again, and those that ended in an error
    are. *)
Theorem next_run_retries_the_failed
    (oracleOf : Viaje.t -> Gemini.oracle) (maxRetries : nat)
    (records : list Viaje.t) (d : string) (objs : gmap string doc)
    (t : string) :
  (0 < maxRetries)%nat ->
  let run := Audit.auditAllRecords oracleOf maxRetries records d (calm objs t) in
  exists results,
    fst run = JS.Normal results
    /\ forall (t' : string) (rec : Viaje.t),
         In rec (fst (Audit.getUnprocessedRecords records d
                        (calm (Bucket.objects (snd run)) t')))
         <-> In rec (fst (Audit.getUnprocessedRecords records d (calm objs t)))
             /\ ~ (exists r, In r results /\ status r <> "error"
                             /\ row_id r = Viaje.rowId rec).
Proof.
  intros Hpos run.
  assert (Hrun : exists results objs',
    Audit.auditAllRecords oracleOf maxRetries records d (calm objs t)
    = (JS.Normal results, calm objs' t)
    /\ (forall x, In x (ledgerIds objs' d)
                  <-> In x (ledgerIds objs d)
                      \/ exists r, In r results /\ status r <> "error"
                                   /\ row_id r = x)).
  { unfold Audit.auditAllRecords, Bucket.seq.
    destruct (read_settles records d objs t) as (objs1 & Hw1 & Hs1 & Hl1).
    destruct (Audit.getUnprocessedRecords records d (calm objs t))
      as [sel w1]. cbn [snd] in Hw1. subst w1.
    destruct sel as [| rec rest].
    - exists [], objs1. split; [reflexivity |]. rewrite Hl1.
      intros x. split; [auto |]. intros [H | (r & [] & _)]. exact H.
    - unfold Bucket.getBucket. cbn [Bucket.bucketOk calm].
      pose proof (getValidPlacas_calm d objs1 t) as Hvp.
      destruct (Bucket.getValidPlacas d (calm objs1 t)) as [validPlacas w3].
      cbn [snd] in Hvp. subst w3.
      destruct (auditEach_calm_ledger oracleOf maxRetries d validPlacas Hpos
                  (rec :: rest) [] objs1 t Hs1)
        as (objs2 & handled & Hrun & Hs2 & Hl2).
      rewrite Hrun. cbn [app Bucket.bucketOk calm].
      rewrite Hl1 in Hl2.
      destruct (List.filter Audit.isError handled) as [| f fs].
      + exists handled, objs2. split; [reflexivity | exact Hl2].
      + cbn [List.length Nat.ltb Nat.leb andb].
        unfold Bucket.clock. cbn [Bucket.now calm]. rewrite writeJSON_calm.
        eexists handled, _. split; [reflexivity |].
        intros x.
        rewrite (proj2 (ledger_after_other_write objs2 d _ _
                          (summary_not_index d) (summary_not_listed d) Hs2) x).
        apply Hl2. }
  destruct Hrun as (results & objs' & Hrun & Hl).
  exists results. unfold run. rewrite Hrun. cbn [fst snd Bucket.objects calm].
  split; [reflexivity |]. intros t' rec.
  rewrite !getUnprocessedRecords_In, !getProcessedRowIds_ledgerIds.
  rewrite (Hl (Viaje.rowId rec)). tauto.
Qed.

Definition failsOnce (record : Viaje.t) : Gemini.oracle :=
  if String.eqb (Viaje.rowId record) "a1b2c3d4" then alwaysRejected
  else twiceMalformed.

Lemma next_run_retries_the_failed_witness :
  exists results,
    fst (Audit.auditAllRecords failsOnce 4 [sampleRow] "2025/12/10"
           (calm ∅ "2025-12-11T06:00:00.000Z")) = JS.Normal results
    /\ In sampleRow
         (fst (Audit.getUnprocessedRecords [sampleRow] "2025/12/10"
                 (calm
                    (Bucket.objects
                       (snd (Audit.auditAllRecords failsOnce 4 [sampleRow]
                               "2025/12/10"
                               (calm ∅ "2025-12-11T06:00:00.000Z"))))
                    "2025-12-12T06:00:00.000Z"))).
Proof.
  destruct (next_run_retries_the_failed failsOnce 4 [sampleRow] "2025/12/10"
              ∅ "2025-12-11T06:00:00.000Z" ltac:(lia))
    as (results & Hrun & Hnext).
  exists results. split; [exact Hrun |].
  apply Hnext. split.
  - vm_compute. left. reflexivity.
  - intros (r & Hin & Hok & _).
    assert (Hc : fst (Audit.auditAllRecords failsOnce 4 [sampleRow]
                        "2025/12/10" (calm ∅ "2025-12-11T06:00:00.000Z"))
                 = JS.Normal
                     [Audit.errorResult sampleRow
                        (Audit.imagePathOf "2025/12/10" sampleRow)
                        "2025-12-11T06:00:00.000Z"
                        {| JS.name := "Error";
                           JS.message := "[400 Bad Request] API key not valid";
                           JS.status := Some 400; JS.errorDetails := None |}])
      by (vm_compute; reflexivity).
    rewrite Hc in Hrun. injection Hrun as <-.
    destruct Hin as [<- | []]. apply Hok. reflexivity.
Defined.


(** ** The reply handed to the parser *)

Section ReplyFacts.
Import JS Gemini.

Fixpoint allWhite (s : string) : bool :=
  match s with
  | EmptyString => true
  | String c r => isWhite c && allWhite r
  end.

Lemma trimStart_white (ws s : string) :
  allWhite ws = true -> trimStart (ws +:+ s) = trimStart s.
Proof.
  induction ws as [| c ws IH]; [reflexivity |].
  cbn [allWhite]. intros H. apply andb_prop in H. destruct H as [Hc Hw].
  rewrite append_cons. cbn [trimStart]. rewrite Hc. apply IH, Hw.
Qed.

Lemma trimEnd_white (s ws : string) :
  allWhite ws = true -> trimEnd (s +:+ ws) = trimEnd s.
Proof.
  intros Hw. induction s as [| c s IH].
  - change (EmptyString +:+ ws) with ws.
    induction ws as [| x ws IHw]; [reflexivity |].
    cbn [allWhite] in Hw. apply andb_prop in Hw. destruct Hw as [Hx Hw].
    cbn [trimEnd]. rewrite (IHw Hw). cbn [trimEnd]. rewrite Hx. reflexivity.
  - rewrite append_cons. cbn [trimEnd]. rewrite IH. reflexivity.
Qed.

Lemma trimEnd_kept (s : string) (c : ascii) :
  isWhite c = false ->
  trimEnd (s +:+ String c EmptyString) = s +:+ String c EmptyString.
Proof.
  intros Hc. induction s as [| x s IH].
  - change (EmptyString +:+ String c EmptyString) with (String c EmptyString).
    cbn [trimEnd]. rewrite Hc. reflexivity.
  - rewrite append_cons. cbn [trimEnd]. rewrite IH. destruct s; reflexivity.
Qed.

(** White space around a text that begins and ends with a back quote. *)
Lemma trim_quoted (before after core : string) :
  allWhite before = true -> allWhite after = true ->
  trim (before +:+ (String "`" core +:+ "`") +:+ after)
  = String "`" core +:+ "`".
Proof.
  intros Hb Ha. unfold trim. rewrite trimStart_white by exact Hb.
  rewrite !append_cons. cbn [trimStart].
  change (isWhite "`") with false. cbv iota.
  change (String "`" ((core +:+ "`") +:+ after))
    with ((String "`" core +:+ "`") +:+ after).
  rewrite trimEnd_white by exact Ha.
  apply (trimEnd_kept (String "`" core) "`"). reflexivity.
Qed.

(** Scanning for a pattern that begins with a back quote goes through a
    text without back quote unchanged. *)
Lemma removeAll_body (pat body rest : string) :
  lacks "`" body = true ->
  removeAll (String "`" pat) None (body +:+ rest)
  = body +:+ removeAll (String "`" pat) None rest.
Proof.
  induction body as [| c body IH]; [reflexivity |].
  cbn [lacks]. intros H. apply andb_prop in H. destruct H as [Hc Hb].
  rewrite !append_cons. cbn [removeAll String.prefix].
  destruct (ascii_dec "`" c) as [<- | _]; [discriminate Hc |].
  rewrite (IH Hb). reflexivity.
Qed.

Lemma prefix_weaken (a b t : string) :
  String.prefix (a +:+ b) t = true -> String.prefix a t = true.
Proof.
  revert t. induction a as [| x a IH]; intros t; [destruct t; reflexivity |].
  rewrite append_cons. destruct t as [| y t]; cbn [String.prefix];
    [discriminate |].
  destruct (ascii_dec x y); [apply IH | discriminate].
Qed.

Lemma fenced_shape (a body : string) :
  a +:+ body +:+ "```" = (a +:+ body +:+ "``") +:+ "`".
Proof. rewrite !append_assoc. reflexivity. Qed.

Lemma trim_fenced (before after a body : string) :
  allWhite before = true -> allWhite after = true ->
  trim (before +:+ (String "`" a +:+ body +:+ "```") +:+ after)
  = String "`" a +:+ body +:+ "```".
Proof.
  intros Hb Ha. rewrite fenced_shape.
  apply (trim_quoted before after (a +:+ body +:+ "``") Hb Ha).
Qed.

End ReplyFacts.

(** X20. A reply wrapped in a code fence is unwrapped. With [body] free of back
    quotes and white space around the fence: a reply
    [```json], line feed, [body], [```] gives [body], and so does the same
    with the plain opening fence [```]; a reply that does not begin with a
    fence, once trimmed, is only trimmed. *)
Theorem cleanedText_unwraps_fenced_reply (before after body : string) :
  allWhite before = true -> allWhite after = true ->
  lacks "`" body = true ->
  let lf := String Gemini.lineFeed EmptyString in
  Gemini.cleanedText
    (before +:+ ("```json" +:+ lf +:+ body +:+ "```") +:+ after) = body
  /\ Gemini.cleanedText
       (before +:+ ("```" +:+ lf +:+ body +:+ "```") +:+ after) = body
  /\ (forall text,
        String.prefix "```" (JS.trim text) = false ->
        Gemini.cleanedText text = JS.trim text).
Proof.
  intros Hb Ha Hbody lf. subst lf. split; [| split].
  - unfold Gemini.cleanedText.
    change ("```json" +:+ String Gemini.lineFeed EmptyString +:+ body +:+ "```")
      with (String "`" ("``json" +:+ String Gemini.lineFeed EmptyString)
            +:+ body +:+ "```").
    rewrite trim_fenced by assumption.
    change (String.prefix Gemini.jsonFence
              (String "`" ("``json" +:+ String Gemini.lineFeed EmptyString)
               +:+ body +:+ "```")) with true.
    cbv iota.
    change (Gemini.removeAll Gemini.jsonFence None
              (String "`" ("``json" +:+ String Gemini.lineFeed EmptyString)
               +:+ body +:+ "```"))
      with (Gemini.removeAll Gemini.jsonFence None (body +:+ "```")).
    unfold Gemini.jsonFence, Gemini.fence.
    rewrite removeAll_body by exact Hbody.
    change (Gemini.removeAll "```json" None "```") with "```".
    rewrite removeAll_body by exact Hbody.
    change (Gemini.removeAll "```" None "```") with EmptyString.
    apply append_empty.
  - unfold Gemini.cleanedText.
    change ("```" +:+ String Gemini.lineFeed EmptyString +:+ body +:+ "```")
      with (String "`" ("``" +:+ String Gemini.lineFeed EmptyString)
            +:+ body +:+ "```").
    rewrite trim_fenced by assumption.
    change (String.prefix Gemini.jsonFence
              (String "`" ("``" +:+ String Gemini.lineFeed EmptyString)
               +:+ body +:+ "```")) with false.
    change (String.prefix Gemini.fence
              (String "`" ("``" +:+ String Gemini.lineFeed EmptyString)
               +:+ body +:+ "```")) with true.
    cbv iota.
    change (Gemini.removeAll Gemini.fence None
              (String "`" ("``" +:+ String Gemini.lineFeed EmptyString)
               +:+ body +:+ "```"))
      with (Gemini.removeAll Gemini.fence None (body +:+ "```")).
    unfold Gemini.fence.
    rewrite removeAll_body by exact Hbody.
    change (Gemini.removeAll "```" None "```") with EmptyString.
    apply append_empty.
  - intros text Hp. unfold Gemini.cleanedText.
    destruct (String.prefix Gemini.jsonFence (JS.trim text)) eqn:Hj.
    + apply (prefix_weaken "```" "json") in Hj. congruence.
    + unfold Gemini.fence. rewrite Hp. reflexivity.
Qed.

Lemma cleanedText_unwraps_fenced_reply_witness :
  Gemini.cleanedText
    ("  " +:+ ("```json" +:+ String Gemini.lineFeed EmptyString
               +:+ "{}" +:+ "```") +:+ String Gemini.lineFeed EmptyString)
  = "{}".
Proof.
  apply (cleanedText_unwraps_fenced_reply "  "
           (String Gemini.lineFeed EmptyString) "{}"); reflexivity.
Defined.

Section FenceFacts.
Import JS Gemini.

(** A code fence somewhere in the text. *)
Fixpoint hasFence (s : string) : bool :=
  match s with
  | EmptyString => false
  | String c r => String.prefix fence s || hasFence r
  end.

Definition backQuote : ascii := "`".

Lemma prefix_fence (c : ascii) (r : string) :
  String.prefix fence (String c r)
  = Ascii.eqb c backQuote && String.prefix "``" r.
Proof.
  unfold fence. cbn [String.prefix].
  destruct (ascii_dec "`" c) as [<- | N].
  - reflexivity.
  - destruct (Ascii.eqb_spec c backQuote) as [-> | _];
      [contradiction | reflexivity].
Qed.

Lemma prefix_two (c : ascii) (r : string) :
  String.prefix "``" (String c r)
  = Ascii.eqb c backQuote && String.prefix "`" r.
Proof.
  cbn [String.prefix].
  destruct (ascii_dec "`" c) as [<- | N].
  - reflexivity.
  - destruct (Ascii.eqb_spec c backQuote) as [-> | _];
      [contradiction | reflexivity].
Qed.

Lemma prefix_one (c : ascii) (r : string) :
  String.prefix "`" (String c r) = Ascii.eqb c backQuote.
Proof.
  cbn [String.prefix].
  destruct (ascii_dec "`" c) as [<- | N].
  - destruct r; reflexivity.
  - destruct (Ascii.eqb_spec c backQuote) as [-> | _];
      [contradiction | reflexivity].
Qed.

(** Scanning, at a character that starts no match. *)
Lemma removeAll_keep (c : ascii) (r : string) :
  String.prefix fence (String c r) = false ->
  removeAll fence None (String c r) = String c (removeAll fence None r).
Proof. intros H. cbn [removeAll]. rewrite H. reflexivity. Qed.

Lemma scan_one (s : string) :
  String.prefix "`" s = false ->
  String.prefix "`" (removeAll fence None s) = false.
Proof.
  destruct s as [| c r]; [reflexivity |].
  rewrite prefix_one. intros Hc.
  rewrite removeAll_keep by (rewrite prefix_fence, Hc; reflexivity).
  rewrite prefix_one. exact Hc.
Qed.

Lemma one_two (s : string) :
  String.prefix "`" s = false -> String.prefix "``" s = false.
Proof.
  destruct s as [| c r]; [reflexivity |].
  rewrite prefix_one, prefix_two. intros ->. reflexivity.
Qed.

Lemma two_fence (s : string) :
  String.prefix "``" s = false -> String.prefix fence s = false.
Proof.
  destruct s as [| c r]; [reflexivity |].
  rewrite prefix_two, prefix_fence.
  destruct (Ascii.eqb c backQuote); [| reflexivity].
  cbn [andb]. apply one_two.
Qed.

Lemma scan_two (s : string) :
  String.prefix "``" s = false ->
  String.prefix "``" (removeAll fence None s) = false.
Proof.
  intros H. pose proof (two_fence s H) as Hf.
  destruct s as [| c r]; [reflexivity |].
  rewrite removeAll_keep by exact Hf.
  rewrite prefix_two in H |- *.
  destruct (Ascii.eqb c backQuote); [| reflexivity].
  cbn [andb] in H |- *. apply scan_one, H.
Qed.

(** Whatever the scanner is in the middle of, what it leaves holds no
    fence. *)
Lemma removeAll_no_fence (s : string) :
  forall pending : option nat,
    hasFence (removeAll fence pending s) = false.
Proof.
  induction s as [| c r IH]; intros pending; [reflexivity |].
  assert (Hscan :
    hasFence (if String.prefix fence (String c r)
              then removeAll fence (Some (Nat.pred (String.length fence))) r
              else String c (removeAll fence None r)) = false).
  { destruct (String.prefix fence (String c r)) eqn:Hp; [apply IH |].
    cbn [hasFence]. rewrite (IH None), orb_false_r.
    rewrite prefix_fence in Hp |- *.
    destruct (Ascii.eqb c backQuote); [| reflexivity].
    cbn [andb] in Hp |- *. apply scan_two, Hp. }
  cbn [removeAll]. destruct pending as [[| n] |].
  - destruct (Ascii.eqb c lineFeed); [apply IH | exact Hscan].
  - apply IH.
  - exact Hscan.
Qed.

End FenceFacts.

(** X21. A reply that begins with a code fence, once trimmed, is handed to the
    parser without any fence left in it, wherever fences stood in it. *)
Theorem cleanedText_leaves_no_fence (text : string) :
  String.prefix "```" (JS.trim text) = true ->
  hasFence (Gemini.cleanedText text) = false.
Proof.
  intros Hp. unfold Gemini.cleanedText.
  destruct (String.prefix Gemini.jsonFence (JS.trim text)).
  - apply removeAll_no_fence.
  - unfold Gemini.fence at 1. rewrite Hp. apply removeAll_no_fence.
Qed.

Lemma cleanedText_leaves_no_fence_witness :
  hasFence (Gemini.cleanedText "```json {} ``` and ```more``````") = false.
Proof. apply cleanedText_leaves_no_fence. reflexivity. Defined.

(** ** The effort of the retry loop *)

Section LoopFacts.
Import JS Gemini.

Definition isDownload (ev : event) : bool :=
  match ev with Download => true | _ => false end.
Definition isCheckQuality (ev : event) : bool :=
  match ev with CheckQuality => true | _ => false end.

Definition count (p : event -> bool) (evs : list event) : nat :=
  List.length (List.filter p evs).

Lemma count_app (p : event -> bool) (a b : list event) :
  count p (a ++ b) = (count p a + count p b)%nat.
Proof. unfold count. rewrite List.filter_app, List.length_app. reflexivity. Qed.

Lemma sleeps_app (a b : list event) : sleeps (a ++ b) = sleeps a ++ sleeps b.
Proof. unfold sleeps. apply flat_map_app. Qed.

Lemma last_app_cons {A} (a : list A) (x : A) (b : list A) (dflt : A) :
  List.last (a ++ x :: b) dflt = List.last (x :: b) dflt.
Proof.
  induction a as [| y a IH]; [reflexivity |].
  cbn [app]. rewrite <- IH. destruct (a ++ x :: b) eqn:E; [| reflexivity].
  destruct a; discriminate E.
Qed.

(** One for the first attempt, none for a later one. *)
Definition once (attempt : nat) : nat := if (attempt =? 0)%nat then 1 else 0.

(** The events of one iteration. *)
Lemma attemptBody_events (o : oracle) (record : Viaje.t)
    (validPlacas : list string) (maxRetries attempt : nat) :
  let evs := fst (attemptBody o record validPlacas maxRetries attempt) in
  let st := snd (attemptBody o record validPlacas maxRetries attempt) in
  (calls evs <= 1)%nat /\ sleeps evs = []
  /\ (count isDownload evs <= once attempt)%nat
  /\ (count isCheckQuality evs <= once attempt)%nat
  /\ (forall r, st = Return r -> List.last evs Download = Cleanup)
  /\ (forall err delay, st = Continue err delay ->
                        delay = 1000 * 2 ^ Z.of_nat attempt
                        /\ Z.of_nat attempt < Z.of_nat maxRetries - 1).
Proof.
  unfold attemptBody, once.
  destruct (attempt =? 0)%nat; destruct (imageError o) as [e0 |];
    destruct (quality o) as [| score [|] reason];
    destruct (respond o attempt) as [e1 | msg | x];
    try destruct (Z.ltb_spec (Z.of_nat attempt) (Z.of_nat maxRetries - 1));
    try destruct (Validation.validateExtraction x record validPlacas);
    cbn [fst snd app]; unfold baseDelay;
    refine (conj _ (conj _ (conj _ (conj _ (conj _ _))))).
  all: try (cbn; lia).
  all: try reflexivity.
  all: try (intros r Hst; discriminate Hst).
  all: try (intros r Hst; reflexivity).
  all: try (intros err delay Hst; discriminate Hst).
  all: intros err delay Hst; injection Hst as _ <-;
    split; [reflexivity | assumption].
Qed.

Lemma validateExtraction_throw (e : fields Validation.field) (r : Viaje.t)
    (validPlacas : list string) (err : error) :
  Validation.validateExtraction e r validPlacas = Throw err ->
  status err = None /\ name err = "TypeError".
Proof.
  destruct (Validation.comparePlaca (Validation.valor (placa e))
              (Viaje.placa r)) as [v0 | err'] eqn:Hp.
  - destruct (validateExtraction_table e r validPlacas v0 Hp) as (v & -> & _).
    discriminate.
  - unfold Validation.validateExtraction. rewrite Hp. cbn [bind].
    intros [= <-]. unfold Validation.comparePlaca in Hp.
    destruct (negb _); [discriminate |].
    destruct (Viaje.placa r) as [| | p];
      [| | destruct (String.eqb _ _); discriminate];
      injection Hp as <-; split; reflexivity.
Qed.

(** No error the outside world raises carries a delay the loop would use. *)
Definition noHint (o : oracle) : Prop :=
  (forall e, imageError o = Some e -> suggestedDelay e = None)
  /\ (forall attempt e, respond o attempt = Rejects e ->
                        suggestedDelay e = None).

Lemma suggestedDelay_no_status (e : error) :
  status e = None -> suggestedDelay e = None.
Proof. unfold suggestedDelay. intros ->. reflexivity. Qed.

Lemma attemptBody_raise (o : oracle) (record : Viaje.t)
    (validPlacas : list string) (maxRetries attempt : nat)
    (evs : list event) (e : error) :
  noHint o ->
  attemptBody o record validPlacas maxRetries attempt = (evs, Raise e) ->
  suggestedDelay e = None.
Proof.
  intros [Himg Hrej]. unfold attemptBody.
  destruct (imageError o) as [e0 |] eqn:Hi.
  { intros [= _ <-]. apply Himg. reflexivity. }
  set (gate := if (attempt =? 0)%nat then _ else None).
  assert (Hcall :
    match respond o attempt with
    | Rejects e0 => suggestedDelay e0 = None
    | _ => True
    end).
  { destruct (respond o attempt) eqn:Hr; [| exact I | exact I].
    apply (Hrej attempt). exact Hr. }
  destruct gate as [[[score [|]] reason] |];
    try (intros [= _ H]; discriminate H);
    (destruct (respond o attempt) as [e0 | msg | x];
     [ intros [= _ <-]; exact Hcall
     | destruct (_ <? _); [discriminate | intros [= _ <-]; reflexivity]
     | destruct (Validation.validateExtraction x record validPlacas)
         as [v | e0] eqn:Hv;
       [ discriminate
       | intros [= _ <-]; apply suggestedDelay_no_status;
         apply (validateExtraction_throw x record validPlacas e0 Hv) ] ]).
Qed.

Definition wait (attempt : nat) : Z := 1000 * 2 ^ Z.of_nat attempt.

Definition total (l : list Z) : Z := fold_right Z.add 0 l.

Lemma total_waits (attempt n : nat) :
  total (map wait (seq attempt n))
  = 1000 * 2 ^ Z.of_nat attempt * (2 ^ Z.of_nat n - 1).
Proof.
  revert attempt. induction n as [| n IH]; intros attempt.
  - cbn. lia.
  - cbn [seq map total fold_right]. fold (total (map wait (seq (S attempt) n))).
    rewrite IH. unfold wait.
    rewrite !Nat2Z.inj_succ, !Z.pow_succ_r by lia. lia.
Qed.

(** The loop from any iteration on. *)
Lemma attempts_events (o : oracle) (record : Viaje.t)
    (validPlacas : list string) (maxRetries remaining : nat) :
  forall (attempt : nat) (lastError : option error),
    (attempt + remaining = maxRetries)%nat ->
    let evs :=
      fst (attempts o record validPlacas maxRetries remaining attempt
             lastError) in
    (calls evs <= remaining)%nat
    /\ (List.length (sleeps evs) <= remaining - 1)%nat
    /\ List.last evs Download = Cleanup
    /\ (count isDownload evs <= once attempt)%nat
    /\ (count isCheckQuality evs <= once attempt)%nat
    /\ (noHint o ->
        sleeps evs = map wait (seq attempt (List.length (sleeps evs)))).
Proof.
  induction remaining as [| rest IH]; intros attempt lastError Hsum.
  - cbn. refine (conj _ (conj _ (conj _ (conj _ (conj _ _)))));
      try lia; reflexivity.
  - cbn [attempts].
    pose proof (attemptBody_events o record validPlacas maxRetries attempt)
      as (Hc & Hs & Hd & Hq & Hret & Hcont).
    pose proof (attemptBody_raise o record validPlacas maxRetries attempt)
      as Hraise.
    destruct (attemptBody o record validPlacas maxRetries attempt)
      as [evs st]. cbn [fst snd] in *.
    assert (Hnext : forall (err : error) (delay : Z),
      (1 <= rest)%nat ->
      (noHint o -> delay = wait attempt) ->
      let evs' := fst (attempts o record validPlacas maxRetries rest
                         (S attempt) (Some err)) in
      (calls (evs ++ Sleep delay :: evs') <= S rest)%nat
      /\ (List.length (sleeps (evs ++ Sleep delay :: evs')) <= S rest - 1)%nat
      /\ List.last (evs ++ Sleep delay :: evs') Download = Cleanup
      /\ (count isDownload (evs ++ Sleep delay :: evs') <= once attempt)%nat
      /\ (count isCheckQuality (evs ++ Sleep delay :: evs') <= once attempt)%nat
      /\ (noHint o ->
          sleeps (evs ++ Sleep delay :: evs')
          = map wait (seq attempt
                        (List.length (sleeps (evs ++ Sleep delay :: evs')))))).
    { intros err delay Hrest Hdelay evs'.
      destruct (IH (S attempt) (Some err) ltac:(lia))
        as (Ic & Is & Il & Id & Iq & Iw).
      fold evs' in Ic, Is, Il, Id, Iq, Iw.
      change (Sleep delay :: evs') with ([Sleep delay] ++ evs').
      rewrite !calls_app, !sleeps_app, !count_app, Hs.
      cbn [app sleeps flat_map List.length calls List.filter count
           isDownload isCheckQuality Nat.add] in *.
      unfold once in Id, Iq. cbn [Nat.eqb] in Id, Iq.
      change ([] ++ Sleep delay :: evs') with (Sleep delay :: evs').
      refine (conj _ (conj _ (conj _ (conj _ (conj _ _))))); try lia.
      - rewrite last_app_cons.
        destruct evs' as [| x l]; [cbn in Il; discriminate Il | exact Il].
      - intros Hn. cbn [seq map]. rewrite <- (Iw Hn), (Hdelay Hn).
        reflexivity. }
    destruct st as [r | err delay | e].
    + cbn [fst]. rewrite Hs.
      refine (conj _ (conj _ (conj _ (conj _ (conj _ _))))); cbn; try lia;
        auto.
      apply (Hret r eq_refl).
    + destruct (Hcont err delay eq_refl) as (Hdel & Hlt).
      specialize (Hnext err delay ltac:(lia) (fun _ => Hdel)).
      destruct (attempts o record validPlacas maxRetries rest (S attempt)
                  (Some err)) as [evs' out]. exact Hnext.
    + destruct (negb (isRetriable e)); cbn [orb].
      * cbn [fst]. rewrite calls_app, sleeps_app, !count_app, Hs.
        refine (conj _ (conj _ (conj _ (conj _ (conj _ _))))); cbn; try lia;
          auto.
        rewrite last_app_cons. reflexivity.
      * destruct (Z.eqb_spec (Z.of_nat attempt) (Z.of_nat maxRetries - 1))
          as [Heq | Hne].
        -- cbn [fst]. rewrite calls_app, sleeps_app, !count_app, Hs.
           refine (conj _ (conj _ (conj _ (conj _ (conj _ _))))); cbn;
             try lia; auto.
           rewrite last_app_cons. reflexivity.
        -- specialize (Hnext e (default (1000 * 2 ^ Z.of_nat attempt)
                                  (suggestedDelay e)) ltac:(lia)).
           cbv zeta in Hnext. unfold baseDelay.
           destruct (attempts o record validPlacas maxRetries rest
                       (S attempt) (Some e)) as [evs' out]. apply Hnext.
           intros Hn. rewrite (Hraise evs e Hn eq_refl). reflexivity.
Qed.

End LoopFacts.

(** X22. The effort one call of [auditWithGemini] spends on a record, whatever
    the oracle does: at most [maxRetries] extraction calls; at most
    [maxRetries - 1] waits; the image is fetched and its quality checked at
    most once; and the last thing done, whether the call returns or throws,
    is to remove the working directory. Without a bucket nothing is done. *)
Theorem auditWithGemini_effort_is_bounded
    (o : Gemini.oracle) (record : Viaje.t) (image : string)
    (validPlacas : list string) (maxRetries : nat) :
  let evs :=
    fst (Gemini.auditWithGemini true o record image validPlacas maxRetries) in
  (Gemini.calls evs <= maxRetries)%nat
  /\ (List.length (Gemini.sleeps evs) <= maxRetries - 1)%nat
  /\ (count isDownload evs <= 1)%nat
  /\ (count isCheckQuality evs <= 1)%nat
  /\ List.last evs Gemini.Download = Gemini.Cleanup
  /\ fst (Gemini.auditWithGemini false o record image validPlacas maxRetries)
     = [].
Proof.
  intros evs.
  destruct (attempts_events o record validPlacas maxRetries maxRetries 0 None
              eq_refl) as (Hc & Hs & Hl & Hd & Hq & _).
  refine (conj Hc (conj Hs (conj Hd (conj Hq (conj Hl _))))). reflexivity.
Qed.

(** X23. The waits of one call when no error carries a delay of its own (none
    has status 429 with a [RetryInfo] delay): the wait after attempt [k]
    lasts [1000 * 2^k] ms, so the waits are 1000, 2000, 4000, ... in this
    order, and they add up to at most [1000 * (2^(maxRetries-1) - 1)] ms,
    which is 7 s for the default bound of four attempts. *)
Theorem waits_double_without_hint
    (o : Gemini.oracle) (record : Viaje.t) (image : string)
    (validPlacas : list string) (maxRetries : nat) :
  noHint o ->
  let waits :=
    Gemini.sleeps
      (fst (Gemini.auditWithGemini true o record image validPlacas
              maxRetries)) in
  waits = map wait (seq 0 (List.length waits))
  /\ (List.length waits <= maxRetries - 1)%nat
  /\ total waits <= 1000 * (2 ^ Z.of_nat (maxRetries - 1) - 1).
Proof.
  intros Hn waits.
  destruct (attempts_events o record validPlacas maxRetries maxRetries 0 None
              eq_refl) as (_ & Hs & _ & _ & _ & Hw).
  specialize (Hw Hn). unfold waits, Gemini.auditWithGemini. cbn [negb].
  set (w := Gemini.sleeps
              (fst (Gemini.attempts o record validPlacas maxRetries
                      maxRetries 0 None))) in *.
  split; [exact Hw |]. split; [exact Hs |].
  rewrite Hw, total_waits. change (2 ^ Z.of_nat 0) with 1.
  assert (2 ^ Z.of_nat (List.length w) <= 2 ^ Z.of_nat (maxRetries - 1)).
  { apply Z.pow_le_mono_r; lia. }
  lia.
Qed.

Definition overloaded : Gemini.oracle :=
  {| Gemini.imageError := None;
     Gemini.quality := Gemini.QualityReport (JS.ofZ 8) true "Imagen clara";
     Gemini.respond := fun _ =>
       Gemini.Rejects
         {| JS.name := "Error";
            JS.message := "[503 Service Unavailable] The model is overloaded";
            JS.status := Some 503; JS.errorDetails := None |} |}.

Lemma waits_double_without_hint_witness :
  Gemini.sleeps
    (fst (Gemini.auditWithGemini true overloaded sampleRow
            "images/2025/12/10/a1b2c3d4.foto_vale.jpg" [] 4))
  = [1000; 2000; 4000].
Proof.
  assert (Hn : noHint overloaded).
  { split; [discriminate |]. intros attempt e [= <-]. reflexivity. }
  rewrite (proj1 (waits_double_without_hint overloaded sampleRow
                    "images/2025/12/10/a1b2c3d4.foto_vale.jpg" [] 4 Hn)).
  vm_compute. reflexivity.
Defined.

(** X24. The legibility gate looks at [isReadable] alone. When the report says
    the image is not readable, whatever its score, no extraction is asked
    for: the image is fetched, checked, the working directory removed, and
    the record goes to manual review with the score and the reason of the
    report, an empty extraction, approval false and no discrepancy; with a
    bucket and no storage call failing, that result is stored under the
    manual-review path. *)
Theorem unreadable_image_goes_to_manual_review
    (o : Gemini.oracle) (maxRetries : nat) (record : Viaje.t)
    (imagePath d : string) (validPlacas : list string)
    (objs : gmap string doc) (t : string) (score : JS.number) (why : string) :
  (0 < maxRetries)%nat ->
  Gemini.imageError o = None ->
  Gemini.quality o = Gemini.QualityReport score false why ->
  Gemini.auditWithGemini true o record imagePath validPlacas maxRetries
  = ([Gemini.Download; Gemini.CheckQuality; Gemini.Cleanup],
     Gemini.Returned (Gemini.RequiresManualReview score why))
  /\ exists r,
       fst (Audit.auditRecord o maxRetries record imagePath d validPlacas
              (calm objs t)) = JS.Normal r
       /\ status r = "requiere_revision_manual"
       /\ aprobado r = Some false
       /\ qualityScore r = Some score
       /\ manualReviewReason r = Some why
       /\ gemini_extraction r = Some Audit.illegibleExtraction
       /\ discrepancies r = []
       /\ Bucket.objects
            (snd (Audit.auditRecord o maxRetries record imagePath d
                    validPlacas (calm objs t)))
          !! Audit.manualReviewPath d (Viaje.rowId record)
          = Some (DAudit r).
Proof.
  intros Hpos Himg Hq.
  assert (Hrun :
    Gemini.auditWithGemini true o record imagePath validPlacas maxRetries
    = ([Gemini.Download; Gemini.CheckQuality; Gemini.Cleanup],
       Gemini.Returned (Gemini.RequiresManualReview score why))).
  { unfold Gemini.auditWithGemini. cbn [negb].
    destruct maxRetries as [| n]; [lia |].
    cbn [Gemini.attempts]. unfold Gemini.attemptBody.
    rewrite Himg, Hq. reflexivity. }
  split; [exact Hrun |].
  assert (Ho : snd (Gemini.auditWithGemini (Bucket.bucketOk (calm objs t)) o
                      record imagePath validPlacas maxRetries)
               = Gemini.Returned (Gemini.RequiresManualReview score why)).
  { cbn [Bucket.bucketOk calm]. rewrite Hrun. reflexivity. }
  rewrite (auditRecord_manual_review o maxRetries record imagePath d
             validPlacas (calm objs t) score why Ho).
  change (Bucket.now (calm objs t)) with t. cbn [fst snd].
  eexists. split; [reflexivity |].
  repeat split.
  destruct (saveAndIndex_calm (Audit.manualReviewPath d (Viaje.rowId record))
              d (Viaje.rowId record)
              (Audit.manualReviewResult record imagePath t score why)
              objs t (manual_review_not_index d _)) as (objs' & -> & Hst & _).
  exact Hst.
Qed.

Definition blurred : Gemini.oracle :=
  {| Gemini.imageError := None;
     Gemini.quality :=
       Gemini.QualityReport (JS.ofZ 9) false "Texto manuscrito borroso";
     Gemini.respond := fun _ => Gemini.Extraction sampleClear |}.

Lemma unreadable_image_goes_to_manual_review_witness :
  Gemini.calls
    (fst (Gemini.auditWithGemini true blurred sampleRow
            "images/2025/12/10/a1b2c3d4.foto_vale.jpg" [] 4)) = 0%nat.
Proof.
  rewrite (proj1 (unreadable_image_goes_to_manual_review blurred 4 sampleRow
                    "images/2025/12/10/a1b2c3d4.foto_vale.jpg" "2025/12/10"
                    [] ∅ "2025-12-11T06:00:00.000Z" (JS.ofZ 9)
                    "Texto manuscrito borroso" ltac:(lia) eq_refl eq_refl)).
  reflexivity.
Defined.

Section QualityFacts.
Import Bucket Gemini Audit.

(** The oracle [o], its quality check replaced. *)
Definition withQuality (q : qualityOutcome) (o : oracle) : oracle :=
  {| imageError := imageError o; quality := q; respond := respond o |}.

(** A result without the score of the quality check. *)
Definition forgetScore (r : geminiResult) : geminiResult :=
  match r with
  | Audit ex co v _ => Audit ex co v None
  | other => other
  end.

Definition forgetStep (st : step) : step :=
  match st with
  | Return r => Return (forgetScore r)
  | other => other
  end.

Definition forgetOutcome (out : outcome) : outcome :=
  match out with
  | Returned r => Returned (forgetScore r)
  | other => other
  end.

Lemma attemptBody_quality (o : oracle) (record : Viaje.t)
    (validPlacas : list string) (maxRetries attempt : nat)
    (score : JS.number) (why : string) :
  let failing :=
    attemptBody (withQuality QualityFails o) record validPlacas maxRetries
      attempt in
  let readable :=
    attemptBody (withQuality (QualityReport score true why) o) record
      validPlacas maxRetries attempt in
  fst readable = fst failing
  /\ forgetStep (snd readable) = snd failing.
Proof.
  unfold attemptBody, withQuality.
  cbn [imageError quality respond].
  destruct (attempt =? 0)%nat; destruct (imageError o) as [e0 |];
    destruct (respond o attempt) as [e1 | msg | x];
    try destruct (Z.of_nat attempt <? Z.of_nat maxRetries - 1);
    try destruct (Validation.validateExtraction x record validPlacas);
    split; reflexivity.
Qed.

Lemma attempts_quality (o : oracle) (record : Viaje.t)
    (validPlacas : list string) (maxRetries remaining : nat)
    (score : JS.number) (why : string) :
  forall (attempt : nat) (lastError : option JS.error),
    let failing :=
      attempts (withQuality QualityFails o) record validPlacas maxRetries
        remaining attempt lastError in
    let readable :=
      attempts (withQuality (QualityReport score true why) o) record
        validPlacas maxRetries remaining attempt lastError in
    fst readable = fst failing
    /\ forgetOutcome (snd readable) = snd failing.
Proof.
  induction remaining as [| rest IH]; intros attempt lastError.
  - split; reflexivity.
  - cbn [attempts].
    destruct (attemptBody_quality o record validPlacas maxRetries attempt
                score why) as (Hev & Hst).
    destruct (attemptBody (withQuality QualityFails o) record validPlacas
                maxRetries attempt) as [evs st].
    destruct (attemptBody (withQuality (QualityReport score true why) o)
                record validPlacas maxRetries attempt) as [evs' st'].
    cbn [fst snd] in Hev, Hst. subst evs' st.
    destruct st' as [r | err delay | e]; cbn [forgetStep].
    + split; reflexivity.
    + destruct (IH (S attempt) (Some err)) as (Hev & Hout).
      destruct (attempts (withQuality QualityFails o) record validPlacas
                  maxRetries rest (S attempt) (Some err)) as [a b].
      destruct (attempts (withQuality (QualityReport score true why) o)
                  record validPlacas maxRetries rest (S attempt) (Some err))
        as [a' b'].
      cbn [fst snd] in *. subst a' b. split; reflexivity.
    + destruct (negb (isRetriable e) || _); [split; reflexivity |].
      destruct (IH (S attempt) (Some e)) as (Hev & Hout).
      destruct (attempts (withQuality QualityFails o) record validPlacas
                  maxRetries rest (S attempt) (Some e)) as [a b].
      destruct (attempts (withQuality (QualityReport score true why) o)
                  record validPlacas maxRetries rest (S attempt) (Some e))
        as [a' b'].
      cbn [fst snd] in *. subst a' b. split; reflexivity.
Qed.

End QualityFacts.

(** X25. The quality check matters only when it reports an image that is not
    readable. Whether the check fails or reports a readable image, with
    whatever score, the oracle caller does the same things and
    [auditRecord] returns the same result and leaves the same store: the
    score of an image that is read is not kept. *)
Theorem quality_score_of_a_readable_image_is_not_kept
    (o : Gemini.oracle) (maxRetries : nat) (record : Viaje.t)
    (imagePath d : string) (validPlacas : list string) (w : Bucket.world)
    (score : JS.number) (why : string) :
  let failing := withQuality Gemini.QualityFails o in
  let readable := withQuality (Gemini.QualityReport score true why) o in
  fst (Gemini.auditWithGemini true readable record imagePath validPlacas
         maxRetries)
  = fst (Gemini.auditWithGemini true failing record imagePath validPlacas
           maxRetries)
  /\ Audit.auditRecord readable maxRetries record imagePath d validPlacas w
     = Audit.auditRecord failing maxRetries record imagePath d validPlacas w.
Proof.
  intros failing readable.
  destruct (attempts_quality o record validPlacas maxRetries maxRetries
              score why 0 None) as (Hev & Hout).
  split; [exact Hev |].
  unfold Audit.auditRecord, Bucket.seq, Bucket.getBucket.
  unfold Gemini.auditWithGemini.
  destruct (negb (Bucket.bucketOk w)); [reflexivity |].
  fold failing readable in Hout. rewrite <- Hout.
  destruct (snd (Gemini.attempts readable record validPlacas maxRetries
                   maxRetries 0 None)) as [[s y | ex co v q] | [err |]];
    reflexivity.
Qed.

(** X26. Saving does not change what [auditRecord] returns. The outcome of the
    image download and the replies of the model being given, as the
    oracle's, the result is the same whatever audit documents the store
    holds and whichever of the calls that save the result and update the
    index fail, in two worlds with or without a bucket alike and at the
    same time: a write that fails never turns a result into an error. *)
Theorem auditRecord_result_ignores_saving
    (o : Gemini.oracle) (maxRetries : nat) (record : Viaje.t)
    (imagePath d : string) (validPlacas : list string)
    (w w' : Bucket.world) :
  Bucket.bucketOk w = Bucket.bucketOk w' ->
  Bucket.now w = Bucket.now w' ->
  fst (Audit.auditRecord o maxRetries record imagePath d validPlacas w)
  = fst (Audit.auditRecord o maxRetries record imagePath d validPlacas w').
Proof.
  intros Hb Hn.
  destruct (snd (Gemini.auditWithGemini (Bucket.bucketOk w) o record
                   imagePath validPlacas maxRetries))
    as [[score why | ex co v q] | [err |]] eqn:Ho;
    pose proof Ho as Ho'; rewrite Hb in Ho'.
  - rewrite (auditRecord_manual_review o maxRetries record imagePath d
               validPlacas w score why Ho),
      (auditRecord_manual_review o maxRetries record imagePath d
         validPlacas w' score why Ho'), Hn. reflexivity.
  - rewrite (auditRecord_validated o maxRetries record imagePath d
               validPlacas w ex co v q Ho),
      (auditRecord_validated o maxRetries record imagePath d
         validPlacas w' ex co v q Ho'), Hn. reflexivity.
  - rewrite (auditRecord_thrown o maxRetries record imagePath d
               validPlacas w err Ho),
      (auditRecord_thrown o maxRetries record imagePath d
         validPlacas w' err Ho'), Hn. reflexivity.
  - unfold Audit.auditRecord, Bucket.seq, Bucket.getBucket.
    cbv beta iota. rewrite Ho, Ho'. reflexivity.
Qed.

Lemma auditRecord_result_ignores_saving_witness :
  fst (Audit.auditRecord twiceMalformed 4 sampleRow
         "images/2025/12/10/a1b2c3d4.foto_vale.jpg" "2025/12/10" []
         (calm ∅ "2025-12-11T06:00:00.000Z"))
  = fst (Audit.auditRecord twiceMalformed 4 sampleRow
           "images/2025/12/10/a1b2c3d4.foto_vale.jpg" "2025/12/10" []
           firstWriteFails).
Proof.
  apply auditRecord_result_ignores_saving; reflexivity.
Defined.
